(** * Prashiskshan chatbot service: routing, retrieval and SSE delivery

    A shallow embedding of
      - [chatbot/chatbot_service_sse.py]  (warm-up, [chunk_text],
        [generate_sse_response], the [/health], [/query],
        [/query-stream] and [/clear] handlers),
      - [chatbot/retrieval/retriever.py]  ([Retriever.retrieve],
        [Retriever.format_retrieved_context],
        [Retriever.ingest_qa_pair]),
      - [chatbot/routing/route_rules.py]  ([RouteRules]),
      - [resume/simple_enhancer.py]  ([SimpleResumeEnhancer]),
    and the properties of the service specification stated over it. *)

From Stdlib Require Import List ZArith NArith Bool Lia String Ascii.
From Stdlib Require DecimalString.
Import ListNotations.

Set Implicit Arguments.
Set Warnings "-register-all".

(* ================================================================== *)
(** * Python strings *)
(* ================================================================== *)

(** A Python [str] is a sequence of Unicode code points. *)
Module PyStr.

Definition char := N.
Definition str := list char.

(** A string literal of the source, as its code points. *)
Definition py (s : string) : str :=
  List.map N_of_ascii (list_ascii_of_string s).

Definition c_space : char := 32%N.
Definition c_pipe  : char := 124%N.
Definition c_dot   : char := 46%N.
Definition c_bang  : char := 33%N.
Definition c_qmark : char := 63%N.

(** [len(s)] *)
Definition len (s : str) : Z := Z.of_nat (List.length s).

(** Truth value of a string: [not s] holds exactly for [""]. *)
Definition nonempty (s : str) : bool :=
  match s with [] => false | _ :: _ => true end.

(** The characters [str.strip()] removes: those for which
    [str.isspace()] holds. *)
Definition is_space (c : char) : bool :=
  ((9 <=? c) && (c <=? 13) || (28 <=? c) && (c <=? 32)
   || (c =? 133) || (c =? 160) || (c =? 5760)
   || (8192 <=? c) && (c <=? 8202)
   || (c =? 8232) || (c =? 8233) || (c =? 8239) || (c =? 8287)
   || (c =? 12288))%N.

Fixpoint lstrip (s : str) : str :=
  match s with
  | [] => []
  | c :: s' => if is_space c then lstrip s' else s
  end.

Definition rstrip (s : str) : str := rev (lstrip (rev s)).

(** [s.strip()] *)
Definition strip (s : str) : str := rstrip (lstrip s).

(** [s.replace(old, new)] for a two-character [old = o1 o2]: the
    occurrences are found left to right and do not overlap. *)
Fixpoint replace2 (o1 o2 : char) (new : str) (s : str) : str :=
  match s with
  | [] => []
  | x :: r =>
      match r with
      | [] => [x]
      | y :: s' =>
          if ((x =? o1) && (y =? o2))%N
          then new ++ replace2 o1 o2 new s'
          else x :: replace2 o1 o2 new r
      end
  end.

(** Cutting a string at every character that satisfies [p]; the result
    has one more piece than there are such characters. *)
Fixpoint split_by (p : char -> bool) (s : str) : list str :=
  match s with
  | [] => [[]]
  | c :: s' =>
      if p c then [] :: split_by p s'
      else match split_by p s' with
           | [] => [[c]]
           | h :: t => (c :: h) :: t
           end
  end.

(** [s.split(sep)] for a one-character separator. *)
Definition split (sep : char) (s : str) : list str :=
  split_by (N.eqb sep) s.

(** [s.split()]: the maximal runs of non-whitespace characters. *)
Definition words (s : str) : list str :=
  filter nonempty (split_by is_space s).

(** [sep.join(l)] for a one-character separator. *)
Fixpoint join (sep : char) (l : list str) : str :=
  match l with
  | [] => []
  | [s] => s
  | s :: l' => s ++ sep :: join sep l'
  end.

(** [c in s] *)
Definition mem (c : char) (s : str) : bool := existsb (N.eqb c) s.

(** Some character of [s] is not whitespace. *)
Definition has_ink (s : str) : Prop :=
  exists c, In c s /\ is_space c = false.

End PyStr.
Import PyStr.

(* ================================================================== *)
(** * [chunk_text] *)
(* ================================================================== *)

Module Chunker.

(** [text.replace('? ', '?|').replace('! ', '!|').replace('. ', '.|')
        .split('|')] *)
Definition mark_boundaries (text : str) : str :=
  replace2 c_dot c_space [c_dot; c_pipe]
    (replace2 c_bang c_space [c_bang; c_pipe]
       (replace2 c_qmark c_space [c_qmark; c_pipe] text)).

Definition split_sentences (text : str) : list str :=
  split c_pipe (mark_boundaries text).

(** The [for sentence in sentences] loop together with the final
    [if current_chunk.strip()]; the result lists the yielded chunks. *)
Fixpoint chunk_loop (chunk_size : Z) (current_chunk : str)
         (sentences : list str) : list str :=
  match sentences with
  | [] =>
      if nonempty (strip current_chunk) then [strip current_chunk] else []
  | s :: rest =>
      let sentence := strip s in
      if negb (nonempty sentence) then chunk_loop chunk_size current_chunk rest
      else if nonempty current_chunk
              && (len current_chunk + len sentence >? chunk_size)%Z
      then current_chunk :: chunk_loop chunk_size (sentence ++ [c_space]) rest
      else chunk_loop chunk_size (current_chunk ++ sentence ++ [c_space]) rest
  end.

(** [chunk_text(text, chunk_size)]; [text] is a string or [None]. *)
Definition chunk_text (text : option str) (chunk_size : Z) : list str :=
  match text with
  | None => []
  | Some t =>
      if negb (nonempty t) then []
      else chunk_loop chunk_size [] (split_sentences t)
  end.

(** The sentences the loop keeps: stripped and not empty. *)
Definition sentences_of (pieces : list str) : list str :=
  filter nonempty (List.map strip pieces).

End Chunker.
Import Chunker.

(* ================================================================== *)
(** * Python values, exceptions and the service's world *)
(* ================================================================== *)

Module Py.

Fixpoint str_eqb (a b : str) : bool :=
  match a, b with
  | [], [] => true
  | x :: a', y :: b' => (x =? y)%N && str_eqb a' b'
  | _, _ => false
  end.

(** The values a JSON body decodes to (numbers restricted to [int]). *)
Inductive value : Type :=
| VNone
| VBool (b : bool)
| VInt (z : Z)
| VStr (s : str)
| VList (l : list value)
| VDict (d : list (str * value)).

Definition dict := list (str * value).

(** [bool(v)] *)
Definition truthy (v : value) : bool :=
  match v with
  | VNone => false
  | VBool b => b
  | VInt z => negb (z =? 0)%Z
  | VStr s => nonempty s
  | VList l => match l with [] => false | _ => true end
  | VDict d => match d with [] => false | _ => true end
  end.

Definition type_name (v : value) : str :=
  match v with
  | VNone => py "NoneType"
  | VBool _ => py "bool"
  | VInt _ => py "int"
  | VStr _ => py "str"
  | VList _ => py "list"
  | VDict _ => py "dict"
  end.

(** [d.get(k, default)] on the entries of a dict. *)
Fixpoint lookup (k : str) (default : value) (d : dict) : value :=
  match d with
  | [] => default
  | (k', v) :: d' => if str_eqb k k' then v else lookup k default d'
  end.

(** [d[k]] *)
Fixpoint getitem (k : str) (d : dict) : option value :=
  match d with
  | [] => None
  | (k', v) :: d' => if str_eqb k k' then Some v else getitem k d'
  end.

Definition remove (k : str) (d : dict) : dict :=
  filter (fun kv => negb (str_eqb k (fst kv))) d.

(** An exception, as the message [str(e)] it carries. *)
Definition exn := str.

Inductive result (A : Type) : Type :=
| Ok (a : A)
| Raise (e : exn).
Arguments Ok {A} a.
Arguments Raise {A} e.

Definition attribute_error (v : value) (attr : string) : exn :=
  py "'" ++ type_name v ++ py "' object has no attribute '" ++ py attr
     ++ py "'".

Definition key_error (k : str) : exn := py "'" ++ k ++ py "'".

(** A computation over a state [S] that returns or raises; the state
    reached when the exception is raised is kept. *)
Definition M (S A : Type) : Type := S -> S * result A.

Definition ret {S A} (a : A) : M S A := fun s => (s, Ok a).

Definition raise {S A} (e : exn) : M S A := fun s => (s, Raise e).

Definition bind {S A B} (m : M S A) (k : A -> M S B) : M S B :=
  fun s =>
    match m s with
    | (s', Ok a) => k a s'
    | (s', Raise e) => (s', Raise e)
    end.

(** [try: body  except Exception as e: handler(e)] *)
Definition try_except {S A} (body : M S A) (handler : exn -> M S A)
  : M S A :=
  fun s =>
    match body s with
    | (s', Ok a) => (s', Ok a)
    | (s', Raise e) => handler e s'
    end.

Definition of_result {S A} (r : result A) : M S A := fun s => (s, r).

(** The standard output is taken to encode UTF-8, as the emoji that the
    source prints require: [print] can write every code point but a
    surrogate, on which it raises [UnicodeEncodeError]. *)
Definition is_surrogate (c : char) : bool :=
  ((55296 <=? c) && (c <=? 57343))%N.

Definition printable (s : str) : bool := negb (existsb is_surrogate s).

(** [print(f"...{v}")]: a string is written as it is; any other value
    is written as its [repr], which escapes what cannot be printed. *)
Definition printable_value (v : value) : bool :=
  match v with
  | VStr s => printable s
  | _ => true
  end.

End Py.
Import Py.

Declare Scope py_scope.
Delimit Scope py_scope with py.
Notation "x <- m ;; k" := (bind m (fun x => k))
  (at level 61, m at next level, right associativity) : py_scope.
Notation "m ;;; k" := (bind m (fun _ => k))
  (at level 61, right associativity) : py_scope.
Open Scope py_scope.

Module World.

Section Floats.

(** Floating-point numbers are opaque: embeddings and similarity scores
    are only passed around. *)
Variable float : Type.

(** [qdrant_client.models]: [FieldCondition(key, match=MatchValue(value))],
    [Filter(must=...)], a scored point and [PointStruct]. *)
Record FieldCondition : Type :=
  { fc_key : str; fc_match : value }.

Record Filter : Type := { must : list FieldCondition }.

Record ScoredPoint : Type :=
  { payload : option dict; score : float }.

Record PointStruct : Type :=
  { ps_id : str; ps_vector : list float; ps_payload : dict }.

(** The calls that leave the process or reach a collaborator outside the
    modelled files. *)
Inductive call : Type :=
| CallRAGChatbot
| CallEncode (texts : list str)
| CallProcessQuery (query : value)
| CallGenerateEmbedding (text : value)
| CallQueryPoints (collection_name : str) (query : list float)
                  (limit : Z) (query_filter : option Filter)
| CallUuid4
| CallUpsert (collection_name : str) (points : list PointStruct)
| CallBotQuery (query_text user_id session_id : value).

(** The module globals of [chatbot_service_sse.py] and the calls made so
    far, oldest first. *)
Record world : Type :=
  { chatbot_set : bool;       (* [chatbot is not None] *)
    is_warmed_up : bool;
    calls : list call }.

(** Process start: [chatbot = None], [is_warmed_up = False]. *)
Definition process_start : world :=
  {| chatbot_set := false; is_warmed_up := false; calls := [] |}.

(** What the collaborators answer, as a function of the calls made
    before and of the arguments. *)
Record env : Type :=
  { new_RAGChatbot : list call -> result unit;
    embedder_encode : list call -> list str -> result unit;
    process_query : list call -> value -> result dict;
    generate_embedding : list call -> value -> result (list float);
    query_points : list call -> str -> list float -> Z -> option Filter
                   -> result (list ScoredPoint);
    uuid4 : list call -> str;
    upsert : list call -> str -> list PointStruct -> result unit;
    bot_query : list call -> value -> value -> value
                -> result (option str) }.

(** Making a call: it is recorded, and it returns or raises as the
    collaborator decides. *)
Definition add_calls (w : world) (new : list call) : world :=
  {| chatbot_set := chatbot_set w;
     is_warmed_up := is_warmed_up w;
     calls := calls w ++ new |}.

Definition perform {A} (c : call) (answer : list call -> result A)
  : M world A :=
  fun w => (add_calls w [c], answer (calls w)).

Definition is_encode (c : call) : bool :=
  match c with CallEncode _ => true | _ => false end.

Definition is_embedding (c : call) : bool :=
  match c with CallGenerateEmbedding _ => true | _ => false end.

Definition is_search (c : call) : bool :=
  match c with CallQueryPoints _ _ _ _ => true | _ => false end.

Definition is_bot_query (c : call) : bool :=
  match c with CallBotQuery _ _ _ => true | _ => false end.

(** How many of the calls satisfy [p]. *)
Definition count (p : call -> bool) (cs : list call) : nat :=
  List.length (filter p cs).

Definition read {A} (f : world -> A) : M world A :=
  fun w => (w, Ok (f w)).

Definition set_chatbot : M world unit :=
  fun w =>
    ({| chatbot_set := true;
        is_warmed_up := is_warmed_up w;
        calls := calls w |}, Ok tt).

Definition set_warmed_up : M world unit :=
  fun w =>
    ({| chatbot_set := chatbot_set w;
        is_warmed_up := true;
        calls := calls w |}, Ok tt).

End Floats.

Arguments CallRAGChatbot {float}.
Arguments CallEncode {float} texts.
Arguments CallProcessQuery {float} query.
Arguments CallGenerateEmbedding {float} text.
Arguments CallUuid4 {float}.
Arguments CallBotQuery {float} query_text user_id session_id.
Arguments process_start {float}.
Arguments set_chatbot {float}.
Arguments set_warmed_up {float}.

End World.
Import World.

(* ================================================================== *)
(** * [retrieval/retriever.py] *)
(* ================================================================== *)

Module Retriever.

(** The attributes of a [Retriever] that its methods read. *)
Record t : Type :=
  { url : str;
    api_key : option str;
    collection_name : str;
    top_k : Z }.

(** The names that [__init__] binds on the instance, and the methods of
    the class: a [Retriever] has no other attribute, besides the special
    ones of every object. *)
Definition attributes : list string :=
  [ "url"; "api_key"; "collection_name"; "top_k"; "client";
    "embedding_generator"; "query_processor"; "__init__";
    "_initialize_client"; "retrieve"; "format_retrieved_context";
    "ingest_qa_pair" ]%string.

Definition has_attribute (name : string) : bool :=
  existsb (String.eqb name) attributes.

(** The text of the [AttributeError] of a failed lookup. *)
Definition no_attribute (name : string) : exn :=
  py "'Retriever' object has no attribute '" ++ py name ++ py "'".

(** An entry of the list [retrieve] returns. *)
Record doc (float : Type) : Type :=
  { content : value;
    metadata : dict;
    similarity_score : float }.

(** [MatchValue(value=...)] validates its field, which
    [qdrant_client.models] declares as a strict bool, int or str: these
    pass, and [None], a list or a dict raises [ValidationError]. Only
    the first line of the error's text is kept. *)
Definition accepted (v : value) : bool :=
  match v with
  | VBool _ | VInt _ | VStr _ => true
  | VNone | VList _ | VDict _ => false
  end.

Definition validation_error : exn := py "1 validation error for MatchValue".

Definition match_value (v : value) : result value :=
  if accepted v then Ok v else Raise validation_error.

(** What [print] raises on a text it cannot encode. [retrieve] only
    prints this error, so its text, which names the character and its
    position, is cut short. *)
Definition encode_error : exn := py "surrogates not allowed".

Section Methods.

Variable float : Type.
Variable E : env float.

Definition subscript (d : dict) (k : string) : M (world float) value :=
  match getitem (py k) d with
  | Some v => ret v
  | None => raise (key_error (py k))
  end.

(** [print(f"Original query: {query}")]. Texts that come from the
    arguments are checked; what a collaborator returns or raises is
    taken to be printable. *)
Definition print_value (v : value) : M (world float) unit :=
  if printable_value v then ret tt else raise encode_error.

(** The loop over [filter_by.items()]: it stops at the first value that
    [MatchValue] refuses. *)
Fixpoint conditions_of (items : dict) : result (list FieldCondition) :=
  match items with
  | [] => Ok []
  | (key, value) :: rest =>
      match match_value value with
      | Raise e => Raise e
      | Ok m =>
          match conditions_of rest with
          | Raise e => Raise e
          | Ok conditions =>
              Ok ({| fc_key := key; fc_match := m |} :: conditions)
          end
      end
  end.

(** [query_filter]: [None] unless [filter_by] is truthy. *)
Definition build_filter (filter_by : option dict)
  : result (option Filter) :=
  match filter_by with
  | None => Ok None
  | Some [] => Ok None
  | Some d =>
      match conditions_of d with
      | Raise e => Raise e
      | Ok conditions => Ok (Some {| must := conditions |})
      end
  end.

(** The body of the loop over [search_results]:
    [content = payload.pop('content', '')], the rest is metadata. *)
Definition format_result (r : ScoredPoint float)
  : M (world float) (doc float) :=
  match payload r with
  | None => raise (attribute_error VNone "pop")
  | Some p =>
      ret {| content := lookup (py "content") (VStr []) p;
             metadata := remove (py "content") p;
             similarity_score := score r |}
  end.

Fixpoint format_results (rs : list (ScoredPoint float))
  : M (world float) (list (doc float)) :=
  match rs with
  | [] => ret []
  | r :: rs' =>
      d <- format_result r ;;
      ds <- format_results rs' ;;
      ret (d :: ds)
  end.

(** [Retriever.retrieve(self, query, top_k=None, filter_by=None)] *)
Definition retrieve (self : t) (query : value) (top_k_arg : option Z)
           (filter_by : option dict) : M (world float) (list (doc float)) :=
  if negb (truthy query) then ret []
  else
    let k := match top_k_arg with Some k => k | None => top_k self end in
    try_except
      (processed <- perform (CallProcessQuery query)
                            (fun h => process_query E h query) ;;
       normalized_query <- subscript processed "normalized" ;;
       keyword_query <- subscript processed "keyword_query" ;;
       print_value query ;;;
       let search_query :=
         if truthy keyword_query then keyword_query else normalized_query in
       query_embedding <-
         perform (CallGenerateEmbedding search_query)
                 (fun h => generate_embedding E h search_query) ;;
       query_filter <- of_result (build_filter filter_by) ;;
       search_results <-
         perform (CallQueryPoints (collection_name self) query_embedding k
                                  query_filter)
                 (fun h => query_points E h (collection_name self)
                                        query_embedding k query_filter) ;;
       format_results search_results)
      (fun _ => ret []).

(** The f-string [f"Question: {question}\n\nAnswer: {answer}"]. *)
Definition qa_content (question answer : str) : str :=
  py "Question: " ++ question ++ [10%N; 10%N] ++ py "Answer: " ++ answer.

Definition qa_metadata (question answer : str) : dict :=
  [ (py "document_type", VStr (py "Generated Q&A"));
    (py "company", VStr (py "General Knowledge"));
    (py "source", VStr (py "Gemini LLM"));
    (py "question", VStr question);
    (py "answer", VStr answer) ].

(** The truth value of a question or answer that may be [None]. *)
Definition present (s : option str) : bool :=
  match s with Some s => nonempty s | None => false end.

(** [Retriever.ingest_qa_pair(self, question, answer)] *)
Definition ingest_qa_pair (self : t) (question answer : option str)
  : M (world float) bool :=
  match question, answer with
  | Some q, Some a =>
      if negb (nonempty q) || negb (nonempty a) then ret false
      else
        try_except
          (let content := qa_content q a in
           embedding <-
             perform (CallGenerateEmbedding (VStr q))
                     (fun h => generate_embedding E h (VStr q)) ;;
           let metadata := qa_metadata q a in
           id <- perform CallUuid4 (fun h => Ok (uuid4 E h)) ;;
           let point :=
             {| ps_id := id;
                ps_vector := embedding;
                ps_payload := (py "content", VStr content) :: metadata |} in
           perform (CallUpsert (collection_name self) [point])
                   (fun h => upsert E h (collection_name self) [point]) ;;;
           ret true)
          (fun _ => ret false)
  | _, _ => ret false
  end.

End Methods.

End Retriever.

(* ================================================================== *)
(** * [routing/route_rules.py] *)
(* ================================================================== *)

Module RouteRules.

(** Modelled from the spec: the class constants of [IntentRouter]
    ([routing/intent_router.py] is not among the sources); the names are
    those of the specification's Intent enumeration, which are also the
    values of the [INTENT_*] constants of [config/settings.py]. *)
Definition COMPANY_INTERNSHIP : str := py "COMPANY_INTERNSHIP".
Definition EDUCATION_CODING : str := py "EDUCATION_CODING".
Definition INTERVIEW_PREPARATION : str := py "INTERVIEW_PREPARATION".
Definition GENERAL_EDUCATION : str := py "GENERAL_EDUCATION".

(** The two methods of [IntentRouter] that [RouteRules] calls. *)
Class IntentRouter : Type :=
  { classify_intent : str -> str;
    get_intent_info : str -> dict }.

(** [self.rag_intents] and [self.external_intents] of [__init__]. *)
Definition rag_intents : list str := [ COMPANY_INTERNSHIP ].

Definition external_intents : list str :=
  [ EDUCATION_CODING; INTERVIEW_PREPARATION; GENERAL_EDUCATION ].

(** [intent in l] *)
Definition contains (l : list str) (intent : str) : bool :=
  existsb (str_eqb intent) l.

Definition should_use_rag (intent : str) : bool :=
  contains rag_intents intent.

Definition should_use_external (intent : str) : bool :=
  contains external_intents intent.

(** The dictionary [route_query] returns. *)
Record routing : Type :=
  { intent : str;
    intent_name : value;
    use_rag : bool;
    use_external : bool;
    pipeline : str }.

Definition route_query {router : IntentRouter} (query : str) : routing :=
  let intent := classify_intent query in
  let use_rag := should_use_rag intent in
  let use_external := should_use_external intent in
  let intent_info := get_intent_info intent in
  {| intent := intent;
     intent_name := lookup (py "name") (VStr (py "Unknown")) intent_info;
     use_rag := use_rag;
     use_external := use_external;
     pipeline := if use_rag then py "RAG" else py "EXTERNAL" |}.

Definition get_pipeline_for_intent (intent : str) : str :=
  if should_use_rag intent then py "RAG"
  else if should_use_external intent then py "EXTERNAL"
  else py "UNKNOWN".

End RouteRules.

(* ================================================================== *)
(** * [chatbot_service_sse.py] *)
(* ================================================================== *)

Module Service.

(** The events of the stream; on the wire each is the line
    [data: <json>] followed by a blank line. *)
Inductive sse_event : Type :=
| EvStart
| EvChunk (content : str)
| EvDone
| EvError (error : str).

(** What [jsonify] is given by the [/query] handler. *)
Inductive body : Type :=
| ErrorBody (error : str)
| QueryBody (response : option str) (sessionId : value).

Record http_response : Type :=
  { status : Z; json : body }.

Definition is_start (e : sse_event) : bool :=
  match e with EvStart => true | _ => false end.

Definition is_chunk (e : sse_event) : bool :=
  match e with EvChunk _ => true | _ => false end.

Definition is_terminal (e : sse_event) : bool :=
  match e with EvDone | EvError _ => true | _ => false end.

Definition is_error (e : sse_event) : bool :=
  match e with EvError _ => true | _ => false end.

(** The contents of the chunk events, in order. *)
Fixpoint chunk_contents (es : list sse_event) : list str :=
  match es with
  | [] => []
  | EvChunk c :: es' => c :: chunk_contents es'
  | _ :: es' => chunk_contents es'
  end.

Section Handlers.

Variable float : Type.
Variable E : env float.

(** [bot.retriever] of the chatbot instance. *)
Variable bot_retriever : Retriever.t.

Definition dummy_text : str :=
  py "This is a warm-up query to load the embedding model".

(** [bot.retriever.<name>]: the lookup of an attribute on the
    [Retriever] of the chatbot. *)
Definition retriever_attribute (name : string) : M (world float) unit :=
  if Retriever.has_attribute name then ret tt
  else raise (Retriever.no_attribute name).

(** [pre_warm_pipeline(bot)]; in [bot.retriever.embedder.encode(...)]
    the attribute [embedder] is looked up before [encode] is called. *)
Definition pre_warm_pipeline : M (world float) unit :=
  warmed <- read (@is_warmed_up float) ;;
  if warmed then ret tt
  else
    try_except
      (retriever_attribute "embedder" ;;;
       perform (CallEncode [dummy_text])
               (fun h => embedder_encode E h [dummy_text]) ;;;
       Retriever.retrieve E bot_retriever (VStr dummy_text) None None ;;;
       set_warmed_up)
      (fun _ => ret tt).

(** [initialize_chatbot()] *)
Definition initialize_chatbot : M (world float) unit :=
  initialised <- read (@chatbot_set float) ;;
  if initialised then ret tt
  else
    perform CallRAGChatbot (new_RAGChatbot E) ;;;
    set_chatbot ;;;
    pre_warm_pipeline.

(** [bot.query(query_text, user_id, session_id)] *)
Definition query_bot (query_text user_id session_id : value)
  : M (world float) (option str) :=
  perform (CallBotQuery query_text user_id session_id)
          (fun h => bot_query E h query_text user_id session_id).

(** A generator: a computation that also appends to the events it has
    yielded so far. *)
Definition gen (A : Type) : Type := M (world float * list sse_event) A.

Definition yield_ (e : sse_event) : gen unit :=
  fun s => ((fst s, snd s ++ [e]), Ok tt).

Definition run {A} (m : M (world float) A) : gen A :=
  fun s => let (w', r) := m (fst s) in ((w', snd s), r).

(** [for chunk in chunks: yield <chunk event>; time.sleep(0.01)] *)
Fixpoint yield_chunks (chunks : list str) : gen unit :=
  match chunks with
  | [] => ret tt
  | c :: cs => yield_ (EvChunk c) ;;; yield_chunks cs
  end.

(** [generate_sse_response(query_text, user_id, session_id)] *)
Definition generate_sse_response (query_text user_id session_id : value)
  : gen unit :=
  try_except
    (run initialize_chatbot ;;;
     yield_ EvStart ;;;
     full_response <- run (query_bot query_text user_id session_id) ;;
     yield_chunks (chunk_text full_response 30) ;;;
     yield_ EvDone)
    (fun e => yield_ (EvError e)).

(** The events a generator yields when it is run to its end from [w],
    and the world it leaves. *)
Definition events_of (g : gen unit) (w : world float) : list sse_event :=
  snd (fst (g (w, []))).

Definition world_after (g : gen unit) (w : world float) : world float :=
  fst (fst (g (w, []))).

(** [data.get(k)] *)
Definition dict_get {S} (data : value) (k : string) : M S value :=
  match data with
  | VDict d => ret (lookup (py k) VNone d)
  | _ => raise (attribute_error data "get")
  end.

(** [v.strip()] *)
Definition str_strip {S} (v : value) : M S str :=
  match v with
  | VStr s => ret (strip s)
  | _ => raise (attribute_error v "strip")
  end.

(** [not query_text or not query_text.strip()] *)
Definition query_is_blank {S} (query_text : value) : M S bool :=
  if negb (truthy query_text) then ret true
  else s <- str_strip query_text ;; ret (negb (nonempty s)).

(** The [/query] handler; [request_json] is what [request.json] gives,
    the decoded body or the exception of a body that does not decode. *)
Definition query (request_json : result value)
  : M (world float) http_response :=
  try_except
    (data <- of_result request_json ;;
     user_id <- dict_get data "user_id" ;;
     session_id <- dict_get data "session_id" ;;
     query_text <- dict_get data "query" ;;
     if negb (truthy user_id) || negb (truthy session_id)
     then ret {| status := 400;
                 json := ErrorBody (py "user_id and session_id are required") |}
     else
       blank <- query_is_blank query_text ;;
       if (blank : bool)
       then ret {| status := 400;
                   json := ErrorBody (py "query is required") |}
       else
         initialize_chatbot ;;;
         response <- query_bot query_text user_id session_id ;;
         ret {| status := 200; json := QueryBody response session_id |})
    (fun e => ret {| status := 500; json := ErrorBody e |}).

(** The [/health] handler: [(chatbot_initialized, pipeline_warmed)]. *)
Definition health : M (world float) (bool * bool) :=
  read (fun w => (chatbot_set w, is_warmed_up w)).

End Handlers.

End Service.

(* ================================================================== *)
(** * Sample collaborators *)
(* ================================================================== *)

Module Samples.

(** Collaborators that answer the same way at every call; each flag
    says whether the collaborator returns ([true]) or raises. Floats
    are not inspected, so [unit] stands for them. *)
Definition failure : exn := py "boom".

Definition answer_if {A} (ok : bool) (a : A) : result A :=
  if ok then Ok a else Raise failure.

Definition sample_env (construct_ok encode_ok embed_ok search_ok
                       upsert_ok : bool)
           (hits : list (ScoredPoint unit))
           (answer : result (option str)) : env unit :=
  {| new_RAGChatbot := fun _ => answer_if construct_ok tt;
     embedder_encode := fun _ _ => answer_if encode_ok tt;
     process_query := fun _ q =>
       Ok [ (py "normalized", q); (py "keyword_query", q) ];
     generate_embedding := fun _ _ => answer_if embed_ok [tt; tt];
     query_points := fun _ _ _ _ _ => answer_if search_ok hits;
     uuid4 := fun _ => py "3f2b8c1e-0000-4000-8000-000000000001";
     upsert := fun _ _ _ => answer_if upsert_ok tt;
     bot_query := fun _ _ _ _ => answer |}.

Definition sample_retriever : Retriever.t :=
  {| Retriever.url := py "http://localhost:6333";
     Retriever.api_key := None;
     Retriever.collection_name := py "internship_education_db";
     Retriever.top_k := 5 |}.

Definition sample_hit : ScoredPoint unit :=
  {| payload := Some [ (py "content", VStr (py "Acme hires interns."));
                       (py "company", VStr (py "Acme")) ];
     score := tt |}.

(** An intent router whose classifier answers the fallback intent of the
    specification for every query. *)
Definition fallback_router : RouteRules.IntentRouter :=
  {| RouteRules.classify_intent := fun _ => py "UNKNOWN";
     RouteRules.get_intent_info := fun _ => [] |}.

Definition u1 : value := VStr (py "u1").
Definition s1 : value := VStr (py "s1").

(** A JSON body with the three fields of a query request. *)
Definition request_body (user_id session_id query : value) : value :=
  VDict [ (py "user_id", user_id);
          (py "session_id", session_id);
          (py "query", query) ].

End Samples.

(* ================================================================== *)
(** * [Retriever.format_retrieved_context] *)
(* ================================================================== *)

Module Context.

(** [sep.join(l)] for any separator. *)
Fixpoint join_str (sep : str) (l : list str) : str :=
  match l with
  | [] => []
  | [s] => s
  | s :: l' => s ++ sep ++ join_str sep l'
  end.

Definition c_newline : char := 10%N.

(** The separator ["\n---\n"]. *)
Definition separator : str := c_newline :: py "---" ++ [c_newline].

Section Format.

Variable float : Type.

(** The builtin [str()], which the f-string applies to what it
    interpolates. *)
Variable str_of : value -> str.

(** The body of the loop: the f-string built for one document, as
    [retrieve] returns them (with its three keys). *)
Definition formatted_chunk (doc : Retriever.doc float) : str :=
  let metadata := Retriever.metadata doc in
  let content := Retriever.content doc in
  let company := lookup (py "company") (VStr (py "Unknown")) metadata in
  let doc_type :=
    lookup (py "document_type") (VStr (py "Unknown")) metadata in
  let source := lookup (py "source") (VStr (py "Unknown")) metadata in
  py "[Company]: " ++ str_of company ++ [c_newline]
     ++ py "[Document Type]: " ++ str_of doc_type ++ [c_newline]
     ++ py "[Source]: " ++ str_of source ++ [c_newline; c_newline]
     ++ py "Content:" ++ [c_newline]
     ++ str_of content ++ [c_newline].

(** [Retriever.format_retrieved_context(self, retrieved_docs)] *)
Definition format_retrieved_context
           (retrieved_docs : list (Retriever.doc float)) : str :=
  match retrieved_docs with
  | [] => []
  | _ => join_str separator (List.map formatted_chunk retrieved_docs)
  end.

End Format.

End Context.

(* ================================================================== *)
(** * The [/query-stream] and [/clear] handlers *)
(* ================================================================== *)

Module Endpoints.

(** What a handler returns: a JSON body with its status, or a streamed
    [Response] whose body is a generator that has not run yet. *)
Inductive flask_response (float : Type) : Type :=
| JsonResponse (r : Service.http_response)
| EventStream (mimetype : str) (headers : list (str * str))
              (body : Service.gen float unit).
Arguments JsonResponse {float} r.
Arguments EventStream {float} mimetype headers body.

(** What [jsonify] is given by the [/clear] handler. *)
Inductive clear_body : Type :=
| ClearError (error : str)
| ClearDone (success : bool) (message : str).

Record clear_response : Type :=
  { clear_status : Z; clear_json : clear_body }.

Definition sse_headers : list (str * str) :=
  [ (py "Cache-Control", py "no-cache");
    (py "X-Accel-Buffering", py "no");
    (py "Connection", py "keep-alive") ].

Section Handlers.

Variable float : Type.
Variable E : env float.
Variable bot_retriever : Retriever.t.

(** The [/query-stream] handler. *)
Definition query_stream (request_json : result value)
  : M (world float) (flask_response float) :=
  try_except
    (data <- of_result request_json ;;
     user_id <- Service.dict_get data "user_id" ;;
     session_id <- Service.dict_get data "session_id" ;;
     query_text <- Service.dict_get data "query" ;;
     if negb (truthy user_id) || negb (truthy session_id)
     then ret (JsonResponse
                 {| Service.status := 400;
                    Service.json :=
                      Service.ErrorBody
                        (py "user_id and session_id are required") |})
     else
       blank <- Service.query_is_blank query_text ;;
       if (blank : bool)
       then ret (JsonResponse
                   {| Service.status := 400;
                      Service.json :=
                        Service.ErrorBody (py "query is required") |})
       else
         ret (EventStream
                (py "text/event-stream") sse_headers
                (Service.generate_sse_response E bot_retriever
                   query_text user_id session_id)))
    (fun e => ret (JsonResponse {| Service.status := 500;
                                   Service.json := Service.ErrorBody e |})).

(** What the client of [/query-stream] receives once the server has run
    the body of the response to its end: the JSON answer, or the events
    of the stream; and the world that is left. *)
Definition serve_query_stream (request_json : result value)
           (w : world float)
  : world float * (Service.http_response + list Service.sse_event) :=
  match query_stream request_json w with
  | (w', Ok (JsonResponse r)) => (w', inl r)
  | (w', Ok (EventStream _ _ body)) =>
      (Service.world_after body w', inr (Service.events_of body w'))
  | (w', Raise e) =>
      (w', inl {| Service.status := 500;
                  Service.json := Service.ErrorBody e |})
  end.

(** [bot.clear_session(user_id, session_id)]: what it answers, given
    the calls and the sessions cleared before. *)
Variable bot_clear_session :
  list (call float) -> list (value * value) -> value -> value
  -> result unit.

(** The state of the [/clear] handler: the world and the sessions that
    have been cleared, oldest first. *)
Definition clearing (A : Type) : Type :=
  M (world float * list (value * value)) A.

Definition on_world {A} (m : M (world float) A) : clearing A :=
  fun s => let (w', r) := m (fst s) in ((w', snd s), r).

Definition clear_on_bot (user_id session_id : value) : clearing unit :=
  fun s =>
    ((fst s, snd s ++ [(user_id, session_id)]),
     bot_clear_session (calls (fst s)) (snd s) user_id session_id).

(** The [/clear] handler. *)
Definition clear_session (request_json : result value)
  : clearing clear_response :=
  try_except
    (data <- of_result request_json ;;
     user_id <- Service.dict_get data "user_id" ;;
     session_id <- Service.dict_get data "session_id" ;;
     if negb (truthy user_id) || negb (truthy session_id)
     then ret {| clear_status := 400;
                 clear_json :=
                   ClearError (py "user_id and session_id are required") |}
     else
       on_world (Service.initialize_chatbot E bot_retriever) ;;;
       clear_on_bot user_id session_id ;;;
       ret {| clear_status := 200;
              clear_json := ClearDone true (py "Session cleared") |})
    (fun e => ret {| clear_status := 500; clear_json := ClearError e |}).

End Handlers.

End Endpoints.

(* ================================================================== *)
(** * [resume/simple_enhancer.py] *)
(* ================================================================== *)

Module Enhancer.

(** [s.startswith(p)] *)
Fixpoint starts_with (p s : str) : bool :=
  match p, s with
  | [], _ => true
  | a :: p', b :: s' => (a =? b)%N && starts_with p' s'
  | _ :: _, [] => false
  end.

(** [s.replace(old, new)] for a non-empty [old], scanning [s] from the
    left; [fuel] bounds the number of steps, and the length of [s] is
    enough. *)
Fixpoint replace_fuel (fuel : nat) (old new s : str) : str :=
  match fuel with
  | O => s
  | S fuel' =>
      match s with
      | [] => []
      | c :: s' =>
          if starts_with old s
          then new ++ replace_fuel fuel' old new (skipn (List.length old) s)
          else c :: replace_fuel fuel' old new s'
      end
  end.

(** [s.replace(old, new)]; with the empty [old], [new] is put before
    every character and at the end. *)
Definition replace (old new s : str) : str :=
  match old with
  | [] => new ++ List.concat (List.map (fun c => c :: new) s)
  | _ :: _ => replace_fuel (List.length s) old new s
  end.

Definition not_iterable (v : value) : exn :=
  py "'" ++ type_name v ++ py "' object is not iterable".

Definition not_subscriptable (v : value) : exn :=
  py "'" ++ type_name v ++ py "' object is not subscriptable".

Definition replace_type_error (position : string) (v : value) : exn :=
  py "replace() argument " ++ py position ++ py " must be str, not "
     ++ type_name v.

(** The decimal digits of a count, as an f-string prints it. *)
Definition decimal (n : nat) : str :=
  py (DecimalString.NilZero.string_of_uint (Nat.to_uint n)).

(** ["=" * 80] *)
Definition rule : str := repeat 61%N 80.

Definition nl : str := [10%N].

(** [d.get(k, default)], on any value. *)
Definition get_or {S} (d : value) (k : string) (default : value)
  : M S value :=
  match d with
  | VDict entries => ret (lookup (py k) default entries)
  | _ => raise (attribute_error d "get")
  end.

(** What a [for] loop over the value goes through. *)
Definition iterate {S} (v : value) : M S (list value) :=
  match v with
  | VList l => ret l
  | VStr s => ret (List.map (fun c => VStr [c]) s)
  | VDict d => ret (List.map (fun kv => VStr (fst kv)) d)
  | _ => raise (not_iterable v)
  end.

(** [text.replace(original, enhanced)] on values. *)
Definition str_replace {S} (text : str) (original enhanced : value)
  : M S str :=
  match original with
  | VStr o =>
      match enhanced with
      | VStr e => ret (replace o e text)
      | _ => raise (replace_type_error "2" enhanced)
      end
  | _ => raise (replace_type_error "1" original)
  end.

(** Step 2: the loop that applies the enhancements to the text. *)
Fixpoint apply_enhancements {S} (enhancement_list : list value)
         (enhanced_text : str) : M S str :=
  match enhancement_list with
  | [] => ret enhanced_text
  | enh :: rest =>
      original <- get_or enh "original" (VStr []) ;;
      enhanced <- get_or enh "enhanced" (VStr []) ;;
      if truthy original && truthy enhanced
      then
        enhanced_text' <- str_replace enhanced_text original enhanced ;;
        apply_enhancements rest enhanced_text'
      else apply_enhancements rest enhanced_text
  end.

(** What is done outside the process. *)
Inductive action : Type :=
| Analyze (resume_text : str) (evaluation : value) (json_path : str)
| WriteFile (path content : str)
| ApplyPdf (original_pdf_path : str) (enhancement_list : value)
           (output_pdf_path : str).

(** The path functions of [os.path], the builtin [str()], the text of
    the [UnicodeEncodeError] that [print] raises on a line with a path
    it cannot encode, and what the analyzer, the file system and the PDF
    applier answer given what was done before. *)
Record env : Type :=
  { dirname : str -> str;
    basename : str -> str;
    splitext_root : str -> str;
    path_join : str -> str -> str;
    str_of : value -> str;
    encode_error : str -> exn;
    analyze_and_generate_enhancements :
      list action -> str -> value -> str -> result value;
    write_file : list action -> str -> str -> result unit;
    apply_enhancements_to_pdf :
      list action -> str -> value -> str -> result value }.

Definition act {A} (a : action) (answer : list action -> result A)
  : M (list action) A :=
  fun done => (done ++ [a], answer done).

Section Enhance.

Variable E : env.

(** The lines written for the entries, numbered from [i]. *)
Fixpoint comparison_entries {St} (i : nat) (enhancement_list : list value)
  : M St str :=
  match enhancement_list with
  | [] => ret []
  | enh :: rest =>
      reason <- get_or enh "reason" (VStr (py "Enhancement")) ;;
      original <- get_or enh "original" (VStr []) ;;
      enhanced <- get_or enh "enhanced" (VStr []) ;;
      lines <- comparison_entries (S i) rest ;;
      ret (nl ++ decimal i ++ py ". " ++ str_of E reason ++ nl
              ++ py "   ORIGINAL: " ++ str_of E original ++ nl
              ++ py "   ENHANCED: " ++ str_of E enhanced ++ nl
              ++ lines)
  end.

(** Everything written to the comparison file. *)
Definition comparison_text (entries resume_text enhanced_text : str)
  : str :=
  rule ++ nl ++ py "RESUME ENHANCEMENTS" ++ nl ++ rule ++ nl ++ nl
    ++ entries
    ++ nl ++ nl ++ rule ++ nl ++ py "ORIGINAL RESUME" ++ nl
    ++ rule ++ nl ++ nl ++ resume_text
    ++ nl ++ nl ++ rule ++ nl ++ py "ENHANCED RESUME" ++ nl
    ++ rule ++ nl ++ nl ++ enhanced_text.

Definition failure_result (error : value) : value :=
  VDict [ (py "success", VBool false);
          (py "error", error);
          (py "enhancement_json_path", VNone) ].

(** [print(f"... {path}")] for a path, which is made from the
    arguments. What a collaborator returns or raises is taken to be
    printable, and so are the literals of the source. *)
Definition print_path {St} (path : str) : M St unit :=
  if printable path then ret tt else raise (encode_error E path).

(** Step 6: the inner [try] around the PDF applier; the path of the PDF
    is printed inside it. *)
Definition create_pdf (original_pdf_path : str) (enhancement_list : value)
           (output_pdf_path : str) : M (list action) bool :=
  try_except
    (pdf_result <-
       act (ApplyPdf original_pdf_path enhancement_list output_pdf_path)
           (fun done =>
              apply_enhancements_to_pdf E done original_pdf_path
                                        enhancement_list output_pdf_path) ;;
     ok <- get_or pdf_result "success" VNone ;;
     if truthy ok
     then print_path output_pdf_path ;;; ret true
     else ret false)
    (fun _ => ret false).

(** [SimpleResumeEnhancer.enhance_resume_text(self, original_pdf_path,
    resume_text, evaluation, output_dir)]. A file is written at once,
    or the write raises; importing the analyzer and the PDF applier is
    part of calling them. *)
Definition enhance_resume_text (original_pdf_path resume_text : str)
           (evaluation : value) (output_dir : option str)
  : M (list action) value :=
  try_except
    (let output_dir :=
       match output_dir with
       | Some d => if nonempty d then d else dirname E original_pdf_path
       | None => dirname E original_pdf_path
       end in
     let pdf_filename := basename E original_pdf_path in
     let base_name := splitext_root E pdf_filename in
     let enhancement_json_path :=
       path_join E output_dir (base_name ++ py "_Enhancements.json") in
     let evaluation := if truthy evaluation then evaluation else VDict [] in
     result <-
       act (Analyze resume_text evaluation enhancement_json_path)
           (fun done =>
              analyze_and_generate_enhancements E done resume_text
                                                evaluation
                                                enhancement_json_path) ;;
     success <- get_or result "success" VNone ;;
     if negb (truthy success)
     then
       error <- get_or result "error" VNone ;;
       ret (failure_result error)
     else
       enhancements <-
         match result with
         | VDict d =>
             match getitem (py "enhancements") d with
             | Some v => ret v
             | None => raise (key_error (py "enhancements"))
             end
         | _ => raise (not_subscriptable result)
         end ;;
       enhancement_list <- get_or enhancements "enhancements" (VList []) ;;
       entries <- iterate enhancement_list ;;
       enhanced_text <- apply_enhancements entries resume_text ;;
       let enhanced_text_path :=
         path_join E output_dir (base_name ++ py "_Enhanced.txt") in
       act (WriteFile enhanced_text_path enhanced_text)
           (fun done => write_file E done enhanced_text_path enhanced_text) ;;;
       print_path enhanced_text_path ;;;
       let original_text_path :=
         path_join E output_dir (base_name ++ py "_Original.txt") in
       act (WriteFile original_text_path resume_text)
           (fun done => write_file E done original_text_path resume_text) ;;;
       print_path original_text_path ;;;
       let comparison_path :=
         path_join E output_dir (base_name ++ py "_Comparison.txt") in
       lines <- comparison_entries 1 entries ;;
       let comparison := comparison_text lines resume_text enhanced_text in
       act (WriteFile comparison_path comparison)
           (fun done => write_file E done comparison_path comparison) ;;;
       print_path comparison_path ;;;
       let output_pdf_path :=
         path_join E output_dir (base_name ++ py "_Enhanced.pdf") in
       pdf_success <-
         create_pdf original_pdf_path enhancement_list output_pdf_path ;;
       let count := decimal (List.length entries) in
       ret (VDict
              [ (py "success", VBool true);
                (py "enhancement_json_path", VStr enhancement_json_path);
                (py "enhanced_text_path", VStr enhanced_text_path);
                (py "original_text_path", VStr original_text_path);
                (py "comparison_path", VStr comparison_path);
                (py "enhanced_pdf_path",
                 if (pdf_success : bool) then VStr output_pdf_path
                 else VNone);
                (py "enhancements_count",
                 VInt (Z.of_nat (List.length entries)));
                (py "message",
                 VStr (py "Generated " ++ count
                          ++ py " enhancements successfully!")) ]))
    (fun e => ret (failure_result (VStr e))).

(** [enhance_resume_simple(pdf_path, resume_text, evaluation)] *)
Definition enhance_resume_simple (pdf_path resume_text : str)
           (evaluation : value) : M (list action) value :=
  enhance_resume_text pdf_path resume_text evaluation None.

End Enhance.

End Enhancer.

(* ================================================================== *)
(** * More sample data *)
(* ================================================================== *)

Module Fixtures.

(** [str()] on the values whose rendering is modelled: strings, [None],
    booleans and integers; the [repr] of containers is not modelled and
    is rendered as an ellipsis. *)
Definition sample_str_of (v : value) : str :=
  match v with
  | VStr s => s
  | VNone => py "None"
  | VBool true => py "True"
  | VBool false => py "False"
  | VInt z => py (DecimalString.NilZero.string_of_int (Z.to_int z))
  | VList _ => py "[...]"
  | VDict _ => py "{...}"
  end.

Definition acme_doc : Retriever.doc unit :=
  {| Retriever.content := VStr (py "Acme hires interns.");
     Retriever.metadata := [ (py "company", VStr (py "Acme")) ];
     Retriever.similarity_score := tt |}.

Definition faq_doc : Retriever.doc unit :=
  {| Retriever.content := VStr (py "Apply by May.");
     Retriever.metadata := [ (py "document_type", VStr (py "FAQ")) ];
     Retriever.similarity_score := tt |}.

(** A hit without payload. *)
Definition bare_hit : ScoredPoint unit :=
  {| payload := None; score := tt |}.

(** [bot.clear_session] that returns, and one that raises. *)
Definition clear_ok
  : list (call unit) -> list (value * value) -> value -> value
    -> result unit :=
  fun _ _ _ _ => Ok tt.

Definition clear_fails
  : list (call unit) -> list (value * value) -> value -> value
    -> result unit :=
  fun _ _ _ _ => Raise Samples.failure.

(** Path functions that are right on paths of the shape
    [dir/name.ext], and collaborators of the enhancer that answer the
    same way at every call. *)
Fixpoint before_last (c : char) (s : str) : str :=
  match s with
  | [] => []
  | x :: s' => if mem c s' then x :: before_last c s' else []
  end.

Fixpoint after_last (c : char) (s : str) : str :=
  match s with
  | [] => []
  | x :: s' =>
      if mem c s' then after_last c s'
      else if (x =? c)%N then s' else x :: s'
  end.

Definition sample_enhancer_env (analysis : result value)
           (write_ok : bool) (pdf : result value) : Enhancer.env :=
  {| Enhancer.dirname := before_last 47%N;
     Enhancer.basename := after_last 47%N;
     Enhancer.splitext_root :=
       fun s => if mem 46%N s then before_last 46%N s else s;
     Enhancer.path_join := fun a b => a ++ 47%N :: b;
     Enhancer.str_of := sample_str_of;
     Enhancer.encode_error := fun _ => py "surrogates not allowed";
     Enhancer.analyze_and_generate_enhancements := fun _ _ _ _ => analysis;
     Enhancer.write_file :=
       fun _ _ _ => Samples.answer_if write_ok tt;
     Enhancer.apply_enhancements_to_pdf := fun _ _ _ _ => pdf |}.

(** An analysis with one enhancement, and one that reports failure. *)
Definition sample_analysis : value :=
  VDict
    [ (py "success", VBool true);
      (py "enhancements",
       VDict
         [ (py "enhancements",
            VList
              [ VDict [ (py "original", VStr (py "did stuff"));
                        (py "enhanced", VStr (py "led a team"));
                        (py "reason", VStr (py "Stronger verb")) ] ]) ]) ].

Definition failed_analysis : value :=
  VDict [ (py "success", VBool false);
          (py "error", VStr (py "quota exceeded")) ].

End Fixtures.

(* ================================================================== *)
(** * Predicates used in the statements *)
(* ================================================================== *)

Unset Implicit Arguments.

(** A string that [strip] leaves alone and that is not empty. *)
Definition tight (x : str) : Prop :=
  lstrip x = x /\ rstrip x = x /\ x <> [].

(** The loop invariant of [chunk_text] on [current_chunk]: empty, or
    whole sentences separated by single spaces and one space after. *)
Definition packed (current_chunk : str) : Prop :=
  current_chunk = [] \/
  exists x, tight x /\ current_chunk = x ++ [c_space].

(** Undoing the boundary marks: a [|] read as a space. *)
Definition unpipe (c : char) : char :=
  if (c =? c_pipe)%N then c_space else c.

(** Every sentence followed by one space, as [current_chunk] grows. *)
Definition spaced (sentences : list str) : str :=
  List.concat (List.map (fun s => s ++ [c_space]) sentences).

(** The chunks yielded for consecutive groups of sentences: every group
    but the last keeps the space after its last sentence. *)
Fixpoint render (groups : list (list str)) : list str :=
  match groups with
  | [] => []
  | [g] => [join c_space g]
  | g :: gs => spaced g :: render gs
  end.

(** A group respects the budget, or is one sentence. *)
Definition fits (B : Z) (g : list str) : Prop :=
  (len (join c_space g) <= B)%Z \/ exists s, g = [s].

(** A group is closed only when the next sentence would not fit. *)
Fixpoint greedy (B : Z) (groups : list (list str)) : Prop :=
  match groups with
  | [] => True
  | g :: rest =>
      match rest with
      | (s :: _) :: _ => (len (spaced g) + len s > B)%Z
      | _ => True
      end /\ greedy B rest
  end.

(** The last character of a piece is [.], [!] or [?]. *)
Definition is_terminator (c : char) : bool :=
  ((c =? c_dot) || (c =? c_bang) || (c =? c_qmark))%N.

Definition ends_sentence (piece : str) : Prop :=
  exists r c, piece = r ++ [c] /\ is_terminator c = true.

(** Every [|] of [u] comes right after a [.], [!] or [?]; [prev] is the
    character before [u]. *)
Fixpoint marked_from (prev : char) (u : str) : bool :=
  match u with
  | [] => true
  | c :: u' =>
      (if (c =? c_pipe)%N then is_terminator prev else true)
      && marked_from c u'
  end.

(** The character [o] followed by a space occurs in [u]; [prev] is the
    character before [u]. *)
Fixpoint pair_from (o prev : char) (u : str) : bool :=
  match u with
  | [] => false
  | c :: u' => ((prev =? o) && (c =? c_space))%N || pair_from o c u'
  end.

(** A sentence boundary, that is a [.], [!] or [?] followed by a space,
    occurs in [u]; [prev] is the character before [u]. *)
Fixpoint boundary_from (prev : char) (u : str) : bool :=
  match u with
  | [] => false
  | c :: u' =>
      (is_terminator prev && (c =? c_space)%N) || boundary_from c u'
  end.

Definition has_boundary (s : str) : bool :=
  match s with
  | [] => false
  | c :: s' => boundary_from c s'
  end.

(** The documents [retrieve] returns for the hits of a search: the
    formatted hits, or nothing when formatting one of them raises. *)
Definition formatted {float : Type} (hits : list (ScoredPoint float))
  : list (Retriever.doc float) :=
  match snd (Retriever.format_results hits process_start) with
  | Ok docs => docs
  | Raise _ => []
  end.

(** A computation that never resets the warm flag. *)
Definition keeps_warm {float A : Type} (m : M (world float) A) : Prop :=
  forall w, is_warmed_up w = true -> is_warmed_up (fst (m w)) = true.

(** The three error responses of the [/query] handler. *)
Definition ids_required : Service.http_response :=
  {| Service.status := 400;
     Service.json :=
       Service.ErrorBody (py "user_id and session_id are required") |}.

Definition query_required : Service.http_response :=
  {| Service.status := 400;
     Service.json := Service.ErrorBody (py "query is required") |}.

Definition internal_error (e : exn) : Service.http_response :=
  {| Service.status := 500; Service.json := Service.ErrorBody e |}.

(** [a in b] for strings: [a] occurs in [b]. *)
Definition occurs_in (a b : str) : Prop :=
  exists pre post, b = pre ++ a ++ post.

(** The document [retrieve] builds from the payload and the score of a
    hit. *)
Definition doc_of_hit {float : Type} (p : dict) (sc : float)
  : Retriever.doc float :=
  {| Retriever.content := lookup (py "content") (VStr []) p;
     Retriever.metadata := remove (py "content") p;
     Retriever.similarity_score := sc |}.

(** The calls of [retrieve], when none of them raises and the filter
    [query_filter] could be built. *)
Definition retrieve_calls {float : Type} (self : Retriever.t)
           (query search_query : value) (v : list float)
           (top_k_arg : option Z) (query_filter : option Filter)
  : list (call float) :=
  [ CallProcessQuery query;
    CallGenerateEmbedding search_query;
    CallQueryPoints (Retriever.collection_name self) v
      (match top_k_arg with
       | Some k => k
       | None => Retriever.top_k self
       end)
      query_filter ].

(** The documents of a list of hits, when every hit has a payload. *)
Fixpoint docs_of_hits {float : Type} (hits : list (ScoredPoint float))
  : option (list (Retriever.doc float)) :=
  match hits with
  | [] => Some []
  | h :: hs =>
      match payload h, docs_of_hits hs with
      | Some p, Some ds => Some (doc_of_hit p (score h) :: ds)
      | _, _ => None
      end
  end.

(** The collaborators of [retrieve] take it to the vector search, which
    returns [hits]: the query is truthy, the query processor and the
    embedding generator return, and the filter can be built. *)
Definition search_returns {float : Type} (E : env float)
           (self : Retriever.t) (query : value) (top_k_arg : option Z)
           (filter_by : option dict) (w : world float)
           (hits : list (ScoredPoint float)) : Prop :=
  truthy query = true
  /\ exists processed n kq v query_filter,
       process_query E (calls w) query = Ok processed
       /\ getitem (py "normalized") processed = Some n
       /\ getitem (py "keyword_query") processed = Some kq
       /\ generate_embedding E (calls w ++ [CallProcessQuery query])
                             (if truthy kq then kq else n) = Ok v
       /\ Retriever.build_filter filter_by = Ok query_filter
       /\ query_points E
            ((calls w ++ [CallProcessQuery query])
               ++ [CallGenerateEmbedding (if truthy kq then kq else n)])
            (Retriever.collection_name self) v
            (match top_k_arg with
             | Some k => k
             | None => Retriever.top_k self
             end)
            query_filter = Ok hits.

(** An entry that cannot change [text]: a dict whose original or
    enhanced text is missing or empty, or whose original does not occur
    in [text], or whose enhanced text is its original. *)
Definition idle_entry (text : str) (enh : value) : Prop :=
  exists d,
    enh = VDict d
    /\ let original := lookup (py "original") (VStr []) d in
       let enhanced := lookup (py "enhanced") (VStr []) d in
       truthy original = false
       \/ truthy enhanced = false
       \/ exists o e,
            original = VStr o /\ enhanced = VStr e
            /\ (~ occurs_in o text \/ o = e).

(** [r.get(k)] on the dictionary a function returns. *)
Definition field (k : string) (r : value) : value :=
  match r with
  | VDict d => lookup (py k) VNone d
  | _ => VNone
  end.

(** An analysis the enhancer can use: a dict with a truthy [success]
    that holds, under [enhancements], a dict whose [enhancements] (the
    empty list when the key is absent) is [enhancement_list], which a
    [for] loop goes through as [entries]. *)
Definition usable_analysis (result enhancement_list : value)
           (entries : list value) : Prop :=
  exists d d2,
    result = VDict d
    /\ truthy (lookup (py "success") VNone d) = true
    /\ getitem (py "enhancements") d = Some (VDict d2)
    /\ enhancement_list = lookup (py "enhancements") (VList []) d2
    /\ snd (Enhancer.iterate enhancement_list tt) = Ok entries.

(** The lines of the comparison file for the entries. *)
Definition lines_of (E : Enhancer.env) (entries : list value) : str :=
  match snd (Enhancer.comparison_entries E 1 entries tt) with
  | Ok lines => lines
  | Raise _ => []
  end.

(** Whether the PDF applier made the PDF: it returns a dict with a
    truthy [success]. *)
Definition pdf_made (E : Enhancer.env) (done : list Enhancer.action)
           (original_pdf_path : str) (enhancement_list : value)
           (output_pdf_path : str) : bool :=
  match Enhancer.apply_enhancements_to_pdf E done original_pdf_path
                                           enhancement_list output_pdf_path
  with
  | Ok (VDict d) => truthy (lookup (py "success") VNone d)
  | _ => false
  end.

(** The dictionary of an enhancement that went through. *)
Definition success_result (json_path enhanced_path original_path
                           comparison_path : str) (pdf_path : value)
           (count : nat) : value :=
  VDict [ (py "success", VBool true);
          (py "enhancement_json_path", VStr json_path);
          (py "enhanced_text_path", VStr enhanced_path);
          (py "original_text_path", VStr original_path);
          (py "comparison_path", VStr comparison_path);
          (py "enhanced_pdf_path", pdf_path);
          (py "enhancements_count", VInt (Z.of_nat count));
          (py "message",
           VStr (py "Generated " ++ Enhancer.decimal count
                    ++ py " enhancements successfully!")) ].

(* ================================================================== *)
(** * Facts about strings *)
(* ================================================================== *)

Section StrFacts.

Lemma str_eqb_eq (a b : str) : str_eqb a b = true <-> a = b.
Proof.
  revert b; induction a as [|x a IH]; intros [|y b]; simpl;
    try (split; [discriminate | discriminate]); try tauto.
  rewrite andb_true_iff, N.eqb_eq, IH.
  split; [intros [-> ->]; reflexivity | intros [= -> ->]; auto].
Qed.

Lemma str_eqb_refl (a : str) : str_eqb a a = true.
Proof. apply str_eqb_eq; reflexivity. Qed.

Lemma nonempty_false (s : str) : nonempty s = false <-> s = [].
Proof. destruct s; simpl; split; congruence. Qed.

Lemma nonempty_true (s : str) : nonempty s = true <-> s <> [].
Proof. destruct s; simpl; split; congruence. Qed.

Lemma lstrip_head (s r : str) (c : char) :
  lstrip s = c :: r -> is_space c = false.
Proof.
  induction s as [|x s IH]; simpl; [discriminate|].
  destruct (is_space x) eqn:Hx; auto.
  intros [= -> _]; exact Hx.
Qed.

Lemma lstrip_ink (c : char) (r : str) :
  is_space c = false -> lstrip (c :: r) = c :: r.
Proof. intros H; simpl; rewrite H; reflexivity. Qed.

Lemma lstrip_idem (s : str) : lstrip (lstrip s) = lstrip s.
Proof.
  destruct (lstrip s) as [|c r] eqn:Hs; [reflexivity|].
  apply lstrip_ink, (lstrip_head _ _ _ Hs).
Qed.

Lemma lstrip_split (s : str) :
  exists sp, s = sp ++ lstrip s /\ forallb is_space sp = true.
Proof.
  induction s as [|x s (sp & Hs & Hsp)]; simpl.
  - exists []; auto.
  - destruct (is_space x) eqn:Hx.
    + exists (x :: sp); simpl; rewrite Hx, Hsp; split; [congruence | auto].
    + exists []; auto.
Qed.

Lemma lstrip_snoc_ink (s : str) (c : char) :
  is_space c = false -> lstrip (s ++ [c]) = lstrip s ++ [c].
Proof.
  intros Hc; induction s as [|x s IH]; simpl.
  - rewrite Hc; reflexivity.
  - destruct (is_space x); auto.
Qed.

Lemma lstrip_app_ink (c : char) (r t : str) :
  is_space c = false -> lstrip ((c :: r) ++ t) = (c :: r) ++ t.
Proof. intros H; simpl; rewrite H; reflexivity. Qed.

Lemma rstrip_snoc_space (s : str) (c : char) :
  is_space c = true -> rstrip (s ++ [c]) = rstrip s.
Proof.
  intros H; unfold rstrip; rewrite rev_app_distr; simpl; rewrite H.
  reflexivity.
Qed.

Lemma rstrip_snoc_ink (s : str) (c : char) :
  is_space c = false -> rstrip (s ++ [c]) = s ++ [c].
Proof.
  intros H; unfold rstrip; rewrite rev_app_distr; simpl; rewrite H.
  simpl; rewrite rev_involutive; reflexivity.
Qed.

Lemma rstrip_cons_ink (c : char) (r : str) :
  is_space c = false -> rstrip (c :: r) = c :: rstrip r.
Proof.
  intros H; unfold rstrip; simpl.
  rewrite (lstrip_snoc_ink _ _ H), rev_app_distr; reflexivity.
Qed.

Lemma rstrip_idem (s : str) : rstrip (rstrip s) = rstrip s.
Proof. unfold rstrip; rewrite rev_involutive, lstrip_idem; reflexivity. Qed.

Lemma rstrip_split (s : str) :
  exists sp, s = rstrip s ++ sp /\ forallb is_space sp = true.
Proof.
  destruct (lstrip_split (rev s)) as (sp & Hs & Hsp).
  exists (rev sp); split.
  - unfold rstrip; rewrite <- rev_app_distr, <- Hs, rev_involutive.
    reflexivity.
  - rewrite forallb_forall in *; intros x Hx; apply Hsp, in_rev, Hx.
Qed.

Lemma tight_head (x : str) :
  tight x -> exists c r, x = c :: r /\ is_space c = false.
Proof.
  intros (Hl & _ & Hne); destruct x as [|c r]; [congruence|].
  exists c, r; split; [reflexivity | apply (lstrip_head _ _ _ Hl)].
Qed.

Lemma tight_last (x : str) :
  tight x -> exists r c, x = r ++ [c] /\ is_space c = false.
Proof.
  intros (_ & Hr & Hne).
  destruct (rev x) as [|c r] eqn:Hx.
  - apply (f_equal (@rev char)) in Hx; rewrite rev_involutive in Hx.
    simpl in Hx; congruence.
  - exists (rev r), c; split.
    + apply (f_equal (@rev char)) in Hx; rewrite rev_involutive in Hx.
      exact Hx.
    + assert (Hl : lstrip (rev x) = rev x).
      { unfold rstrip in Hr; rewrite <- Hr at 2.
        rewrite rev_involutive; reflexivity. }
      rewrite Hx in Hl; apply (lstrip_head _ _ _ Hl).
Qed.

Lemma strip_tight (s : str) : strip s <> [] -> tight (strip s).
Proof.
  unfold strip; intros Hne; repeat split; auto.
  - destruct (lstrip s) as [|c r] eqn:Hs; [reflexivity|].
    rewrite (rstrip_cons_ink _ _ (lstrip_head _ _ _ Hs)).
    apply lstrip_ink, (lstrip_head _ _ _ Hs).
  - apply rstrip_idem.
Qed.

Lemma tight_join (x s : str) :
  tight x -> tight s -> tight (x ++ c_space :: s).
Proof.
  intros Hx Hs.
  destruct (tight_head _ Hx) as (c & r & -> & Hc).
  destruct (tight_last _ Hs) as (r' & c' & -> & Hc').
  repeat split.
  - apply lstrip_app_ink, Hc.
  - change ((c :: r) ++ c_space :: r' ++ [c'])
      with ((c :: r) ++ (c_space :: r') ++ [c']).
    rewrite app_assoc; apply rstrip_snoc_ink, Hc'.
  - discriminate.
Qed.

Lemma strip_tight_space (x : str) : tight x -> strip (x ++ [c_space]) = x.
Proof.
  intros Hx; destruct (tight_head _ Hx) as (c & r & -> & Hc).
  unfold strip; rewrite (lstrip_app_ink _ _ _ Hc).
  rewrite rstrip_snoc_space by reflexivity.
  apply Hx.
Qed.

Lemma tight_has_ink (x : str) : tight x -> has_ink x.
Proof.
  intros Hx; destruct (tight_head _ Hx) as (c & r & -> & Hc).
  exists c; split; [left; reflexivity | exact Hc].
Qed.

Lemma has_ink_app_l (a b : str) : has_ink a -> has_ink (a ++ b).
Proof.
  intros (c & Hin & Hc); exists c; split; [apply in_or_app; auto | exact Hc].
Qed.

Lemma has_ink_nonempty (s : str) : has_ink s -> s <> [].
Proof. intros (c & Hin & _) ->; exact Hin. Qed.

End StrFacts.

Section WordFacts.

#[local] Arguments N.eqb : simpl never.

Lemma split_by_not_nil (p : char -> bool) (s : str) : split_by p s <> [].
Proof.
  destruct s as [|c s]; simpl; [discriminate|].
  destruct (p c); [discriminate|].
  destruct (split_by p s); discriminate.
Qed.

Lemma split_by_app (p : char -> bool) (a b : str) (c : char) :
  p c = true -> split_by p (a ++ c :: b) = split_by p a ++ split_by p b.
Proof.
  intros Hc; induction a as [|x a IH]; simpl.
  - rewrite Hc; reflexivity.
  - destruct (p x); [rewrite IH; reflexivity|].
    rewrite IH.
    destruct (split_by p a) as [|h t] eqn:Ha; [|reflexivity].
    exfalso; exact (split_by_not_nil _ _ Ha).
Qed.

Lemma words_app_space (a b : str) (c : char) :
  is_space c = true -> words (a ++ c :: b) = words a ++ words b.
Proof.
  intros Hc; unfold words; rewrite (split_by_app _ _ _ _ Hc).
  apply filter_app.
Qed.

Lemma words_cons_space (c : char) (s : str) :
  is_space c = true -> words (c :: s) = words s.
Proof. intros Hc; unfold words; simpl; rewrite Hc; reflexivity. Qed.

Lemma words_spaces (sp : str) : forallb is_space sp = true -> words sp = [].
Proof.
  induction sp as [|c sp IH]; simpl; [reflexivity|].
  rewrite andb_true_iff; intros [Hc Hsp].
  rewrite (words_cons_space _ _ Hc); auto.
Qed.

Lemma words_lead (sp s : str) :
  forallb is_space sp = true -> words (sp ++ s) = words s.
Proof.
  induction sp as [|c sp IH]; simpl; [reflexivity|].
  rewrite andb_true_iff; intros [Hc Hsp].
  rewrite (words_cons_space _ _ Hc); auto.
Qed.

Lemma words_trail (s sp : str) :
  forallb is_space sp = true -> words (s ++ sp) = words s.
Proof.
  destruct sp as [|c sp]; simpl.
  - rewrite app_nil_r; reflexivity.
  - rewrite andb_true_iff; intros [Hc Hsp].
    rewrite (words_app_space _ _ _ Hc), (words_spaces _ Hsp).
    apply app_nil_r.
Qed.

Lemma words_lstrip (s : str) : words (lstrip s) = words s.
Proof.
  destruct (lstrip_split s) as (sp & Hs & Hsp).
  rewrite Hs at 2; symmetry; apply words_lead, Hsp.
Qed.

Lemma words_rstrip (s : str) : words (rstrip s) = words s.
Proof.
  destruct (rstrip_split s) as (sp & Hs & Hsp).
  rewrite Hs at 2; symmetry; apply words_trail, Hsp.
Qed.

Lemma words_strip (s : str) : words (strip s) = words s.
Proof. unfold strip; rewrite words_rstrip; apply words_lstrip. Qed.

Lemma join_cons (sep : char) (s h : str) (t : list str) :
  join sep (s :: h :: t) = s ++ sep :: join sep (h :: t).
Proof. reflexivity. Qed.

Lemma words_join (l : list str) :
  words (join c_space l) = List.concat (List.map words l).
Proof.
  induction l as [|s [|h t] IH].
  - reflexivity.
  - simpl; rewrite app_nil_r; reflexivity.
  - rewrite join_cons, words_app_space by reflexivity.
    rewrite IH; reflexivity.
Qed.

Lemma words_sentences_of (pieces : list str) :
  List.concat (List.map words (sentences_of pieces))
  = List.concat (List.map words pieces).
Proof.
  unfold sentences_of; induction pieces as [|p ps IH]; simpl; [reflexivity|].
  destruct (nonempty (strip p)) eqn:Hp; simpl.
  - rewrite words_strip, IH; reflexivity.
  - apply nonempty_false in Hp.
    rewrite <- (words_strip p), Hp, IH; reflexivity.
Qed.

Lemma split_by_cons (p : char -> bool) (c : char) (s : str) :
  split_by p (c :: s)
  = if p c then [] :: split_by p s
    else match split_by p s with
         | [] => [[c]]
         | h :: t => (c :: h) :: t
         end.
Proof. reflexivity. Qed.

Lemma join_split_pipe (u : str) :
  join c_space (split c_pipe u) = List.map unpipe u.
Proof.
  unfold split; induction u as [|c u IH]; [reflexivity|].
  rewrite split_by_cons.
  change (List.map unpipe (c :: u)) with (unpipe c :: List.map unpipe u).
  unfold unpipe at 1; rewrite (N.eqb_sym c c_pipe).
  destruct (split_by (N.eqb c_pipe) u) as [|h t] eqn:Hu;
    [exfalso; exact (split_by_not_nil _ _ Hu)|].
  destruct (c_pipe =? c)%N.
  - rewrite join_cons, IH; reflexivity.
  - rewrite <- IH; destruct t; reflexivity.
Qed.

Lemma replace2_cons2 (o1 o2 : char) (new : str) (x y : char) (s : str) :
  replace2 o1 o2 new (x :: y :: s)
  = if ((x =? o1) && (y =? o2))%N
    then new ++ replace2 o1 o2 new s
    else x :: replace2 o1 o2 new (y :: s).
Proof. reflexivity. Qed.

Lemma replace2_unpipe_le (o : char) (n : nat) (s : str) :
  (List.length s <= n)%nat ->
  List.map unpipe (replace2 o c_space [o; c_pipe] s) = List.map unpipe s.
Proof.
  revert s; induction n as [|n IH]; intros s Hn.
  - destruct s; [reflexivity | simpl in Hn; lia].
  - destruct s as [|x [|y s]]; try reflexivity.
    simpl in Hn; rewrite replace2_cons2.
    destruct ((x =? o) && (y =? c_space))%N eqn:Hxy.
    + apply andb_true_iff in Hxy; destruct Hxy as [Hx Hy].
      apply N.eqb_eq in Hx, Hy; subst x y.
      cbn [List.map app]; rewrite IH by lia; reflexivity.
    + cbn [List.map]; rewrite IH by (simpl; lia); reflexivity.
Qed.

Lemma replace2_unpipe (o : char) (s : str) :
  List.map unpipe (replace2 o c_space [o; c_pipe] s) = List.map unpipe s.
Proof. apply (replace2_unpipe_le o (List.length s)); lia. Qed.

Lemma unpipe_id (s : str) : mem c_pipe s = false -> List.map unpipe s = s.
Proof.
  unfold mem; induction s as [|c s IH]; simpl; [reflexivity|].
  rewrite orb_false_iff; intros [Hc Hs].
  unfold unpipe at 1; rewrite N.eqb_sym, Hc, IH by assumption; reflexivity.
Qed.

(** Without a [|] in the text, the pieces joined by spaces are the text. *)
Lemma join_split_sentences (t : str) :
  mem c_pipe t = false -> join c_space (split_sentences t) = t.
Proof.
  intros Ht; unfold split_sentences, mark_boundaries.
  rewrite join_split_pipe, !replace2_unpipe; apply unpipe_id, Ht.
Qed.

Lemma join_spaced (l : list str) :
  join c_space l = removelast (spaced l).
Proof.
  unfold spaced; induction l as [|s [|h t] IH].
  - reflexivity.
  - simpl; rewrite app_nil_r, removelast_last; reflexivity.
  - rewrite join_cons, IH.
    change (List.concat (List.map (fun s => s ++ [c_space]) (s :: h :: t)))
      with ((s ++ [c_space])
              ++ List.concat (List.map (fun s => s ++ [c_space]) (h :: t))).
    rewrite removelast_app.
    + rewrite <- app_assoc; reflexivity.
    + simpl; destruct h; discriminate.
Qed.

End WordFacts.

(* ================================================================== *)
(** * Facts about [chunk_text] *)
(* ================================================================== *)

Section ChunkFacts.

Lemma chunk_loop_nil (B : Z) (cur : str) :
  chunk_loop B cur []
  = if nonempty (strip cur) then [strip cur] else [].
Proof. reflexivity. Qed.

Lemma chunk_loop_cons (B : Z) (cur s : str) (rest : list str) :
  chunk_loop B cur (s :: rest)
  = if negb (nonempty (strip s)) then chunk_loop B cur rest
    else if nonempty cur && (len cur + len (strip s) >? B)%Z
         then cur :: chunk_loop B (strip s ++ [c_space]) rest
         else chunk_loop B (cur ++ strip s ++ [c_space]) rest.
Proof. reflexivity. Qed.

Lemma packed_nil : packed [].
Proof. left; reflexivity. Qed.

Lemma packed_start (s : str) : tight s -> packed (s ++ [c_space]).
Proof. intros Hs; right; exists s; auto. Qed.

Lemma packed_grow (cur s : str) :
  packed cur -> tight s -> packed (cur ++ s ++ [c_space]).
Proof.
  intros [-> | (x & Hx & ->)] Hs.
  - apply packed_start, Hs.
  - right; exists (x ++ c_space :: s); split.
    + apply tight_join; assumption.
    + rewrite <- !app_assoc; reflexivity.
Qed.

Lemma packed_strip (cur : str) :
  packed cur -> strip cur = removelast cur.
Proof.
  intros [-> | (x & Hx & ->)]; [reflexivity|].
  rewrite strip_tight_space, removelast_last; auto.
Qed.

Lemma packed_has_ink (cur : str) : packed cur -> cur <> [] -> has_ink cur.
Proof.
  intros [-> | (x & Hx & ->)] Hne; [congruence|].
  apply has_ink_app_l, tight_has_ink, Hx.
Qed.

(** Every chunk the loop yields has a character that is not whitespace. *)
Lemma chunk_loop_ink (B : Z) (sentences : list str) :
  forall cur, packed cur -> Forall has_ink (chunk_loop B cur sentences).
Proof.
  induction sentences as [|s rest IH]; intros cur Hcur.
  - rewrite chunk_loop_nil.
    destruct (nonempty (strip cur)) eqn:Hne; constructor; [|constructor].
    destruct Hcur as [-> | (x & Hx & ->)]; [discriminate|].
    rewrite strip_tight_space by assumption; apply tight_has_ink, Hx.
  - rewrite chunk_loop_cons.
    destruct (nonempty (strip s)) eqn:Hs; simpl negb; cbv iota.
    + assert (Ht : tight (strip s))
        by (apply strip_tight, nonempty_true, Hs).
      destruct (nonempty cur && (len cur + len (strip s) >? B)%Z) eqn:Hy.
      * apply andb_true_iff in Hy; destruct Hy as [Hne _].
        constructor.
        -- apply packed_has_ink; [assumption | apply nonempty_true, Hne].
        -- apply IH, packed_start, Ht.
      * apply IH, packed_grow; assumption.
    + apply IH, Hcur.
Qed.

Lemma spaced_cons (s : str) (l : list str) :
  spaced (s :: l) = (s ++ [c_space]) ++ spaced l.
Proof. reflexivity. Qed.

Lemma spaced_app (l1 l2 : list str) :
  spaced (l1 ++ l2) = spaced l1 ++ spaced l2.
Proof. unfold spaced; rewrite map_app, concat_app; reflexivity. Qed.

Lemma sentences_of_cons (p : str) (ps : list str) :
  sentences_of (p :: ps)
  = if nonempty (strip p) then strip p :: sentences_of ps
    else sentences_of ps.
Proof. reflexivity. Qed.

(** The chunks, one after the other, are what [current_chunk] would be
    if it were never cut, without its last space. *)
Lemma chunk_loop_concat (B : Z) (sentences : list str) :
  forall cur, packed cur ->
    List.concat (chunk_loop B cur sentences)
    = removelast (cur ++ spaced (sentences_of sentences)).
Proof.
  induction sentences as [|s rest IH]; intros cur Hcur.
  - rewrite chunk_loop_nil; unfold sentences_of, spaced; simpl.
    rewrite app_nil_r, <- (packed_strip _ Hcur).
    destruct (strip cur); simpl; [reflexivity | rewrite app_nil_r; reflexivity].
  - rewrite chunk_loop_cons, sentences_of_cons.
    destruct (nonempty (strip s)) eqn:Hs; simpl negb; cbv iota.
    + assert (Ht : tight (strip s))
        by (apply strip_tight, nonempty_true, Hs).
      rewrite spaced_cons.
      destruct (nonempty cur && (len cur + len (strip s) >? B)%Z) eqn:Hy.
      * simpl List.concat.
        rewrite (IH _ (packed_start _ Ht)); symmetry; apply removelast_app.
        destruct (strip s); discriminate.
      * rewrite (IH _ (packed_grow _ _ Hcur Ht)), <- !app_assoc.
        reflexivity.
    + apply IH, Hcur.
Qed.

(** The chunks, concatenated, are the sentences joined by single
    spaces. *)
Lemma chunk_text_concat (t : str) (B : Z) :
  List.concat (chunk_text (Some t) B)
  = join c_space (sentences_of (split_sentences t)).
Proof.
  unfold chunk_text; destruct t as [|c t]; simpl negb; cbv iota.
  - reflexivity.
  - rewrite (chunk_loop_concat _ _ _ packed_nil), join_spaced; reflexivity.
Qed.

(** Without a [|] in the text, the chunks concatenated and the text
    have the same words. *)
Lemma chunk_text_words (t : str) (B : Z) :
  mem c_pipe t = false ->
  words (List.concat (chunk_text (Some t) B)) = words t.
Proof.
  intros Ht.
  rewrite chunk_text_concat, words_join, words_sentences_of, <- words_join.
  rewrite (join_split_sentences _ Ht); reflexivity.
Qed.

End ChunkFacts.

Section GroupFacts.

Lemma spaced_one (s : str) : spaced [s] = s ++ [c_space].
Proof. unfold spaced; simpl; apply app_nil_r. Qed.

Lemma spaced_snoc (g : list str) (s : str) :
  spaced (g ++ [s]) = spaced g ++ s ++ [c_space].
Proof. rewrite spaced_app, spaced_one; reflexivity. Qed.

Lemma join_snoc (g : list str) (s : str) :
  join c_space (g ++ [s]) = spaced g ++ s.
Proof.
  induction g as [|a [|b g] IH].
  - reflexivity.
  - rewrite spaced_one, <- app_assoc; reflexivity.
  - change ((a :: b :: g) ++ [s]) with (a :: (b :: g) ++ [s]).
    change ((b :: g) ++ [s]) with (b :: g ++ [s]) at 1.
    rewrite join_cons.
    change (b :: g ++ [s]) with ((b :: g) ++ [s]).
    rewrite IH, (spaced_cons a (b :: g)), <- !app_assoc; reflexivity.
Qed.

Lemma spaced_join (g : list str) :
  g <> [] -> Forall tight g ->
  spaced g = join c_space g ++ [c_space] /\ tight (join c_space g).
Proof.
  induction g as [|a [|b g] IH]; intros Hne Hg; [congruence| |].
  - split; [apply spaced_one | inversion Hg; assumption].
  - inversion Hg as [|? ? Ha Hg']; subst.
    destruct (IH ltac:(discriminate) Hg') as [Hsp Ht].
    rewrite join_cons, spaced_cons, Hsp; split.
    + rewrite <- !app_assoc; reflexivity.
    + apply tight_join; assumption.
Qed.

Lemma strip_spaced (g : list str) :
  Forall tight g -> strip (spaced g) = join c_space g.
Proof.
  intros Hg; destruct g as [|a g]; [reflexivity|].
  destruct (spaced_join (a :: g) ltac:(discriminate) Hg) as [-> Ht].
  apply strip_tight_space, Ht.
Qed.

Lemma nonempty_spaced (g : list str) :
  Forall tight g -> nonempty (spaced g) = nonempty (join c_space g).
Proof.
  intros Hg; destruct g as [|a g]; [reflexivity|].
  destruct (spaced_join (a :: g) ltac:(discriminate) Hg) as [-> (_ & _ & Ht)].
  destruct (join c_space (a :: g)); [congruence | reflexivity].
Qed.

Lemma len_app (a b : str) : len (a ++ b) = (len a + len b)%Z.
Proof. unfold len; rewrite length_app; lia. Qed.

Lemma sentences_of_tight (pieces : list str) :
  Forall tight (sentences_of pieces).
Proof.
  unfold sentences_of; induction pieces as [|p ps IH]; simpl; [constructor|].
  destruct (nonempty (strip p)) eqn:Hp; [|assumption].
  constructor; [apply strip_tight, nonempty_true, Hp | assumption].
Qed.

(** What the loop yields, as groups of whole sentences. *)
Lemma chunk_loop_groups (B : Z) (sentences : list str) :
  forall g, Forall tight g -> (g = [] \/ fits B g) ->
    exists groups,
      List.concat groups = g ++ sentences_of sentences
      /\ Forall (fun g => g <> [] /\ fits B g) groups
      /\ greedy B groups
      /\ chunk_loop B (spaced g) sentences = render groups.
Proof.
  induction sentences as [|s rest IH]; intros g Hg Hfit.
  - rewrite chunk_loop_nil, (strip_spaced _ Hg).
    destruct g as [|a g].
    + exists []; split; [|split; [|split]];
        [reflexivity | constructor | exact I | reflexivity].
    + destruct (spaced_join (a :: g) ltac:(discriminate) Hg)
        as [_ (_ & _ & Hne)].
      exists [a :: g]; unfold sentences_of; simpl List.concat.
      rewrite !app_nil_r.
      destruct Hfit as [Hfit | Hfit]; [discriminate|].
      split; [|split; [|split]]; auto.
      * constructor; [split; [discriminate | assumption] | constructor].
      * simpl; auto.
      * apply nonempty_true in Hne; rewrite Hne; reflexivity.
  - rewrite chunk_loop_cons, sentences_of_cons.
    destruct (nonempty (strip s)) eqn:Hs; simpl negb; cbv iota;
      [|apply IH; assumption].
    assert (Ht : tight (strip s)) by (apply strip_tight, nonempty_true, Hs).
    destruct (nonempty (spaced g) && (len (spaced g) + len (strip s) >? B)%Z)
      eqn:Hy.
    + apply andb_true_iff in Hy; destruct Hy as [Hne Hover].
      apply Z.gtb_lt in Hover.
      assert (Hg0 : g <> []) by (intros ->; discriminate).
      destruct Hfit as [Hfit | Hfit]; [congruence|].
      destruct (IH [strip s]) as (groups & Hcat & Hall & Hgr & Hloop).
      { constructor; [assumption | constructor]. }
      { right; right; exists (strip s); reflexivity. }
      rewrite spaced_one in Hloop; rewrite Hloop.
      destruct groups as [|g0 gs]; [discriminate|].
      assert (Hhead : exists g0', g0 = strip s :: g0').
      { inversion Hall as [|? ? [Hg0ne _] _]; subst.
        destruct g0 as [|s0 g0']; [congruence|].
        simpl in Hcat; injection Hcat as -> _; eauto. }
      destruct Hhead as (g0' & ->).
      exists (g :: (strip s :: g0') :: gs); split; [|split; [|split]].
      * simpl List.concat in *; rewrite Hcat; reflexivity.
      * constructor; [split; assumption | assumption].
      * split; [lia | exact Hgr].
      * reflexivity.
    + destruct (IH (g ++ [strip s])) as (groups & Hcat & Hall & Hgr & Hloop).
      { apply Forall_app; split; [assumption | constructor; [assumption|]].
        constructor. }
      { right; apply andb_false_iff in Hy; destruct Hy as [Hy | Hy].
        - rewrite (nonempty_spaced _ Hg) in Hy.
          destruct g as [|a g]; [right; exists (strip s); reflexivity|].
          destruct (spaced_join (a :: g) ltac:(discriminate) Hg)
            as [_ (_ & _ & Hne)].
          apply nonempty_true in Hne; congruence.
        - left; rewrite join_snoc, len_app.
          rewrite Z.gtb_ltb, Z.ltb_ge in Hy; exact Hy. }
      rewrite spaced_snoc in Hloop.
      exists groups; split; [|split; [|split]]; auto.
      rewrite Hcat, <- app_assoc; reflexivity.
Qed.

(** [chunk_text] yields consecutive groups of whole sentences; a group
    is closed only when the next sentence would not fit. *)
Lemma chunk_text_groups (t : str) (B : Z) :
  exists groups,
    List.concat groups = sentences_of (split_sentences t)
    /\ Forall (fun g => g <> [] /\ fits B g) groups
    /\ greedy B groups
    /\ chunk_text (Some t) B = render groups.
Proof.
  unfold chunk_text; destruct t as [|c t]; simpl negb; cbv iota.
  - exists []; split; [|split; [|split]];
      [reflexivity | constructor | exact I | reflexivity].
  - apply (chunk_loop_groups B (split_sentences (c :: t)) []);
      [constructor | left; reflexivity].
Qed.

End GroupFacts.

Section BoundaryFacts.

#[local] Arguments N.eqb : simpl never.

Lemma marked_from_cons (p c : char) (u : str) :
  marked_from p (c :: u)
  = (if (c =? c_pipe)%N then is_terminator p else true) && marked_from c u.
Proof. reflexivity. Qed.

Lemma marked_from_free (t : str) (p : char) :
  mem c_pipe t = false -> marked_from p t = true.
Proof.
  unfold mem; revert p; induction t as [|c t IH]; intros p; simpl;
    [reflexivity|].
  rewrite orb_false_iff; intros [Hc Ht].
  rewrite N.eqb_sym, Hc, IH by assumption; reflexivity.
Qed.

Lemma marked_from_prev (a b : char) (u : str) :
  is_terminator a = is_terminator b -> marked_from a u = marked_from b u.
Proof. intros H; destruct u; simpl; [reflexivity | rewrite H; reflexivity]. Qed.

Lemma terminator_not_pipe (o : char) :
  is_terminator o = true -> (o =? c_pipe)%N = false.
Proof.
  unfold is_terminator; rewrite !orb_true_iff, !N.eqb_eq.
  intros [[-> | ->] | ->]; reflexivity.
Qed.

Lemma replace2_marked_le (o : char) (n : nat) :
  is_terminator o = true ->
  forall (s : str) (p : char),
    (List.length s <= n)%nat ->
    marked_from p s = true ->
    marked_from p (replace2 o c_space [o; c_pipe] s) = true.
Proof.
  intros Ho; induction n as [|n IH]; intros s p Hn Hs.
  - destruct s; [reflexivity | simpl in Hn; lia].
  - destruct s as [|x [|y s]]; try assumption.
    simpl in Hn; rewrite replace2_cons2.
    destruct ((x =? o) && (y =? c_space))%N eqn:Hxy.
    + apply andb_true_iff in Hxy; destruct Hxy as [Hx Hy].
      apply N.eqb_eq in Hx, Hy; subst x y.
      rewrite !marked_from_cons in Hs.
      apply andb_true_iff in Hs; destruct Hs as [_ Hs].
      apply andb_true_iff in Hs; destruct Hs as [_ Hs].
      cbn [app]; rewrite !marked_from_cons.
      rewrite (terminator_not_pipe _ Ho), Ho, N.eqb_refl.
      rewrite (marked_from_prev c_pipe c_space) by reflexivity.
      apply IH; [lia | assumption].
    + rewrite marked_from_cons in *.
      apply andb_true_iff in Hs; destruct Hs as [Hp Hs].
      rewrite Hp; apply IH; [simpl; lia | assumption].
Qed.

Lemma mark_boundaries_marked (t : str) :
  mem c_pipe t = false -> marked_from c_space (mark_boundaries t) = true.
Proof.
  intros Ht; unfold mark_boundaries.
  eapply replace2_marked_le; [reflexivity | apply Nat.le_refl |].
  eapply replace2_marked_le; [reflexivity | apply Nat.le_refl |].
  eapply replace2_marked_le; [reflexivity | apply Nat.le_refl |].
  apply marked_from_free, Ht.
Qed.

Lemma ends_sentence_cons (c : char) (x : str) :
  ends_sentence x -> ends_sentence (c :: x).
Proof. intros (r & d & -> & Hd); exists (c :: r), d; auto. Qed.

Lemma ends_sentence_tail (c : char) (x : str) :
  is_terminator c = false -> ends_sentence (c :: x) -> ends_sentence x.
Proof.
  intros Hc (r & d & Heq & Hd); destruct r as [|c' r].
  - injection Heq as -> ->; congruence.
  - injection Heq as -> ->; exists r, d; auto.
Qed.

Lemma removelast_cons2 {A} (a b : A) (l : list A) :
  removelast (a :: b :: l) = a :: removelast (b :: l).
Proof. reflexivity. Qed.

Lemma split_marked (u : str) :
  forall p h t,
    marked_from p u = true ->
    split_by (N.eqb c_pipe) u = h :: t ->
    Forall ends_sentence (removelast ((p :: h) :: t)).
Proof.
  induction u as [|c u IH]; intros p h t Hm Hsplit.
  - injection Hsplit as <- <-; constructor.
  - rewrite marked_from_cons in Hm.
    apply andb_true_iff in Hm; destruct Hm as [Hp Hm].
    rewrite split_by_cons in Hsplit.
    destruct (split_by (N.eqb c_pipe) u) as [|h' t'] eqn:Hu;
      [exfalso; exact (split_by_not_nil _ _ Hu)|].
    specialize (IH c h' t' Hm eq_refl).
    rewrite N.eqb_sym in Hp.
    destruct (c_pipe =? c)%N eqn:Hc.
    + injection Hsplit as <- <-.
      rewrite removelast_cons2; constructor.
      * exists [], p; auto.
      * destruct t' as [|h'' t'']; [constructor|].
        rewrite removelast_cons2 in *.
        inversion IH as [|? ? Hh Ht]; subst; constructor; [|assumption].
        apply (ends_sentence_tail c); [|assumption].
        apply N.eqb_eq in Hc; subst c; reflexivity.
    + injection Hsplit as <- <-.
      destruct t' as [|h'' t'']; [constructor|].
      rewrite removelast_cons2 in *.
      inversion IH as [|? ? Hh Ht]; subst; constructor; [|assumption].
      apply ends_sentence_cons, Hh.
Qed.

(** Without a [|] in the text, every piece but the last ends with [.],
    [!] or [?]: the text is cut only after one of them. *)
Lemma split_sentences_boundaries (t : str) :
  mem c_pipe t = false ->
  Forall ends_sentence (removelast (split_sentences t)).
Proof.
  intros Ht; unfold split_sentences, split.
  destruct (split_by (N.eqb c_pipe) (mark_boundaries t)) as [|h r] eqn:Hu;
    [constructor|].
  pose proof (split_marked _ _ _ _ (mark_boundaries_marked _ Ht) Hu) as H.
  destruct r as [|h' r']; [constructor|].
  rewrite removelast_cons2 in *.
  inversion H as [|? ? Hh Hr]; subst; constructor; [|assumption].
  apply (ends_sentence_tail c_space); [reflexivity | assumption].
Qed.

Lemma pair_from_cons (o p c : char) (u : str) :
  pair_from o p (c :: u)
  = ((p =? o) && (c =? c_space))%N || pair_from o c u.
Proof. reflexivity. Qed.

Lemma boundary_from_cons (p c : char) (u : str) :
  boundary_from p (c :: u)
  = (is_terminator p && (c =? c_space)%N) || boundary_from c u.
Proof. reflexivity. Qed.

Lemma boundary_pairs (u : str) :
  forall p,
    boundary_from p u
    = pair_from c_dot p u || pair_from c_bang p u || pair_from c_qmark p u.
Proof.
  induction u as [|c u IH]; intros p; [reflexivity|].
  rewrite boundary_from_cons, !pair_from_cons, IH; unfold is_terminator.
  destruct (p =? c_dot)%N, (p =? c_bang)%N, (p =? c_qmark)%N,
    (c =? c_space)%N, (pair_from c_dot c u), (pair_from c_bang c u),
    (pair_from c_qmark c u); reflexivity.
Qed.

Lemma pair_from_prev (o a b : char) (u : str) :
  (a =? o)%N = (b =? o)%N -> pair_from o a u = pair_from o b u.
Proof.
  intros H; destruct u; [reflexivity|].
  rewrite !pair_from_cons, H; reflexivity.
Qed.

(** Replacing every [o], space leaves none. *)
Lemma replace2_own_pairs_le (o : char) (n : nat) :
  (o =? c_space)%N = false -> (c_pipe =? o)%N = false ->
  forall (s : str) (p : char),
    (List.length s <= n)%nat ->
    ((p =? o)%N && match s with
                   | c :: _ => (c =? c_space)%N
                   | [] => false
                   end) = false ->
    pair_from o p (replace2 o c_space [o; c_pipe] s) = false.
Proof.
  intros Ho Hpipe; induction n as [|n IH]; intros s p Hn Hs.
  - destruct s; [reflexivity | simpl in Hn; lia].
  - destruct s as [|x [|y s]]; [reflexivity| |].
    + cbn [replace2]; rewrite pair_from_cons, Hs; reflexivity.
    + simpl in Hn; rewrite replace2_cons2.
      destruct ((x =? o) && (y =? c_space))%N eqn:Hxy.
      * cbn [app]; rewrite !pair_from_cons, Ho, andb_false_r.
        replace (c_pipe =? c_space)%N with false by reflexivity.
        rewrite andb_false_r; cbn [orb].
        apply IH; [lia | rewrite Hpipe; reflexivity].
      * rewrite pair_from_cons, Hs; cbn [orb].
        apply IH; [simpl; lia | exact Hxy].
Qed.

(** Replacing every [o], space makes no [o'], space. *)
Lemma replace2_other_pairs_le (o o' : char) (n : nat) :
  (o =? c_space)%N = false -> (o =? o')%N = false ->
  (c_pipe =? o')%N = false -> (c_space =? o')%N = false ->
  forall (s : str) (p : char),
    (List.length s <= n)%nat ->
    pair_from o' p s = false ->
    pair_from o' p (replace2 o c_space [o; c_pipe] s) = false.
Proof.
  intros Ho Hoo Hpipe Hspace; induction n as [|n IH]; intros s p Hn Hs.
  - destruct s; [reflexivity | simpl in Hn; lia].
  - destruct s as [|x [|y s]]; try assumption.
    simpl in Hn; rewrite replace2_cons2.
    destruct ((x =? o) && (y =? c_space))%N eqn:Hxy.
    + apply andb_true_iff in Hxy; destruct Hxy as [Hx Hy].
      apply N.eqb_eq in Hx, Hy; subst x y.
      rewrite !pair_from_cons in Hs.
      apply orb_false_iff in Hs; destruct Hs as [_ Hs].
      apply orb_false_iff in Hs; destruct Hs as [_ Hs].
      cbn [app]; rewrite !pair_from_cons, Ho, Hoo, andb_false_r.
      cbn [andb orb]; apply IH; [lia|].
      rewrite (pair_from_prev o' c_pipe c_space) by congruence.
      exact Hs.
    + rewrite pair_from_cons in *.
      apply orb_false_iff in Hs; destruct Hs as [Hp Hs].
      rewrite Hp; cbn [orb]; apply IH; [simpl; lia | exact Hs].
Qed.

(** After the three replacements no [.], [!] or [?] is followed by a
    space. *)
Lemma mark_boundaries_free (t : str) :
  boundary_from c_space (mark_boundaries t) = false.
Proof.
  rewrite boundary_pairs; unfold mark_boundaries.
  rewrite (replace2_own_pairs_le c_dot _ eq_refl eq_refl _ c_space
             (Nat.le_refl _) eq_refl).
  rewrite (replace2_other_pairs_le c_dot c_bang _ eq_refl eq_refl eq_refl
             eq_refl _ c_space (Nat.le_refl _)).
  2:{ apply (replace2_own_pairs_le c_bang _ eq_refl eq_refl _ c_space
               (Nat.le_refl _) eq_refl). }
  rewrite (replace2_other_pairs_le c_dot c_qmark _ eq_refl eq_refl eq_refl
             eq_refl _ c_space (Nat.le_refl _)); [reflexivity|].
  apply (replace2_other_pairs_le c_bang c_qmark _ eq_refl eq_refl eq_refl
           eq_refl _ c_space (Nat.le_refl _)).
  apply (replace2_own_pairs_le c_qmark _ eq_refl eq_refl _ c_space
           (Nat.le_refl _) eq_refl).
Qed.

Lemma boundary_from_has (p : char) (s : str) :
  boundary_from p s = false -> has_boundary s = false.
Proof.
  destruct s as [|c s]; [reflexivity|].
  rewrite boundary_from_cons, orb_false_iff; intros [_ H]; exact H.
Qed.

Lemma boundary_from_app_l (a b : str) :
  forall p, boundary_from p (a ++ b) = false -> boundary_from p a = false.
Proof.
  induction a as [|x a IH]; intros p; [reflexivity|].
  cbn [app]; rewrite !boundary_from_cons, !orb_false_iff.
  intros [H1 H2]; split; [exact H1 | apply IH, H2].
Qed.

Lemma boundary_from_app_r (a b : str) :
  forall p, boundary_from p (a ++ b) = false -> has_boundary b = false.
Proof.
  induction a as [|x a IH]; intros p; [apply boundary_from_has|].
  cbn [app]; rewrite boundary_from_cons, orb_false_iff.
  intros [_ H]; apply (IH x), H.
Qed.

(** A part of a string without boundary has no boundary. *)
Lemma has_boundary_part (a b c : str) :
  has_boundary (a ++ b ++ c) = false -> has_boundary b = false.
Proof.
  intros H.
  assert (Hbc : has_boundary (b ++ c) = false).
  { destruct a as [|x a]; [exact H|].
    apply (boundary_from_app_r a (b ++ c) x), H. }
  destruct b as [|y b]; [reflexivity|].
  apply (boundary_from_app_l b c y), Hbc.
Qed.

Lemma has_boundary_strip (s : str) :
  has_boundary s = false -> has_boundary (strip s) = false.
Proof.
  intros H; destruct (lstrip_split s) as (sp & Hs & _).
  destruct (rstrip_split (lstrip s)) as (sp' & Hl & _).
  apply (has_boundary_part sp (strip s) sp').
  unfold strip; rewrite <- Hl, <- Hs; exact H.
Qed.

Lemma split_free (u : str) :
  forall p h t,
    boundary_from p u = false ->
    split_by (N.eqb c_pipe) u = h :: t ->
    boundary_from p h = false
    /\ Forall (fun x => has_boundary x = false) t.
Proof.
  induction u as [|c u IH]; intros p h t Hb Hsplit.
  - injection Hsplit as <- <-; split; [reflexivity | constructor].
  - rewrite boundary_from_cons in Hb.
    apply orb_false_iff in Hb; destruct Hb as [Hp Hb].
    rewrite split_by_cons in Hsplit.
    destruct (split_by (N.eqb c_pipe) u) as [|h' t'] eqn:Hu;
      [exfalso; exact (split_by_not_nil _ _ Hu)|].
    destruct (IH c h' t' Hb eq_refl) as [Hh Ht].
    destruct (c_pipe =? c)%N; injection Hsplit as <- <-.
    + split; [reflexivity|].
      constructor; [apply (boundary_from_has c), Hh | exact Ht].
    + split; [|exact Ht].
      rewrite boundary_from_cons, Hp, Hh; reflexivity.
Qed.

(** Every [.], [!] or [?] followed by a space is a cut: no piece has
    one inside. *)
Lemma split_sentences_free (t : str) :
  Forall (fun piece => has_boundary piece = false) (split_sentences t).
Proof.
  unfold split_sentences, split.
  destruct (split_by (N.eqb c_pipe) (mark_boundaries t)) as [|h r] eqn:Hu;
    [constructor|].
  destruct (split_free _ _ _ _ (mark_boundaries_free t) Hu) as [Hh Hr].
  constructor; [apply (boundary_from_has c_space), Hh | exact Hr].
Qed.

Lemma sentences_of_free (pieces : list str) :
  Forall (fun piece => has_boundary piece = false) pieces ->
  Forall (fun s => has_boundary s = false) (sentences_of pieces).
Proof.
  unfold sentences_of; induction 1 as [|x l Hx _ IH]; [constructor|].
  cbn [List.map filter]; destruct (nonempty (strip x)); [|exact IH].
  constructor; [apply has_boundary_strip, Hx | exact IH].
Qed.

End BoundaryFacts.

(* ================================================================== *)
(** * Facts about the world and the retriever *)
(* ================================================================== *)

Section WorldFacts.

Context {float : Type}.

Lemma add_calls_nil (w : world float) : add_calls w [] = w.
Proof. destruct w; unfold add_calls; simpl; rewrite app_nil_r; reflexivity. Qed.

Lemma add_calls_app (w : world float) (a b : list (call float)) :
  add_calls (add_calls w a) b = add_calls w (a ++ b).
Proof. unfold add_calls; simpl; rewrite app_assoc; reflexivity. Qed.

Lemma count_app (p : call float -> bool) (a b : list (call float)) :
  count p (a ++ b) = (count p a + count p b)%nat.
Proof. unfold count; rewrite filter_app, length_app; reflexivity. Qed.

Lemma keeps_warm_ret {A} (a : A) : keeps_warm (ret (S := world float) a).
Proof. intros w H; exact H. Qed.

Lemma keeps_warm_raise {A} (e : exn) :
  keeps_warm (raise (S := world float) (A := A) e).
Proof. intros w H; exact H. Qed.

Lemma keeps_warm_of_result {A} (r : result A) :
  keeps_warm (of_result (S := world float) r).
Proof. intros w H; exact H. Qed.

Lemma keeps_warm_read {A} (f : world float -> A) : keeps_warm (read f).
Proof. intros w H; exact H. Qed.

Lemma keeps_warm_perform {A} (c : call float)
      (answer : list (call float) -> result A) :
  keeps_warm (perform c answer).
Proof. intros w H; exact H. Qed.

Lemma keeps_warm_set_chatbot : keeps_warm (@set_chatbot float).
Proof. intros w H; exact H. Qed.

Lemma keeps_warm_set_warmed_up : keeps_warm (@set_warmed_up float).
Proof. intros w H; reflexivity. Qed.

Lemma keeps_warm_bind {A B} (m : M (world float) A)
      (k : A -> M (world float) B) :
  keeps_warm m -> (forall a, keeps_warm (k a)) -> keeps_warm (bind m k).
Proof.
  intros Hm Hk w Hw; unfold bind.
  specialize (Hm w Hw); destruct (m w) as [w' [a|e]]; simpl in *.
  - apply Hk, Hm.
  - exact Hm.
Qed.

Lemma keeps_warm_try {A} (body : M (world float) A)
      (handler : exn -> M (world float) A) :
  keeps_warm body -> (forall e, keeps_warm (handler e)) ->
  keeps_warm (try_except body handler).
Proof.
  intros Hb Hh w Hw; unfold try_except.
  specialize (Hb w Hw); destruct (body w) as [w' [a|e]]; simpl in *.
  - exact Hb.
  - apply Hh, Hb.
Qed.

Lemma keeps_warm_if {A} (b : bool) (m1 m2 : M (world float) A) :
  keeps_warm m1 -> keeps_warm m2 -> keeps_warm (if b then m1 else m2).
Proof. destruct b; auto. Qed.

End WorldFacts.

Create HintDb warm.

#[local] Hint Resolve keeps_warm_ret keeps_warm_raise keeps_warm_of_result
  keeps_warm_read keeps_warm_perform keeps_warm_set_chatbot
  keeps_warm_set_warmed_up keeps_warm_bind keeps_warm_try keeps_warm_if
  : warm.

Section RetrieverFacts.

Variable float : Type.
Variable E : env float.
Variable self : Retriever.t.

Lemma format_result_pure (r : ScoredPoint float) :
  exists res, forall w, Retriever.format_result r w = (w, res).
Proof.
  unfold Retriever.format_result; destruct (payload r); eexists; intros w;
    reflexivity.
Qed.

Lemma format_results_pure (rs : list (ScoredPoint float)) :
  exists res, forall w, Retriever.format_results rs w = (w, res).
Proof.
  induction rs as [|r rs (res & IH)].
  - eexists; intros w; reflexivity.
  - destruct (format_result_pure r) as (res1 & H1).
    destruct res1 as [d|e].
    + destruct res as [ds|e].
      * exists (Ok (d :: ds)); intros w; simpl; unfold bind.
        rewrite H1, IH; reflexivity.
      * exists (Raise e); intros w; simpl; unfold bind.
        rewrite H1, IH; reflexivity.
    + exists (Raise e); intros w; simpl; unfold bind.
      rewrite H1; reflexivity.
Qed.

Lemma format_results_formatted (rs : list (ScoredPoint float))
      (w : world float) :
  try_except (Retriever.format_results rs) (fun _ => ret []) w
  = (w, Ok (formatted rs)).
Proof.
  destruct (format_results_pure rs) as (res & H).
  unfold try_except, formatted; rewrite !H; simpl.
  destruct res; reflexivity.
Qed.

(** [retrieve] on a query that is not falsy, step by step. *)
Lemma retrieve_run (query : value) (top_k_arg : option Z)
      (filter_by : option dict) (w : world float) :
  truthy query = true ->
  let k := match top_k_arg with
           | Some k => k
           | None => Retriever.top_k self
           end in
  let coll := Retriever.collection_name self in
  let w1 := add_calls w [CallProcessQuery query] in
  Retriever.retrieve E self query top_k_arg filter_by w =
  match process_query E (calls w) query with
  | Raise _ => (w1, Ok [])
  | Ok processed =>
      match getitem (py "normalized") processed with
      | None => (w1, Ok [])
      | Some n =>
          match getitem (py "keyword_query") processed with
          | None => (w1, Ok [])
          | Some kq =>
              if negb (printable_value query) then (w1, Ok [])
              else
                let sq := if truthy kq then kq else n in
                let w2 := add_calls w1 [CallGenerateEmbedding sq] in
                match generate_embedding E (calls w1) sq with
                | Raise _ => (w2, Ok [])
                | Ok v =>
                    match Retriever.build_filter filter_by with
                    | Raise _ => (w2, Ok [])
                    | Ok qf =>
                        let w3 :=
                          add_calls w2 [CallQueryPoints coll v k qf] in
                        match query_points E (calls w2) coll v k qf with
                        | Raise _ => (w3, Ok [])
                        | Ok hits => (w3, Ok (formatted hits))
                        end
                    end
                end
          end
      end
  end.
Proof.
  intros Hq; unfold Retriever.retrieve; rewrite Hq.
  cbv beta iota zeta delta [negb try_except bind perform ret raise
                            of_result Retriever.subscript
                            Retriever.print_value].
  destruct (process_query E (calls w) query) as [processed|e];
    [|reflexivity].
  destruct (getitem (py "normalized") processed) as [n|]; [|reflexivity].
  destruct (getitem (py "keyword_query") processed) as [kq|]; [|reflexivity].
  destruct (printable_value query); [|reflexivity].
  destruct (generate_embedding E
              (calls (add_calls w [CallProcessQuery query]))
              (if truthy kq then kq else n)) as [v|e]; [|reflexivity].
  destruct (Retriever.build_filter filter_by) as [qf|e]; [|reflexivity].
  match goal with
  | |- context [query_points E ?h ?c ?q ?k ?f] =>
      destruct (query_points E h c q k f) as [hits|e]; [|reflexivity]
  end.
  pose proof (format_results_formatted hits) as Hf.
  cbv beta iota zeta delta [try_except ret] in Hf.
  apply Hf.
Qed.

End RetrieverFacts.

Section RetrieverClaims.

Variable float : Type.
Variable E : env float.
Variable self : Retriever.t.

(** Whatever the query, [retrieve] returns, leaves the globals alone
    and makes at most one call to each collaborator. *)
Lemma retrieve_frame (query : value) (top_k_arg : option Z)
      (filter_by : option dict) (w : world float) :
  exists new docs,
    Retriever.retrieve E self query top_k_arg filter_by w
    = (add_calls w new, Ok docs)
    /\ (count (@is_search float) new <= 1)%nat
    /\ (count (@is_embedding float) new <= 1)%nat
    /\ count (@is_encode float) new = 0%nat
    /\ count (@is_bot_query float) new = 0%nat.
Proof.
  destruct (truthy query) eqn:Hq.
  - rewrite (retrieve_run _ E self query top_k_arg filter_by w Hq); cbv zeta.
    destruct (process_query E (calls w) query) as [processed|e].
    2:{ eexists [_], _; split; [reflexivity | cbv; lia]. }
    destruct (getitem (py "normalized") processed) as [n|].
    2:{ eexists [_], _; split; [reflexivity | cbv; lia]. }
    destruct (getitem (py "keyword_query") processed) as [kq|].
    2:{ eexists [_], _; split; [reflexivity | cbv; lia]. }
    destruct (printable_value query); cbn [negb].
    2:{ eexists [_], _; split; [reflexivity | cbv; lia]. }
    destruct (generate_embedding E _ _) as [v|e].
    2:{ eexists [_; _], _; rewrite add_calls_app; split;
        [reflexivity | cbv; lia]. }
    destruct (Retriever.build_filter filter_by) as [qf|e].
    2:{ eexists [_; _], _; rewrite add_calls_app; split;
        [reflexivity | cbv; lia]. }
    destruct (query_points E _ _ _ _ _) as [hits|e].
    + eexists [_; _; _], _; rewrite !add_calls_app; split;
        [reflexivity | cbv; lia].
    + eexists [_; _; _], _; rewrite !add_calls_app; split;
        [reflexivity | cbv; lia].
  - exists [], []; rewrite add_calls_nil; split; [|cbv; lia].
    unfold Retriever.retrieve; rewrite Hq; reflexivity.
Qed.

(** C3. [Retriever.retrieve] never raises, whatever the query, [top_k]
    and filter; when the embedding step raises, and when the vector
    search raises, it returns the empty list; so it does when the
    filter cannot be built. *)
Theorem retrieve_never_raises (query : value) (top_k_arg : option Z)
        (filter_by : option dict) (w : world float) :
  let outcome :=
    snd (Retriever.retrieve E self query top_k_arg filter_by w) in
  let k := match top_k_arg with
           | Some k => k
           | None => Retriever.top_k self
           end in
  let h1 := calls w ++ [CallProcessQuery query] in
  (exists docs, outcome = Ok docs)
  /\ (forall processed n kq e,
        truthy query = true ->
        process_query E (calls w) query = Ok processed ->
        getitem (py "normalized") processed = Some n ->
        getitem (py "keyword_query") processed = Some kq ->
        generate_embedding E h1 (if truthy kq then kq else n) = Raise e ->
        outcome = Ok [])
  /\ (forall processed n kq v query_filter e,
        truthy query = true ->
        process_query E (calls w) query = Ok processed ->
        getitem (py "normalized") processed = Some n ->
        getitem (py "keyword_query") processed = Some kq ->
        let sq := if truthy kq then kq else n in
        generate_embedding E h1 sq = Ok v ->
        Retriever.build_filter filter_by = Ok query_filter ->
        query_points E (h1 ++ [CallGenerateEmbedding sq])
                     (Retriever.collection_name self) v k
                     query_filter = Raise e ->
        outcome = Ok [])
  /\ (forall e, Retriever.build_filter filter_by = Raise e ->
                outcome = Ok []).
Proof.
  cbv zeta.
  assert (Hfalsy : truthy query = false ->
                   snd (Retriever.retrieve E self query top_k_arg
                                           filter_by w) = Ok []).
  { intros Hq; unfold Retriever.retrieve; rewrite Hq; reflexivity. }
  split; [|split; [|split]].
  - destruct (retrieve_frame query top_k_arg filter_by w)
      as (new & docs & H & _).
    exists docs; rewrite H; reflexivity.
  - intros processed n kq e Hq Hp Hn Hk He.
    rewrite (retrieve_run _ E self query top_k_arg filter_by w Hq); cbv zeta.
    rewrite Hp, Hn, Hk; simpl calls.
    destruct (printable_value query); [|reflexivity].
    cbn [negb]; rewrite He; reflexivity.
  - intros processed n kq v qf e Hq Hp Hn Hk Hv Hf He.
    rewrite (retrieve_run _ E self query top_k_arg filter_by w Hq); cbv zeta.
    rewrite Hp, Hn, Hk; simpl calls.
    destruct (printable_value query); [|reflexivity].
    cbn [negb]; rewrite Hv, Hf, He; reflexivity.
  - intros e He; destruct (truthy query) eqn:Hq; [|apply Hfalsy, eq_refl].
    rewrite (retrieve_run _ E self query top_k_arg filter_by w Hq); cbv zeta.
    destruct (process_query E (calls w) query) as [processed|e'];
      [|reflexivity].
    destruct (getitem (py "normalized") processed); [|reflexivity].
    destruct (getitem (py "keyword_query") processed); [|reflexivity].
    destruct (negb (printable_value query)); [reflexivity|].
    destruct (generate_embedding E _ _); [|reflexivity].
    rewrite He; reflexivity.
Qed.

(** C8. For the empty query string, and for any other falsy query,
    [retrieve] returns the empty list at once: the world is unchanged,
    so neither the query processor, nor the embedding generator, nor the
    search client has been called. *)
Theorem retrieve_falsy_query (top_k_arg : option Z)
        (filter_by : option dict) (w : world float) :
  Retriever.retrieve E self (VStr []) top_k_arg filter_by w = (w, Ok [])
  /\ forall query,
       truthy query = false ->
       Retriever.retrieve E self query top_k_arg filter_by w = (w, Ok [])
       /\ calls (fst (Retriever.retrieve E self query top_k_arg filter_by w))
          = calls w.
Proof.
  split; [reflexivity|].
  intros query Hq; unfold Retriever.retrieve; rewrite Hq; split; reflexivity.
Qed.

(** [ingest_qa_pair] on a question and an answer that are both present,
    step by step. *)
Lemma ingest_run (q a : str) (w : world float) :
  q <> [] -> a <> [] ->
  let coll := Retriever.collection_name self in
  let w1 := add_calls w [CallGenerateEmbedding (VStr q)] in
  let w2 := add_calls w1 [CallUuid4] in
  Retriever.ingest_qa_pair E self (Some q) (Some a) w =
  match generate_embedding E (calls w) (VStr q) with
  | Raise _ => (w1, Ok false)
  | Ok v =>
      let point :=
        {| ps_id := uuid4 E (calls w1);
           ps_vector := v;
           ps_payload := (py "content", VStr (Retriever.qa_content q a))
                           :: Retriever.qa_metadata q a |} in
      let w3 := add_calls w2 [CallUpsert coll [point]] in
      match upsert E (calls w2) coll [point] with
      | Raise _ => (w3, Ok false)
      | Ok _ => (w3, Ok true)
      end
  end.
Proof.
  intros Hq Ha; apply nonempty_true in Hq, Ha.
  unfold Retriever.ingest_qa_pair; rewrite Hq, Ha.
  cbv beta iota zeta delta [negb orb try_except bind perform ret].
  destruct (generate_embedding E (calls w) (VStr q)) as [v|e];
    [|reflexivity].
  match goal with
  | |- context [upsert E ?h ?c ?p] =>
      destruct (upsert E h c p) as [[]|e]; reflexivity
  end.
Qed.

End RetrieverClaims.

Section IngestClaims.

Variable float : Type.
Variable E : env float.
Variable self : Retriever.t.

(** C7 (amended). [ingest_qa_pair] never raises. With a question or an
    answer missing or empty it returns [False] and calls nothing.
    Otherwise it embeds the question; when that raises it returns
    [False]; else it draws an identifier from [uuid4] and upserts one
    point with that identifier, the embedding and a payload made of the
    content and the metadata, and returns [True] when the upsert
    returns and [False] when it raises. The content is the question and
    the answer under their labels, separated by two newlines; the
    metadata tags the point as a generated Q&A. *)
Theorem ingest_qa_pair_outcome (question answer : option str)
        (w : world float) :
  let run := Retriever.ingest_qa_pair E self question answer w in
  let coll := Retriever.collection_name self in
  (exists b, snd run = Ok b)
  /\ (Retriever.present question = false \/ Retriever.present answer = false
      -> run = (w, Ok false))
  /\ (forall q a,
        question = Some q -> answer = Some a -> q <> [] -> a <> [] ->
        let w1 := add_calls w [CallGenerateEmbedding (VStr q)] in
        let w2 := add_calls w1 [CallUuid4] in
        run =
        match generate_embedding E (calls w) (VStr q) with
        | Raise _ => (w1, Ok false)
        | Ok v =>
            let point :=
              {| ps_id := uuid4 E (calls w1);
                 ps_vector := v;
                 ps_payload :=
                   (py "content", VStr (Retriever.qa_content q a))
                     :: Retriever.qa_metadata q a |} in
            let w3 := add_calls w2 [CallUpsert coll [point]] in
            match upsert E (calls w2) coll [point] with
            | Raise _ => (w3, Ok false)
            | Ok _ => (w3, Ok true)
            end
        end)
  /\ (forall q a,
        Retriever.qa_content q a
        = py "Question: " ++ q ++ [10; 10]%N ++ py "Answer: " ++ a
        /\ Retriever.qa_metadata q a
           = [ (py "document_type", VStr (py "Generated Q&A"));
               (py "company", VStr (py "General Knowledge"));
               (py "source", VStr (py "Gemini LLM"));
               (py "question", VStr q);
               (py "answer", VStr a) ]).
Proof.
  cbv zeta.
  assert (Hmissing :
            Retriever.present question = false
            \/ Retriever.present answer = false ->
            Retriever.ingest_qa_pair E self question answer w
            = (w, Ok false)).
  { unfold Retriever.ingest_qa_pair, Retriever.present.
    destruct question as [q|], answer as [a|]; intros H; try reflexivity.
    destruct H as [H | H]; rewrite H; [reflexivity|].
    rewrite orb_true_r; reflexivity. }
  split; [|split; [exact Hmissing|split]].
  - destruct (Retriever.present question) eqn:Hq;
      [|rewrite Hmissing by auto; eexists; reflexivity].
    destruct (Retriever.present answer) eqn:Ha;
      [|rewrite Hmissing by auto; eexists; reflexivity].
    destruct question as [q|], answer as [a|]; try discriminate.
    simpl in Hq, Ha; apply nonempty_true in Hq, Ha.
    rewrite (ingest_run _ E self q a w Hq Ha); cbv zeta.
    destruct (generate_embedding E (calls w) (VStr q));
      [|eexists; reflexivity].
    destruct (upsert E _ _ _); eexists; reflexivity.
  - intros q a -> -> Hq Ha; apply (ingest_run _ E self q a w Hq Ha).
  - intros q a; repeat split.
Qed.

End IngestClaims.

Section IngestExamples.

Import Samples.

(** [retrieve_never_raises] where the embedding generator raises. *)
Lemma retrieve_never_raises_witness :
  snd (Retriever.retrieve (sample_env true true false true true [] (Ok None))
         sample_retriever (VStr (py "internship")) None None process_start)
  = Ok [].
Proof.
  refine (proj1 (proj2 (retrieve_never_raises unit
            (sample_env true true false true true [] (Ok None))
            sample_retriever (VStr (py "internship")) None None
            process_start))
          _ (VStr (py "internship")) (VStr (py "internship")) failure
          _ _ _ _ _);
    reflexivity.
Defined.

(** [retrieve_falsy_query] at the query [None]. *)
Lemma retrieve_falsy_query_witness :
  calls (fst (Retriever.retrieve
                (sample_env true true true true true [sample_hit] (Ok None))
                sample_retriever VNone (Some 3%Z) None process_start))
  = [].
Proof.
  exact (proj2 (proj2 (retrieve_falsy_query unit
           (sample_env true true true true true [sample_hit] (Ok None))
           sample_retriever (Some 3%Z) None process_start) VNone eq_refl)).
Defined.

(** [ingest_qa_pair_outcome] at a missing question. *)
Lemma ingest_qa_pair_outcome_witness :
  Retriever.ingest_qa_pair
    (sample_env true true true true true [] (Ok None))
    sample_retriever None (Some (py "An answer.")) process_start
  = (process_start, Ok false).
Proof.
  apply (proj1 (proj2 (ingest_qa_pair_outcome unit
           (sample_env true true true true true [] (Ok None))
           sample_retriever None (Some (py "An answer.")) process_start))).
  left; reflexivity.
Defined.

(** C7, as stated, fails: for the question [q] and the answer [a] the
    content of the upserted point has two newlines between the question
    and the answer label, not one. *)
Lemma ingest_content_counterexample :
  calls (fst (Retriever.ingest_qa_pair
                (sample_env true true true true true [] (Ok None))
                sample_retriever (Some (py "q")) (Some (py "a"))
                process_start))
  = [ CallGenerateEmbedding (VStr (py "q"));
      CallUuid4;
      CallUpsert (py "internship_education_db")
        [ {| ps_id := py "3f2b8c1e-0000-4000-8000-000000000001";
             ps_vector := [tt; tt];
             ps_payload :=
               (py "content",
                VStr (py "Question: q" ++ [10; 10]%N ++ py "Answer: a"))
                 :: Retriever.qa_metadata (py "q") (py "a") |} ] ]
  /\ py "Question: q" ++ [10; 10]%N ++ py "Answer: a"
     <> py "Question: q" ++ [10]%N ++ py "Answer: a".
Proof.
  split; [reflexivity|].
  vm_compute; intros H; discriminate H.
Qed.

End IngestExamples.

(* ================================================================== *)
(** * Facts about the routing rules *)
(* ================================================================== *)

Section RoutingClaims.

Import RouteRules.

Lemma contains_In (l : list str) (i : str) :
  contains l i = true <-> In i l.
Proof.
  unfold contains; rewrite existsb_exists; split.
  - intros (x & Hx & Heq); apply str_eqb_eq in Heq; subst; exact Hx.
  - intros H; exists i; split; [exact H | apply str_eqb_refl].
Qed.

Lemma intents_disjoint (i : str) :
  In i rag_intents -> In i external_intents -> False.
Proof.
  intros [<- | []] [H | [H | [H | []]]]; vm_compute in H; discriminate H.
Qed.

(** What the two routing paths do. For every intent string
    [get_pipeline_for_intent] yields one of RAG, EXTERNAL and UNKNOWN:
    RAG for a member of the RAG intents, EXTERNAL for a member of the
    EXTERNAL intents, UNKNOWN for an intent in neither list; the two
    lists are disjoint. The pipeline that [route_query] reports is RAG
    when the classified intent is a RAG intent and EXTERNAL for every
    other intent. *)
Theorem get_pipeline_for_intent_cases (i : str) :
  (get_pipeline_for_intent i = py "RAG"
   \/ get_pipeline_for_intent i = py "EXTERNAL"
   \/ get_pipeline_for_intent i = py "UNKNOWN")
  /\ (In i rag_intents -> get_pipeline_for_intent i = py "RAG")
  /\ (In i external_intents -> get_pipeline_for_intent i = py "EXTERNAL")
  /\ (~ In i rag_intents -> ~ In i external_intents ->
      get_pipeline_for_intent i = py "UNKNOWN")
  /\ (forall j, ~ (In j rag_intents /\ In j external_intents))
  /\ (forall (router : IntentRouter) (query : str),
        classify_intent query = i ->
        (In i rag_intents -> pipeline (route_query query) = py "RAG")
        /\ (~ In i rag_intents ->
            pipeline (route_query query) = py "EXTERNAL")
        /\ (use_rag (route_query query) = true <-> In i rag_intents)
        /\ (use_external (route_query query) = true
            <-> In i external_intents)).
Proof.
  assert (Hrag : In i rag_intents -> get_pipeline_for_intent i = py "RAG").
  { intros H; apply contains_In in H.
    unfold get_pipeline_for_intent, should_use_rag; rewrite H; reflexivity. }
  assert (Hext : In i external_intents ->
                 get_pipeline_for_intent i = py "EXTERNAL").
  { intros H; unfold get_pipeline_for_intent, should_use_rag,
      should_use_external.
    destruct (contains rag_intents i) eqn:Hr.
    - apply contains_In in Hr; destruct (intents_disjoint i Hr H).
    - apply contains_In in H; rewrite H; reflexivity. }
  assert (Hunk : ~ In i rag_intents -> ~ In i external_intents ->
                 get_pipeline_for_intent i = py "UNKNOWN").
  { intros Hr He; rewrite <- contains_In in Hr, He.
    unfold get_pipeline_for_intent, should_use_rag, should_use_external.
    destruct (contains rag_intents i); [congruence|].
    destruct (contains external_intents i); [congruence | reflexivity]. }
  split; [|split; [|split; [|split; [|split]]]]; auto.
  - destruct (contains rag_intents i) eqn:Hr;
      [left; apply Hrag, contains_In, Hr|].
    destruct (contains external_intents i) eqn:He;
      [right; left; apply Hext, contains_In, He|].
    right; right; apply Hunk; rewrite <- contains_In; congruence.
  - intros j [H1 H2]; exact (intents_disjoint j H1 H2).
  - intros router query Hc.
    unfold route_query, should_use_rag, should_use_external.
    cbn [pipeline use_rag use_external]; rewrite Hc.
    split; [|split; [|split; apply contains_In]]; intros H.
    + apply contains_In in H; rewrite H; reflexivity.
    + rewrite <- contains_In in H.
      destruct (contains rag_intents i); [congruence | reflexivity].
Qed.

Import Samples.

(** [get_pipeline_for_intent_cases] at an intent of each kind. *)
Lemma get_pipeline_for_intent_cases_witness :
  get_pipeline_for_intent COMPANY_INTERNSHIP = py "RAG"
  /\ get_pipeline_for_intent GENERAL_EDUCATION = py "EXTERNAL"
  /\ get_pipeline_for_intent (py "UNKNOWN") = py "UNKNOWN"
  /\ pipeline (route_query (router := fallback_router) (py "hello"))
     = py "EXTERNAL".
Proof.
  split; [|split; [|split]].
  - apply (proj1 (proj2 (get_pipeline_for_intent_cases COMPANY_INTERNSHIP))).
    left; reflexivity.
  - apply (proj1 (proj2 (proj2
             (get_pipeline_for_intent_cases GENERAL_EDUCATION)))).
    right; right; left; reflexivity.
  - apply (proj1 (proj2 (proj2 (proj2
             (get_pipeline_for_intent_cases (py "UNKNOWN")))))).
    + intros [H | []]; vm_compute in H; discriminate H.
    + intros [H | [H | [H | []]]]; vm_compute in H; discriminate H.
  - apply (proj1 (proj2 (proj2 (proj2 (proj2 (proj2 (proj2
             (get_pipeline_for_intent_cases (py "UNKNOWN"))))))
             fallback_router (py "hello") eq_refl))).
    intros [H | []]; vm_compute in H; discriminate H.
Defined.

(** C2. [route_query] misses the UNKNOWN case that its sibling
    [get_pipeline_for_intent] has: for a query whose classified intent
    is in neither list it reports the pipeline EXTERNAL, although its
    own [use_rag] and [use_external] are both false, where
    [get_pipeline_for_intent] answers UNKNOWN for the same intent. *)
Theorem route_query_unknown_intent (router : IntentRouter) (query : str) :
  ~ In (classify_intent query) rag_intents ->
  ~ In (classify_intent query) external_intents ->
  let r := route_query query in
  intent r = classify_intent query
  /\ pipeline r = py "EXTERNAL"
  /\ pipeline r <> py "UNKNOWN"
  /\ use_rag r = false
  /\ use_external r = false
  /\ get_pipeline_for_intent (intent r) = py "UNKNOWN".
Proof.
  intros Hr He; cbv zeta.
  rewrite <- contains_In in Hr, He.
  unfold route_query, get_pipeline_for_intent, should_use_rag,
    should_use_external.
  cbn [intent pipeline use_rag use_external].
  destruct (contains rag_intents (classify_intent query)); [congruence|].
  destruct (contains external_intents (classify_intent query));
    [congruence|].
  repeat split; vm_compute; intros H; discriminate H.
Qed.

(** [route_query_unknown_intent] at a query that the classifier maps to
    the fallback intent UNKNOWN. *)
Lemma route_query_unknown_intent_witness :
  let r := route_query (router := fallback_router) (py "hello") in
  intent r = py "UNKNOWN"
  /\ use_rag r = false /\ use_external r = false
  /\ pipeline r = py "EXTERNAL"
  /\ get_pipeline_for_intent (intent r) = py "UNKNOWN".
Proof.
  cbv zeta.
  assert (Hr : ~ In (classify_intent (IntentRouter := fallback_router)
                                     (py "hello")) rag_intents)
    by (intros [H | []]; vm_compute in H; discriminate H).
  assert (He : ~ In (classify_intent (IntentRouter := fallback_router)
                                     (py "hello")) external_intents)
    by (intros [H | [H | [H | []]]]; vm_compute in H; discriminate H).
  destruct (route_query_unknown_intent fallback_router (py "hello") Hr He)
    as (Hi & Hp & _ & Hur & Hue & Hg).
  repeat split; assumption.
Defined.

End RoutingClaims.

(* ================================================================== *)
(** * Facts about the service *)
(* ================================================================== *)

Section WarmUpFacts.

Variable float : Type.
Variable E : env float.
Variable R : Retriever.t.

Lemma pre_warm_warmed (w : world float) :
  is_warmed_up w = true -> Service.pre_warm_pipeline E R w = (w, Ok tt).
Proof.
  intros H; unfold Service.pre_warm_pipeline, bind, read; rewrite H.
  reflexivity.
Qed.

(** [pre_warm_pipeline] changes nothing: with the flag set it returns
    at once, and otherwise the lookup of [embedder] on the [Retriever]
    raises before any call, and the handler returns. *)
Lemma pre_warm_no_op (w : world float) :
  Service.pre_warm_pipeline E R w = (w, Ok tt).
Proof.
  unfold Service.pre_warm_pipeline, bind at 1, read.
  destruct (is_warmed_up w); reflexivity.
Qed.

Lemma keeps_warm_format_results (rs : list (ScoredPoint float)) :
  keeps_warm (Retriever.format_results rs).
Proof.
  intros w Hw; destruct (format_results_pure _ rs) as (res & H).
  rewrite H; exact Hw.
Qed.

Lemma keeps_warm_retrieve (query : value) (k : option Z)
      (f : option dict) :
  keeps_warm (Retriever.retrieve E R query k f).
Proof.
  intros w Hw.
  destruct (retrieve_frame _ E R query k f w) as (new & docs & Hr & _).
  rewrite Hr; exact Hw.
Qed.

Lemma keeps_warm_pre_warm : keeps_warm (Service.pre_warm_pipeline E R).
Proof. intros w Hw; rewrite (pre_warm_warmed w Hw); exact Hw. Qed.

Lemma keeps_warm_initialize : keeps_warm (Service.initialize_chatbot E R).
Proof.
  unfold Service.initialize_chatbot.
  apply keeps_warm_bind; [apply keeps_warm_read|]; intros b.
  apply keeps_warm_if; [apply keeps_warm_ret|].
  apply keeps_warm_bind; [apply keeps_warm_perform|]; intros _.
  apply keeps_warm_bind; [apply keeps_warm_set_chatbot|]; intros _.
  apply keeps_warm_pre_warm.
Qed.

Lemma keeps_warm_query_bot (q u s : value) :
  keeps_warm (Service.query_bot E q u s).
Proof. apply keeps_warm_perform. Qed.

Lemma keeps_warm_query (request_json : result value) :
  keeps_warm (Service.query E R request_json).
Proof.
  unfold Service.query, Service.dict_get, Service.query_is_blank,
    Service.str_strip.
  apply keeps_warm_try; [|intros e; apply keeps_warm_ret].
  apply keeps_warm_bind; [apply keeps_warm_of_result|]; intros data.
  apply keeps_warm_bind;
    [destruct data; auto with warm|]; intros user_id.
  apply keeps_warm_bind;
    [destruct data; auto with warm|]; intros session_id.
  apply keeps_warm_bind;
    [destruct data; auto with warm|]; intros query_text.
  apply keeps_warm_if; [apply keeps_warm_ret|].
  apply keeps_warm_bind.
  - apply keeps_warm_if; [apply keeps_warm_ret|].
    apply keeps_warm_bind; [destruct query_text; auto with warm|].
    intros s; apply keeps_warm_ret.
  - intros blank; apply keeps_warm_if; [apply keeps_warm_ret|].
    apply keeps_warm_bind; [apply keeps_warm_initialize|]; intros _.
    apply keeps_warm_bind; [apply keeps_warm_query_bot|]; intros r.
    apply keeps_warm_ret.
Qed.

(** What one run of [pre_warm_pipeline] calls. *)
Lemma pre_warm_frame (w : world float) :
  exists new,
    calls (fst (Service.pre_warm_pipeline E R w)) = calls w ++ new
    /\ chatbot_set (fst (Service.pre_warm_pipeline E R w)) = chatbot_set w
    /\ snd (Service.pre_warm_pipeline E R w) = Ok tt
    /\ (count (@is_encode float) new <= 1)%nat
    /\ (count (@is_search float) new <= 1)%nat
    /\ (count (@is_embedding float) new <= 1)%nat
    /\ count (@is_bot_query float) new = 0%nat.
Proof.
  rewrite pre_warm_no_op; exists []; simpl.
  rewrite app_nil_r; repeat split; cbv; lia.
Qed.

Lemma initialize_frame (w : world float) :
  exists new,
    calls (fst (Service.initialize_chatbot E R w)) = calls w ++ new
    /\ count (@is_bot_query float) new = 0%nat.
Proof.
  unfold Service.initialize_chatbot, bind at 1, read.
  destruct (chatbot_set w).
  - exists []; simpl; rewrite app_nil_r; auto.
  - cbv beta iota zeta delta [bind perform set_chatbot].
    destruct (new_RAGChatbot E (calls w)) as [[]|e].
    + match goal with
      | |- context [Service.pre_warm_pipeline E R ?w0] =>
          destruct (pre_warm_frame w0) as (new & Hc & _ & _ & _ & _ & _ & Hb)
      end.
      exists ([CallRAGChatbot] ++ new); rewrite count_app, Hb, Hc; simpl.
      rewrite <- app_assoc; auto.
    + exists [CallRAGChatbot]; simpl; auto.
Qed.

End WarmUpFacts.

Section StreamFacts.

Variable float : Type.
Variable E : env float.
Variable R : Retriever.t.

Lemma yield_chunks_run (cs : list str) :
  forall (w : world float) (out : list Service.sse_event),
    Service.yield_chunks cs (w, out)
    = ((w, out ++ List.map Service.EvChunk cs), Ok tt).
Proof.
  induction cs as [|c cs IH]; intros w out; simpl.
  - rewrite app_nil_r; reflexivity.
  - unfold bind, Service.yield_; simpl; rewrite IH, <- app_assoc.
    reflexivity.
Qed.

(** [generate_sse_response], step by step. *)
Lemma generate_sse_response_run (q u s : value) (w : world float)
      (out : list Service.sse_event) :
  Service.generate_sse_response E R q u s (w, out) =
  match Service.initialize_chatbot E R w with
  | (w1, Raise e) => ((w1, out ++ [Service.EvError e]), Ok tt)
  | (w1, Ok _) =>
      let w2 := add_calls w1 [CallBotQuery q u s] in
      match bot_query E (calls w1) q u s with
      | Raise e =>
          ((w2, out ++ [Service.EvStart; Service.EvError e]), Ok tt)
      | Ok answer =>
          ((w2, out ++ Service.EvStart
                  :: List.map Service.EvChunk (chunk_text answer 30)
                  ++ [Service.EvDone]), Ok tt)
      end
  end.
Proof.
  unfold Service.generate_sse_response.
  cbv beta iota zeta delta [try_except bind Service.run Service.query_bot
                            perform fst snd].
  destruct (Service.initialize_chatbot E R w) as [w1 [[]|e]];
    [|reflexivity].
  cbv beta iota zeta delta [Service.yield_ fst snd].
  destruct (bot_query E (calls w1) q u s) as [answer|e].
  - rewrite yield_chunks_run; cbv beta iota zeta delta [fst snd].
    rewrite <- !app_assoc; reflexivity.
  - rewrite <- app_assoc; reflexivity.
Qed.

Lemma filter_chunks (p : Service.sse_event -> bool) (cs : list str) :
  (forall c, p (Service.EvChunk c) = false) ->
  filter p (List.map Service.EvChunk cs) = [].
Proof.
  intros Hp; induction cs as [|c cs IH]; simpl; [reflexivity|].
  rewrite Hp; exact IH.
Qed.

Lemma chunk_contents_chunks (cs : list str) (es : list Service.sse_event) :
  Service.chunk_contents (List.map Service.EvChunk cs ++ es)
  = cs ++ Service.chunk_contents es.
Proof. induction cs as [|c cs IH]; simpl; [|rewrite IH]; reflexivity. Qed.

Lemma keeps_warm_generate (q u s : value) (w : world float) :
  is_warmed_up w = true ->
  is_warmed_up
    (Service.world_after (Service.generate_sse_response E R q u s) w) = true.
Proof.
  intros Hw; unfold Service.world_after.
  rewrite generate_sse_response_run.
  pose proof (keeps_warm_initialize _ E R w Hw) as Hi.
  destruct (Service.initialize_chatbot E R w) as [w1 [[]|e]]; simpl in *;
    [|exact Hi].
  destruct (bot_query E (calls w1) q u s); exact Hi.
Qed.

(** The events of a stream, by what initialisation and the orchestrator
    do. *)
Lemma stream_events (q u s : value) (w : world float) :
  let events :=
    Service.events_of (Service.generate_sse_response E R q u s) w in
  match snd (Service.initialize_chatbot E R w) with
  | Raise e => events = [Service.EvError e]
  | Ok _ =>
      match bot_query E (calls (fst (Service.initialize_chatbot E R w)))
                      q u s with
      | Raise e => events = [Service.EvStart; Service.EvError e]
      | Ok answer =>
          events = Service.EvStart
                     :: List.map Service.EvChunk (chunk_text answer 30)
                     ++ [Service.EvDone]
      end
  end.
Proof.
  cbv zeta; unfold Service.events_of; rewrite generate_sse_response_run.
  destruct (Service.initialize_chatbot E R w) as [w1 [[]|e]];
    cbv beta iota zeta delta [fst snd]; [|reflexivity].
  destruct (bot_query E (calls w1) q u s) as [answer|e]; reflexivity.
Qed.

Lemma chunk_text_ink (text : option str) (B : Z) :
  Forall has_ink (chunk_text text B).
Proof.
  destruct text as [t|]; [|constructor].
  unfold chunk_text; destruct (negb (nonempty t)); [constructor|].
  apply chunk_loop_ink, packed_nil.
Qed.

End StreamFacts.

Section StreamClaims.

Import Service.

Variable float : Type.
Variable E : env float.
Variable R : Retriever.t.

(** C1 (amended). The events of a streamed request are: the single
    event error when initialising the chatbot raises; start, error when
    the orchestrator raises; otherwise start, the chunks of
    [chunk_text(answer, 30)] in order, done. So there is at most one
    start, first when present; exactly one terminal event, done or
    error, which is last; and no chunk event comes with an error. The
    chunk contents concatenated are the sentences of the answer joined
    by single spaces; for an answer that contains no [|] they have the
    same whitespace-separated words as the answer. *)
Theorem sse_event_order (q u s : value) (w : world float) :
  let events := events_of (generate_sse_response E R q u s) w in
  let init := initialize_chatbot E R w in
  match snd init with
  | Raise e => events = [EvError e]
  | Ok _ =>
      match bot_query E (calls (fst init)) q u s with
      | Raise e => events = [EvStart; EvError e]
      | Ok answer =>
          events = EvStart :: List.map EvChunk (chunk_text answer 30)
                     ++ [EvDone]
          /\ chunk_contents events = chunk_text answer 30
          /\ forall t,
               answer = Some t ->
               List.concat (chunk_contents events)
               = join c_space (sentences_of (split_sentences t))
               /\ (mem c_pipe t = false ->
                   words (List.concat (chunk_contents events)) = words t)
      end
  end
  /\ (filter is_start events = []
      \/ exists rest, events = EvStart :: rest /\ filter is_start rest = [])
  /\ (exists body term,
        events = body ++ [term]
        /\ is_terminal term = true
        /\ filter is_terminal body = []
        /\ (is_error term = true -> chunk_contents events = [])).
Proof.
  cbv zeta; pose proof (stream_events _ E R q u s w) as H; cbv zeta in H.
  destruct (snd (initialize_chatbot E R w)) as [[]|e].
  - destruct (bot_query E (calls (fst (initialize_chatbot E R w))) q u s)
      as [answer|e]; rewrite H.
    + assert (Hc : chunk_contents
                     (EvStart :: List.map EvChunk (chunk_text answer 30)
                        ++ [EvDone]) = chunk_text answer 30).
      { simpl; rewrite chunk_contents_chunks; simpl; apply app_nil_r. }
      split; [split; [reflexivity | split; [exact Hc|]]|split].
      * intros t ->; rewrite Hc; split;
          [apply chunk_text_concat | apply chunk_text_words].
      * right; eexists; split; [reflexivity|].
        rewrite filter_app, filter_chunks by reflexivity; reflexivity.
      * exists (EvStart :: List.map EvChunk (chunk_text answer 30)), EvDone.
        split; [reflexivity | split; [reflexivity | split]].
        -- simpl; apply filter_chunks; reflexivity.
        -- discriminate.
    + split; [reflexivity | split].
      * right; eexists; split; reflexivity.
      * exists [EvStart], (EvError e); repeat split.
  - rewrite H; split; [reflexivity | split].
    + left; reflexivity.
    + exists [], (EvError e); repeat split.
Qed.

(** C9. Every chunk that [chunk_text] yields, for every text and every
    budget, has a character that is not whitespace; so the content of
    every chunk event of a stream is not empty. *)
Theorem chunks_have_ink (text : option str) (B : Z)
        (q user_id session_id : value) (w : world float) :
  Forall has_ink (chunk_text text B)
  /\ Forall (fun c => has_ink c /\ c <> [])
            (chunk_contents
               (events_of (generate_sse_response E R q user_id session_id)
                          w)).
Proof.
  split; [apply chunk_text_ink|].
  pose proof (stream_events _ E R q user_id session_id w) as H.
  cbv zeta in H.
  destruct (snd (initialize_chatbot E R w)).
  - destruct (bot_query E _ q user_id session_id) as [answer|e];
      rewrite H; [|constructor].
    simpl; rewrite chunk_contents_chunks; simpl; rewrite app_nil_r.
    eapply Forall_impl; [|apply chunk_text_ink].
    intros c Hc; split; [exact Hc | apply has_ink_nonempty, Hc].
  - rewrite H; constructor.
Qed.

(** C10. When the chatbot is initialised and the orchestrator returns
    [None] or the empty string, [chunk_text] yields nothing and the
    stream is start, done. *)
Theorem empty_answer_stream (q u s : value) (w : world float)
        (answer : option str) :
  snd (initialize_chatbot E R w) = Ok tt ->
  bot_query E (calls (fst (initialize_chatbot E R w))) q u s = Ok answer ->
  answer = None \/ answer = Some [] ->
  chunk_text answer 30 = []
  /\ events_of (generate_sse_response E R q u s) w = [EvStart; EvDone].
Proof.
  intros Hi Hq Ha.
  assert (Hc : chunk_text answer 30 = [])
    by (destruct Ha as [-> | ->]; reflexivity).
  split; [exact Hc|].
  pose proof (stream_events _ E R q u s w) as H; cbv zeta in H.
  rewrite Hi, Hq, Hc in H; exact H.
Qed.

End StreamClaims.

Section WarmUpClaims.

Import Service.

Variable float : Type.
Variable E : env float.
Variable R : Retriever.t.

(** C6. The warm-up cannot warm. [bot.retriever] is a [Retriever],
    which has no attribute [embedder]: in every world the lookup raises
    inside the [try] before [encode] is called, the handler swallows the
    error, and [pre_warm_pipeline] returns with nothing called and the
    flag as it was; so an initialisation leaves the flag as it was too.
    In particular, at process start and with collaborators that would
    all return, the initialisation constructs the chatbot and calls
    neither [encode] nor the vector search; the flag is false after it,
    a further warm-up does not set it, and the health check reports a
    chatbot that is initialised and a pipeline that is not warmed. *)
Theorem pre_warm_never_warms (w : world float) :
  Retriever.has_attribute "embedder" = false
  /\ pre_warm_pipeline E R w = (w, Ok tt)
  /\ is_warmed_up (fst (initialize_chatbot E R w)) = is_warmed_up w
  /\ (let E0 :=
        Samples.sample_env true true true true true [Samples.sample_hit]
                           (Ok None) in
      let w1 :=
        fst (initialize_chatbot E0 Samples.sample_retriever process_start) in
      w1 = {| chatbot_set := true;
              is_warmed_up := false;
              calls := [CallRAGChatbot] |}
      /\ pre_warm_pipeline E0 Samples.sample_retriever w1 = (w1, Ok tt)
      /\ snd (health w1) = Ok (true, false)).
Proof.
  split; [reflexivity|].
  split; [apply pre_warm_no_op|].
  split; [|cbv zeta; repeat split].
  unfold initialize_chatbot, bind at 1, read.
  destruct (chatbot_set w); [reflexivity|].
  cbv beta iota zeta delta [bind perform set_chatbot].
  destruct (new_RAGChatbot E (calls w)) as [[]|e]; [|reflexivity].
  rewrite pre_warm_no_op; reflexivity.
Qed.

End WarmUpClaims.

Section ServiceExamples.

Import Service Samples.

(** [sse_event_order] at an answer of two sentences. *)
Lemma sse_event_order_witness :
  words (List.concat
           (chunk_contents
              (events_of
                 (generate_sse_response
                    (sample_env true true true true true []
                                (Ok (Some (py "Hi there.  Bye now."))))
                    sample_retriever (VStr (py "hello")) u1 s1)
                 process_start)))
  = words (py "Hi there.  Bye now.").
Proof.
  pose proof (sse_event_order unit
                (sample_env true true true true true []
                            (Ok (Some (py "Hi there.  Bye now."))))
                sample_retriever (VStr (py "hello")) u1 s1 process_start)
    as [H _].
  cbv zeta in H.
  change (snd (initialize_chatbot _ sample_retriever process_start))
    with (@Ok unit tt) in H.
  cbv iota in H.
  change (bot_query _ _ (VStr (py "hello")) u1 s1)
    with (@Ok (option str) (Some (py "Hi there.  Bye now."))) in H.
  cbv iota in H.
  destruct H as (_ & _ & H).
  exact (proj2 (H (py "Hi there.  Bye now.") eq_refl) eq_refl).
Defined.

(** C1, as stated, fails. When constructing the chatbot raises, the
    stream is a single error event and has no start event. And for the
    answer [a.  b], which has no trailing whitespace, the chunks
    concatenated are [a. b]; for the answer [a|b] they are [a b]. *)
Lemma sse_event_order_counterexample :
  let failing := sample_env false true true true true [] (Ok None) in
  let answering (a : string) :=
    sample_env true true true true true [] (Ok (Some (py a))) in
  let stream E :=
    events_of (generate_sse_response E sample_retriever (VStr (py "hello"))
                                      u1 s1) process_start in
  stream failing = [EvError failure]
  /\ filter is_start (stream failing) = []
  /\ stream (answering "a.  b"%string)
     = [EvStart; EvChunk (py "a. b"); EvDone]
  /\ rstrip (py "a. b") <> rstrip (py "a.  b")
  /\ stream (answering "a|b"%string)
     = [EvStart; EvChunk (py "a b"); EvDone]
  /\ rstrip (py "a b") <> rstrip (py "a|b").
Proof.
  cbv zeta; repeat split; try reflexivity;
    vm_compute; intros H; discriminate H.
Qed.

(** [empty_answer_stream] at the empty answer. *)
Lemma empty_answer_stream_witness :
  events_of (generate_sse_response
               (sample_env true true true true true [] (Ok (Some [])))
               sample_retriever (VStr (py "hello")) u1 s1) process_start
  = [EvStart; EvDone].
Proof.
  apply (empty_answer_stream unit
           (sample_env true true true true true [] (Ok (Some [])))
           sample_retriever (VStr (py "hello")) u1 s1 process_start
           (Some [])).
  - reflexivity.
  - reflexivity.
  - right; reflexivity.
Defined.

End ServiceExamples.

Section QueryFacts.

Import Service.

Variable float : Type.
Variable E : env float.
Variable R : Retriever.t.

(** The [/query] handler on a body that decodes to an object, step by
    step. *)
Lemma query_run (d : dict) (w : world float) :
  let u := lookup (py "user_id") VNone d in
  let s := lookup (py "session_id") VNone d in
  let q := lookup (py "query") VNone d in
  Service.query E R (Ok (VDict d)) w =
  if negb (truthy u) || negb (truthy s) then (w, Ok ids_required)
  else if negb (truthy q) then (w, Ok query_required)
  else
    match q with
    | VStr t =>
        if negb (nonempty (strip t)) then (w, Ok query_required)
        else
          match initialize_chatbot E R w with
          | (w1, Raise e) => (w1, Ok (internal_error e))
          | (w1, Ok _) =>
              let w2 := add_calls w1 [CallBotQuery q u s] in
              match bot_query E (calls w1) q u s with
              | Raise e => (w2, Ok (internal_error e))
              | Ok response =>
                  (w2, Ok {| status := 200;
                             json := QueryBody response s |})
              end
          end
    | _ => (w, Ok (internal_error (attribute_error q "strip")))
    end.
Proof.
  cbv zeta; unfold Service.query.
  cbv beta iota zeta delta [try_except bind of_result dict_get ret].
  destruct (negb (truthy (lookup (py "user_id") VNone d))
            || negb (truthy (lookup (py "session_id") VNone d)));
    [reflexivity|].
  unfold query_is_blank.
  destruct (negb (truthy (lookup (py "query") VNone d))); [reflexivity|].
  cbv beta iota zeta delta [bind str_strip ret raise].
  destruct (lookup (py "query") VNone d) as [| | |t| |]; try reflexivity.
  destruct (negb (nonempty (strip t))); [reflexivity|].
  cbv beta iota zeta delta [negb query_bot perform].
  destruct (initialize_chatbot E R w) as [w1 [[]|e]]; [|reflexivity].
  destruct (bot_query E (calls w1) (VStr t) _ _); reflexivity.
Qed.

Lemma query_undecodable (e : exn) (w : world float) :
  Service.query E R (Raise e) w = (w, Ok (internal_error e)).
Proof. reflexivity. Qed.

Lemma query_not_object (data : value) (w : world float) :
  (forall d, data <> VDict d) ->
  Service.query E R (Ok data) w
  = (w, Ok (internal_error (attribute_error data "get"))).
Proof.
  intros H; destruct data; try reflexivity.
  exfalso; eapply H; reflexivity.
Qed.

Lemma strip_incl (t : str) (c : char) : In c (strip t) -> In c t.
Proof.
  intros Hc; unfold strip in Hc.
  destruct (lstrip_split t) as (sp & Ht & _).
  destruct (rstrip_split (lstrip t)) as (sp' & Hl & _).
  rewrite Ht; apply in_or_app; right.
  rewrite Hl; apply in_or_app; left; exact Hc.
Qed.

Lemma strip_ink (t : str) : strip t <> [] -> has_ink t.
Proof.
  intros H; destruct (tight_has_ink _ (strip_tight _ H)) as (c & Hin & Hc).
  exists c; split; [apply strip_incl, Hin | exact Hc].
Qed.

End QueryFacts.

Section QueryClaims.

Import Service.

Variable float : Type.
Variable E : env float.
Variable R : Retriever.t.

Lemma no_new_calls (h new : list (call float)) : h = h ++ new -> new = [].
Proof.
  intros H; apply (app_inv_head h); rewrite app_nil_r; symmetry; exact H.
Qed.

(** C5 (amended). The [/query] handler always answers. It answers 400
    when [user_id] or [session_id] is missing or falsy (empty), and,
    with both present, 400 "query is required" when the query is
    missing, empty or whitespace only; in both cases nothing is called.
    A body that does not decode, and a failure of the initialisation or
    of the orchestrator, give 500 with the error message. The
    orchestrator is reached only with [user_id] and [session_id]
    present and not empty and a query that has a character that is not
    whitespace; an identifier made of whitespace only does not stop the
    request. *)
Theorem query_validation (request_json : result value) (w : world float) :
  let run := Service.query E R request_json w in
  (exists resp, snd run = Ok resp)
  /\ (forall e, request_json = Raise e -> run = (w, Ok (internal_error e)))
  /\ (forall d,
        request_json = Ok (VDict d) ->
        let u := lookup (py "user_id") VNone d in
        let s := lookup (py "session_id") VNone d in
        let q := lookup (py "query") VNone d in
        (truthy u = false \/ truthy s = false ->
         run = (w, Ok ids_required))
        /\ (truthy u = true -> truthy s = true ->
            truthy q = false \/ (exists t, q = VStr t /\ strip t = []) ->
            run = (w, Ok query_required))
        /\ (truthy u = true -> truthy s = true ->
            forall t, q = VStr t -> strip t <> [] ->
            let init := initialize_chatbot E R w in
            match snd init with
            | Raise e => snd run = Ok (internal_error e)
            | Ok _ =>
                match bot_query E (calls (fst init)) q u s with
                | Raise e => snd run = Ok (internal_error e)
                | Ok response =>
                    snd run = Ok {| status := 200;
                                    json := QueryBody response s |}
                end
            end))
  /\ (forall new,
        calls (fst run) = calls w ++ new ->
        count (@is_bot_query float) new <> 0%nat ->
        exists d t,
          request_json = Ok (VDict d)
          /\ truthy (lookup (py "user_id") VNone d) = true
          /\ truthy (lookup (py "session_id") VNone d) = true
          /\ lookup (py "query") VNone d = VStr t
          /\ has_ink t).
Proof.
  cbv zeta; split; [|split; [|split]].
  - destruct request_json as [data|e];
      [|rewrite query_undecodable; eexists; reflexivity].
    destruct data as [| | | | |d];
      try (rewrite query_not_object by discriminate; eexists; reflexivity).
    rewrite query_run; cbv zeta.
    destruct (negb _ || negb _); [eexists; reflexivity|].
    destruct (negb (truthy _)); [eexists; reflexivity|].
    destruct (lookup (py "query") VNone d); try (eexists; reflexivity).
    destruct (negb (nonempty _)); [eexists; reflexivity|].
    destruct (initialize_chatbot E R w) as [w1 [[]|e]];
      [|eexists; reflexivity].
    destruct (bot_query E _ _ _ _); eexists; reflexivity.
  - intros e ->; apply query_undecodable.
  - intros d ->; rewrite query_run; cbv zeta; split; [|split].
    + intros [H | H]; rewrite H; [reflexivity|].
      simpl; rewrite orb_true_r; reflexivity.
    + intros Hu Hs Hq; rewrite Hu, Hs; simpl.
      destruct Hq as [Hq | (t & Hq & Ht)].
      * rewrite Hq; reflexivity.
      * rewrite Hq, Ht; simpl; destruct (negb (nonempty t)); reflexivity.
    + intros Hu Hs t Hq Ht; rewrite Hu, Hs, Hq; simpl.
      assert (Hq' : truthy (VStr t) = true).
      { simpl; destruct t; [exfalso; apply Ht; reflexivity | reflexivity]. }
      simpl in Hq'; rewrite Hq'; simpl.
      apply nonempty_true in Ht; rewrite Ht; simpl.
      destruct (initialize_chatbot E R w) as [w1 [[]|e]]; simpl;
        [|reflexivity].
      destruct (bot_query E (calls w1) (VStr t) _ _); reflexivity.
  - intros new Hnew Hcount.
    destruct request_json as [data|e];
      [|rewrite query_undecodable in Hnew; simpl in Hnew;
        apply no_new_calls in Hnew; subst new; contradiction].
    destruct data as [| | | | |d];
      try (rewrite query_not_object in Hnew by discriminate;
           simpl in Hnew; apply no_new_calls in Hnew; subst new;
           contradiction).
    rewrite query_run in Hnew; cbv zeta in Hnew.
    destruct (truthy (lookup (py "user_id") VNone d)) eqn:Hu;
      [|simpl in Hnew; apply no_new_calls in Hnew; subst new;
        contradiction].
    destruct (truthy (lookup (py "session_id") VNone d)) eqn:Hs;
      [|simpl in Hnew; apply no_new_calls in Hnew; subst new;
        contradiction].
    simpl in Hnew.
    destruct (truthy (lookup (py "query") VNone d)) eqn:Hq;
      [|simpl in Hnew; apply no_new_calls in Hnew; subst new;
        contradiction].
    simpl in Hnew.
    destruct (lookup (py "query") VNone d) as [| | |t| |] eqn:Hqv;
      try (simpl in Hnew; apply no_new_calls in Hnew; subst new;
           contradiction).
    destruct (nonempty (strip t)) eqn:Ht;
      [|simpl in Hnew; apply no_new_calls in Hnew; subst new;
        contradiction].
    exists d, t; repeat split; auto.
    apply strip_ink, nonempty_true, Ht.
Qed.

End QueryClaims.

Section QueryExamples.

Import Service Samples.

(** [query_validation] at the request with the empty query. *)
Lemma query_validation_witness :
  Service.query (sample_env true true true true true []
                            (Ok (Some (py "Hello."))))
                sample_retriever (Ok (request_body u1 s1 (VStr [])))
                process_start
  = (process_start, Ok query_required).
Proof.
  apply (proj1 (proj2 (proj1 (proj2 (proj2
           (query_validation unit
              (sample_env true true true true true []
                          (Ok (Some (py "Hello."))))
              sample_retriever (Ok (request_body u1 s1 (VStr [])))
              process_start)))
           _ eq_refl))).
  - reflexivity.
  - reflexivity.
  - left; reflexivity.
Defined.

(** C5, as stated, fails: a request whose [user_id] and [session_id] are
    a single space is not answered 400; it reaches the orchestrator and
    is answered 200. *)
Lemma query_blank_ids_counterexample :
  let blank := VStr (py " ") in
  let run :=
    Service.query (sample_env true true true true true []
                              (Ok (Some (py "Hello."))))
                  sample_retriever
                  (Ok (request_body blank blank (VStr (py "hi"))))
                  process_start in
  strip (py " ") = []
  /\ snd run = Ok {| status := 200;
                     json := QueryBody (Some (py "Hello.")) blank |}
  /\ filter (@is_bot_query unit) (calls (fst run))
     = [CallBotQuery (VStr (py "hi")) blank blank].
Proof. cbv zeta; repeat split. Qed.

End QueryExamples.

Section ChunkClaims.

(** What [chunk_text] does for a text that contains no [|] and any
    budget: it cuts the text only at a space that follows [.], [!] or
    [?]; the pieces, stripped, the empty ones dropped, are the
    sentences; the chunks are consecutive groups of whole sentences
    joined by single spaces, each chunk but the last followed by one
    more space; a group, that trailing space not counted, is within the
    budget or is a single sentence, and a group is closed only when the
    next sentence would not fit; the chunks concatenated have the same
    whitespace-separated words as the text. The text of the
    specification's example gives the three chunks of its three
    sentences. *)
Theorem chunk_text_sentences (t : str) (B : Z) :
  mem c_pipe t = false ->
  join c_space (split_sentences t) = t
  /\ Forall ends_sentence (removelast (split_sentences t))
  /\ (exists groups,
        List.concat groups = sentences_of (split_sentences t)
        /\ Forall (fun g => g <> [] /\ fits B g) groups
        /\ greedy B groups
        /\ chunk_text (Some t) B = render groups)
  /\ words (List.concat (chunk_text (Some t) B)) = words t
  /\ chunk_text
       (Some (py "This is a test. Another sentence! And one more?")) 30
     = [py "This is a test. "; py "Another sentence! "; py "And one more?"].
Proof.
  intros Ht; split; [|split; [|split; [|split]]].
  - apply join_split_sentences, Ht.
  - apply split_sentences_boundaries, Ht.
  - apply chunk_text_groups.
  - apply chunk_text_words, Ht.
  - reflexivity.
Qed.

(** [chunk_text_sentences] at the text of the specification's example. *)
Lemma chunk_text_sentences_witness :
  words (List.concat
           (chunk_text
              (Some (py "This is a test. Another sentence! And one more?"))
              30))
  = words (py "This is a test. Another sentence! And one more?").
Proof.
  apply (proj1 (proj2 (proj2 (proj2
           (chunk_text_sentences
              (py "This is a test. Another sentence! And one more?") 30
              eq_refl))))).
Defined.

(** C4. The budget is exceeded by a chunk of two sentences. With
    budget 30, the sentences of 14 and 15 characters pass the test of
    the loop, which adds their lengths and the one space between them
    but not the space appended after the second: 15 + 15 is not more
    than 30, and the chunk that is yielded has 31 characters. And a
    text with a [|] is cut there, at a place that is no sentence
    boundary, and the [|] is lost. *)
Theorem chunk_text_over_budget :
  let text := py "aaaaaaaaaaaaa. bbbbbbbbbbbbbb. c." in
  let first := py "aaaaaaaaaaaaa. bbbbbbbbbbbbbb. " in
  sentences_of (split_sentences text)
  = [py "aaaaaaaaaaaaa."; py "bbbbbbbbbbbbbb."; py "c."]
  /\ chunk_text (Some text) 30 = [first; py "c."]
  /\ len first = 31%Z
  /\ (len (py "aaaaaaaaaaaaa. ") + len (py "bbbbbbbbbbbbbb.") >? 30)%Z
     = false
  /\ chunk_text (Some (py "a|b")) 30 = [py "a b"]
  /\ words (py "a b") <> words (py "a|b").
Proof.
  cbv zeta; repeat split; try reflexivity.
  vm_compute; intros H; discriminate H.
Qed.

End ChunkClaims.

(* ================================================================== *)
(** * Further properties: the context handed to the prompt *)
(* ================================================================== *)

Section ContextFacts.

Import Context.

Variable float : Type.
Variable str_of : value -> str.

Lemma join_str_cons (sep s h : str) (t : list str) :
  join_str sep (s :: h :: t) = s ++ sep ++ join_str sep (h :: t).
Proof. reflexivity. Qed.

Lemma join_str_app (sep : str) (l1 l2 : list str) :
  l1 <> [] -> l2 <> [] ->
  join_str sep (l1 ++ l2) = join_str sep l1 ++ sep ++ join_str sep l2.
Proof.
  intros H1 H2; induction l1 as [|a [|b l1] IH]; [congruence| |].
  - destruct l2 as [|c l2]; [congruence | reflexivity].
  - change ((a :: b :: l1) ++ l2) with (a :: b :: (l1 ++ l2)).
    rewrite !join_str_cons.
    change (b :: l1 ++ l2) with ((b :: l1) ++ l2).
    rewrite IH by discriminate.
    rewrite <- !app_assoc; reflexivity.
Qed.

Lemma occurs_in_refl (a : str) : occurs_in a a.
Proof. exists [], []; rewrite app_nil_r; reflexivity. Qed.

Lemma occurs_in_app_l (a b c : str) : occurs_in a b -> occurs_in a (b ++ c).
Proof.
  intros (pre & post & ->); exists pre, (post ++ c).
  rewrite <- !app_assoc; reflexivity.
Qed.

Lemma occurs_in_app_r (a b c : str) : occurs_in a c -> occurs_in a (b ++ c).
Proof.
  intros (pre & post & ->); exists (b ++ pre), post.
  rewrite <- !app_assoc; reflexivity.
Qed.

Lemma occurs_in_join (sep s : str) (l : list str) :
  In s l -> occurs_in s (join_str sep l).
Proof.
  induction l as [|a [|b l] IH]; intros Hin; [destruct Hin| |].
  - destruct Hin as [-> | []]; apply occurs_in_refl.
  - rewrite join_str_cons; destruct Hin as [-> | Hin].
    + apply occurs_in_app_l, occurs_in_refl.
    + apply occurs_in_app_r, occurs_in_app_r, IH, Hin.
Qed.

Lemma occurs_in_trans (a b c : str) :
  occurs_in a b -> occurs_in b c -> occurs_in a c.
Proof.
  intros (p1 & q1 & ->) (p2 & q2 & ->).
  exists (p2 ++ p1), (q1 ++ q2); rewrite <- !app_assoc; reflexivity.
Qed.

Lemma formatted_chunk_content (d : Retriever.doc float) :
  occurs_in (py "Content:" ++ [c_newline]
               ++ str_of (Retriever.content d) ++ [c_newline])
            (formatted_chunk str_of d).
Proof.
  unfold formatted_chunk; cbv zeta.
  do 9 apply occurs_in_app_r.
  apply occurs_in_refl.
Qed.

Lemma formatted_chunk_head (d : Retriever.doc float) :
  exists rest, formatted_chunk str_of d = py "[Company]: " ++ rest.
Proof. unfold formatted_chunk; cbv zeta; eexists; reflexivity. Qed.

Lemma format_cons (d : Retriever.doc float)
      (l : list (Retriever.doc float)) :
  format_retrieved_context str_of (d :: l)
  = join_str separator (List.map (formatted_chunk str_of) (d :: l)).
Proof. reflexivity. Qed.

(** X1. The context is the empty string exactly when there is no
    document; otherwise it starts with the company label of the first
    document. *)
Theorem format_context_empty_iff (docs : list (Retriever.doc float)) :
  (format_retrieved_context str_of docs = [] <-> docs = [])
  /\ (docs <> [] ->
      exists rest,
        format_retrieved_context str_of docs = py "[Company]: " ++ rest).
Proof.
  assert (H : docs <> [] ->
              exists rest,
                format_retrieved_context str_of docs
                = py "[Company]: " ++ rest).
  { destruct docs as [|d [|d' l]]; intros Hne; [congruence| |].
    - apply formatted_chunk_head.
    - rewrite format_cons.
      change (List.map (formatted_chunk str_of) (d :: d' :: l))
        with (formatted_chunk str_of d
                :: List.map (formatted_chunk str_of) (d' :: l)).
      cbn [List.map]; rewrite join_str_cons.
      destruct (formatted_chunk_head d) as (rest & ->).
      rewrite <- app_assoc; eexists; reflexivity. }
  split; [|exact H].
  split; [|intros ->; reflexivity].
  intros Hnil; destruct docs as [|d l]; [reflexivity|].
  destruct (H ltac:(discriminate)) as (rest & Hr).
  rewrite Hr in Hnil; discriminate Hnil.
Qed.

(** X2. The context contains, for every document, its content as
    [str()] renders it, on the line after the label [Content:]; when
    the content is a string and [str()] leaves strings alone, the
    context contains that string. *)
Theorem format_context_contains_content
        (docs : list (Retriever.doc float)) :
  Forall (fun d =>
            occurs_in (py "Content:" ++ [c_newline]
                         ++ str_of (Retriever.content d) ++ [c_newline])
                      (format_retrieved_context str_of docs))
         docs
  /\ ((forall s, str_of (VStr s) = s) ->
      forall d s,
        In d docs -> Retriever.content d = VStr s ->
        occurs_in s (format_retrieved_context str_of docs)).
Proof.
  assert (H : forall d, In d docs ->
                occurs_in (py "Content:" ++ [c_newline]
                             ++ str_of (Retriever.content d) ++ [c_newline])
                          (format_retrieved_context str_of docs)).
  { intros d Hin; destruct docs as [|d0 l]; [destruct Hin|].
    rewrite format_cons.
    eapply occurs_in_trans; [apply formatted_chunk_content|].
    apply occurs_in_join, in_map, Hin. }
  split; [apply Forall_forall; exact H|].
  intros Hstr d s Hin Hc.
  eapply occurs_in_trans; [|apply (H d Hin)].
  rewrite Hc, Hstr.
  apply occurs_in_app_r, occurs_in_app_r, occurs_in_app_l, occurs_in_refl.
Qed.

(** X3. Contexts compose: the context of two lists of documents put
    together, neither empty, is their contexts joined by the separator
    line. *)
Theorem format_context_app (a b : list (Retriever.doc float)) :
  a <> [] -> b <> [] ->
  format_retrieved_context str_of (a ++ b)
  = format_retrieved_context str_of a ++ separator
      ++ format_retrieved_context str_of b.
Proof.
  intros Ha Hb.
  destruct a as [|da la]; [congruence|].
  destruct b as [|db lb]; [congruence|].
  change ((da :: la) ++ db :: lb) with (da :: (la ++ db :: lb)).
  rewrite !format_cons.
  change (da :: la ++ db :: lb) with ((da :: la) ++ db :: lb).
  rewrite map_app; apply join_str_app; discriminate.
Qed.

End ContextFacts.

(* ================================================================== *)
(** * Further properties: the documents of [retrieve] *)
(* ================================================================== *)

Section DocumentFacts.

Variable float : Type.
Variable E : env float.
Variable self : Retriever.t.

Lemma format_results_option (hits : list (ScoredPoint float))
      (w : world float) :
  Retriever.format_results hits w
  = (w, match docs_of_hits hits with
        | Some ds => Ok ds
        | None => Raise (attribute_error VNone "pop")
        end).
Proof.
  revert w; induction hits as [|h hs IH]; intros w; [reflexivity|].
  simpl; unfold bind, Retriever.format_result.
  destruct (payload h) as [p|]; [|reflexivity].
  unfold ret at 1; rewrite IH.
  destruct (docs_of_hits hs); reflexivity.
Qed.

Lemma formatted_option (hits : list (ScoredPoint float)) :
  formatted hits
  = match docs_of_hits hits with Some ds => ds | None => [] end.
Proof.
  unfold formatted; rewrite format_results_option; simpl.
  destruct (docs_of_hits hits); reflexivity.
Qed.

Lemma docs_of_hits_none (hits : list (ScoredPoint float)) :
  (exists h, In h hits /\ payload h = None) -> docs_of_hits hits = None.
Proof.
  intros (h & Hin & Hp); induction hits as [|h0 hs IH]; [destruct Hin|].
  simpl; destruct Hin as [-> | Hin].
  - rewrite Hp; reflexivity.
  - rewrite (IH Hin); destruct (payload h0); reflexivity.
Qed.

Lemma docs_of_hits_some (hits : list (ScoredPoint float)) :
  Forall (fun h => payload h <> None) hits ->
  exists ds,
    docs_of_hits hits = Some ds
    /\ Forall2 (fun h d =>
                  exists p, payload h = Some p /\ d = doc_of_hit p (score h))
               hits ds.
Proof.
  induction 1 as [|h hs Hh _ (ds & Hds & IH)].
  - exists []; split; [reflexivity | constructor].
  - simpl; destruct (payload h) as [p|] eqn:Hp; [|congruence].
    rewrite Hds; eexists; split; [reflexivity|].
    constructor; [exists p; auto | exact IH].
Qed.

Lemma docs_of_hits_all (hits : list (ScoredPoint float))
      (ds : list (Retriever.doc float)) :
  docs_of_hits hits = Some ds ->
  Forall (fun d => exists p sc, d = doc_of_hit p sc) ds
  /\ Forall (fun h => payload h <> None) hits.
Proof.
  revert ds; induction hits as [|h hs IH]; intros ds Hds; simpl in Hds.
  - injection Hds as <-; split; constructor.
  - destruct (payload h) as [p|] eqn:Hp; [|discriminate].
    destruct (docs_of_hits hs) as [ds'|]; [|discriminate].
    injection Hds as <-; destruct (IH ds' eq_refl) as [H1 H2].
    split; constructor; eauto; congruence.
Qed.

Lemma getitem_remove (k : str) (d : dict) : getitem k (remove k d) = None.
Proof.
  unfold remove; induction d as [|[k' v] d IH]; simpl; [reflexivity|].
  destruct (str_eqb k k') eqn:Hk; simpl; [exact IH|].
  rewrite Hk; exact IH.
Qed.

Lemma getitem_remove_other (k k' : str) (d : dict) :
  k' <> k -> getitem k' (remove k d) = getitem k' d.
Proof.
  intros Hne; unfold remove; induction d as [|[k0 v] d IH]; simpl;
    [reflexivity|].
  destruct (str_eqb k k0) eqn:Hk; simpl.
  - apply str_eqb_eq in Hk; subst k0.
    destruct (str_eqb k' k) eqn:Hk'; [|exact IH].
    apply str_eqb_eq in Hk'; congruence.
  - rewrite IH; reflexivity.
Qed.

(** What [retrieve] returns: nothing, or the formatted hits of a search
    that returned. *)
Lemma retrieve_result (query : value) (top_k_arg : option Z)
      (filter_by : option dict) (w : world float) :
  snd (Retriever.retrieve E self query top_k_arg filter_by w) = Ok []
  \/ exists hits,
       search_returns E self query top_k_arg filter_by w hits
       /\ snd (Retriever.retrieve E self query top_k_arg filter_by w)
          = Ok (formatted hits).
Proof.
  destruct (truthy query) eqn:Hq.
  2:{ left; unfold Retriever.retrieve; rewrite Hq; reflexivity. }
  rewrite (retrieve_run _ E self query top_k_arg filter_by w Hq); cbv zeta.
  destruct (process_query E (calls w) query) as [processed|e] eqn:Hp;
    [|left; reflexivity].
  destruct (getitem (py "normalized") processed) as [n|] eqn:Hn;
    [|left; reflexivity].
  destruct (getitem (py "keyword_query") processed) as [kq|] eqn:Hk;
    [|left; reflexivity].
  destruct (printable_value query) eqn:Hprint; cbn [negb];
    [|left; reflexivity].
  destruct (generate_embedding E _ _) as [v|e] eqn:Hv; [|left; reflexivity].
  destruct (Retriever.build_filter filter_by) as [qf|e] eqn:Hf;
    [|left; reflexivity].
  destruct (query_points E _ _ _ _ _) as [hits|e] eqn:Hs;
    [|left; reflexivity].
  right; exists hits; split; [|reflexivity].
  split; [exact Hq|].
  exists processed, n, kq, v, qf; repeat split; assumption.
Qed.

(** Where the search returns, [retrieve] returns the formatted hits
    when the query can be printed, and nothing otherwise. *)
Lemma search_returns_result (query : value) (top_k_arg : option Z)
      (filter_by : option dict) (w : world float)
      (hits : list (ScoredPoint float)) :
  search_returns E self query top_k_arg filter_by w hits ->
  snd (Retriever.retrieve E self query top_k_arg filter_by w)
  = Ok (if printable_value query then formatted hits else []).
Proof.
  intros (Hq & processed & n & kq & v & qf & Hp & Hn & Hk & Hv & Hf & Hs).
  rewrite (retrieve_run _ E self query top_k_arg filter_by w Hq); cbv zeta.
  rewrite Hp, Hn, Hk; simpl calls.
  destruct (printable_value query); cbn [negb]; [|reflexivity].
  rewrite Hv, Hf, Hs; reflexivity.
Qed.

(** X4. When the query can be printed and the search returns hits that
    all have a payload, [retrieve] returns one document per hit, in the
    order of the hits: its content is the payload's [content] (the
    empty string when the payload has none), its metadata is the
    payload without the key [content] and with every other key
    unchanged, its score is the hit's. *)
Theorem retrieve_documents (query : value) (top_k_arg : option Z)
        (filter_by : option dict) (w : world float)
        (hits : list (ScoredPoint float)) :
  printable_value query = true ->
  search_returns E self query top_k_arg filter_by w hits ->
  Forall (fun h => payload h <> None) hits ->
  exists docs,
    snd (Retriever.retrieve E self query top_k_arg filter_by w) = Ok docs
    /\ Forall2
         (fun h d =>
            exists p,
              payload h = Some p
              /\ Retriever.content d = lookup (py "content") (VStr []) p
              /\ getitem (py "content") (Retriever.metadata d) = None
              /\ (forall k, k <> py "content" ->
                            getitem k (Retriever.metadata d) = getitem k p)
              /\ Retriever.similarity_score d = score h)
         hits docs.
Proof.
  intros Hprint Hs Hall.
  rewrite (search_returns_result _ _ _ _ _ Hs), Hprint.
  destruct (docs_of_hits_some hits Hall) as (ds & Hds & H2).
  exists ds; rewrite formatted_option, Hds; split; [reflexivity|].
  eapply Forall2_impl; [|exact H2].
  intros h d (p & Hp & ->); exists p; repeat split; auto.
  - apply getitem_remove.
  - intros k Hk; apply getitem_remove_other, Hk.
Qed.

(** X5. One hit without payload loses every hit: when the search
    returns hits of which one has no payload, [retrieve] returns the
    empty list. *)
Theorem retrieve_bare_hit (query : value) (top_k_arg : option Z)
        (filter_by : option dict) (w : world float)
        (hits : list (ScoredPoint float)) (h : ScoredPoint float) :
  search_returns E self query top_k_arg filter_by w hits ->
  In h hits -> payload h = None ->
  snd (Retriever.retrieve E self query top_k_arg filter_by w) = Ok [].
Proof.
  intros Hs Hin Hp; rewrite (search_returns_result _ _ _ _ _ Hs).
  destruct (printable_value query); [|reflexivity].
  rewrite formatted_option, docs_of_hits_none; [reflexivity|].
  exists h; auto.
Qed.

(** X6. No document that [retrieve] returns, whatever its arguments and
    whatever the collaborators do, has the key [content] in its
    metadata. *)
Theorem retrieve_metadata_without_content (query : value)
        (top_k_arg : option Z) (filter_by : option dict)
        (w : world float) :
  exists docs,
    snd (Retriever.retrieve E self query top_k_arg filter_by w) = Ok docs
    /\ Forall (fun d => getitem (py "content") (Retriever.metadata d) = None)
              docs.
Proof.
  destruct (retrieve_result query top_k_arg filter_by w)
    as [H | (hits & _ & H)]; rewrite H.
  - exists []; split; [reflexivity | constructor].
  - exists (formatted hits); split; [reflexivity|].
    rewrite formatted_option.
    destruct (docs_of_hits hits) as [ds|] eqn:Hds; [|constructor].
    destruct (docs_of_hits_all _ _ Hds) as [Hall _].
    eapply Forall_impl; [|exact Hall].
    intros d (p & sc & ->); apply getitem_remove.
Qed.

Lemma conditions_of_accepted (d : dict) :
  Forall (fun kv => Retriever.accepted (snd kv) = true) d ->
  exists conditions,
    Retriever.conditions_of d = Ok conditions
    /\ List.map (fun c => (fc_key c, fc_match c)) conditions = d.
Proof.
  induction 1 as [|[k v] d Hv _ (cs & Hcs & Hmap)].
  - exists []; split; reflexivity.
  - cbn [snd] in Hv; cbn [Retriever.conditions_of].
    unfold Retriever.match_value; rewrite Hv, Hcs.
    eexists; split; [reflexivity|].
    cbn [List.map fc_key fc_match]; rewrite Hmap; reflexivity.
Qed.

Lemma conditions_of_refused (d : dict) :
  Exists (fun kv => Retriever.accepted (snd kv) = false) d ->
  Retriever.conditions_of d = Raise Retriever.validation_error.
Proof.
  induction d as [|[k v] d IH]; intros H; [inversion H|].
  cbn [Retriever.conditions_of]; unfold Retriever.match_value.
  destruct (Retriever.accepted v) eqn:Hv; [|reflexivity].
  rewrite IH; [reflexivity|].
  inversion H as [? ? Hhd | ? ? Htl]; subst; [|exact Htl].
  cbn [snd] in Hhd; congruence.
Qed.

Lemma build_filter_refused (d : dict) :
  Exists (fun kv => Retriever.accepted (snd kv) = false) d ->
  Retriever.build_filter (Some d) = Raise Retriever.validation_error.
Proof.
  intros H; destruct d as [|kv d]; [inversion H|].
  unfold Retriever.build_filter; rewrite (conditions_of_refused _ H).
  reflexivity.
Qed.

(** Closes the cases of [retrieve_call_order] in which [retrieve] stops
    after its first call. *)
Ltac stopped_after_first Hnone Hsome :=
  eexists; split; [reflexivity|];
  split; [discriminate|]; split; [|split; [exact Hnone|split]];
  [intros _; split; [discriminate|]
  |exact Hsome
  |intros ? _ _; split; reflexivity];
  exists VNone, []; destruct (Retriever.build_filter _);
  (eexists; split; [reflexivity | split; simpl; intros; lia]).

(** X7. The calls of [retrieve] are a beginning of: process the query,
    embed the search text, search the collection of the retriever with
    the explicit [top_k] (also 0) or else the default, and the filter
    built from [filter_by]. It calls nothing for a falsy query and
    something otherwise. The text that is embedded is the keyword query
    of the processed query when it is truthy and else the normalized
    query, and the vector that is searched is the one the embedding
    generator returned. The filter is absent when [filter_by] is [None]
    or empty; when every value of [filter_by] is a bool, an int or a
    string it requires every item, in order; and when some value is
    [None], a list or a dict, the filter cannot be built: the search is
    never called and [retrieve] returns the empty list. *)
Theorem retrieve_call_order (query : value) (top_k_arg : option Z)
        (filter_by : option dict) (w : world float) :
  exists new,
    fst (Retriever.retrieve E self query top_k_arg filter_by w)
    = add_calls w new
    /\ (truthy query = false -> new = [])
    /\ (truthy query = true ->
        new <> []
        /\ exists search_query v rest,
             match Retriever.build_filter filter_by with
             | Ok query_filter =>
                 new ++ rest
                 = retrieve_calls self query search_query v top_k_arg
                                  query_filter
             | Raise _ =>
                 new ++ rest
                 = [ CallProcessQuery query;
                     CallGenerateEmbedding search_query ]
             end
             /\ (2 <= List.length new ->
                 exists processed n kq,
                   process_query E (calls w) query = Ok processed
                   /\ getitem (py "normalized") processed = Some n
                   /\ getitem (py "keyword_query") processed = Some kq
                   /\ search_query = if truthy kq then kq else n)
             /\ (List.length new = 3%nat ->
                 generate_embedding E (calls w ++ [CallProcessQuery query])
                                    search_query = Ok v))
    /\ (filter_by = None \/ filter_by = Some [] ->
        Retriever.build_filter filter_by = Ok None)
    /\ (forall d,
          filter_by = Some d -> d <> [] ->
          Forall (fun kv => Retriever.accepted (snd kv) = true) d ->
          exists flt,
            Retriever.build_filter filter_by = Ok (Some flt)
            /\ List.map (fun c => (fc_key c, fc_match c)) (must flt) = d)
    /\ (forall d,
          filter_by = Some d ->
          Exists (fun kv => Retriever.accepted (snd kv) = false) d ->
          count (@is_search float) new = 0%nat
          /\ snd (Retriever.retrieve E self query top_k_arg filter_by w)
             = Ok []).
Proof.
  assert (Hfilter :
            (filter_by = None \/ filter_by = Some [] ->
             Retriever.build_filter filter_by = Ok None)
            /\ (forall d,
                  filter_by = Some d -> d <> [] ->
                  Forall (fun kv => Retriever.accepted (snd kv) = true) d ->
                  exists flt,
                    Retriever.build_filter filter_by = Ok (Some flt)
                    /\ List.map (fun c => (fc_key c, fc_match c)) (must flt)
                       = d)).
  { split; [intros [-> | ->]; reflexivity|].
    intros d -> Hd Hall; destruct (conditions_of_accepted d Hall)
      as (cs & Hcs & Hmap).
    destruct d as [|kv d]; [congruence|].
    unfold Retriever.build_filter; rewrite Hcs.
    eexists; split; [reflexivity | exact Hmap]. }
  destruct Hfilter as [Hnone Hsome].
  destruct (truthy query) eqn:Hq.
  - rewrite (retrieve_run _ E self query top_k_arg filter_by w Hq).
    cbv zeta; unfold retrieve_calls.
    destruct (process_query E (calls w) query) as [processed|e] eqn:Hp;
      [|stopped_after_first Hnone Hsome].
    destruct (getitem (py "normalized") processed) as [n|] eqn:Hn;
      [|stopped_after_first Hnone Hsome].
    destruct (getitem (py "keyword_query") processed) as [kq|] eqn:Hk;
      [|stopped_after_first Hnone Hsome].
    destruct (printable_value query); cbn [negb];
      [|stopped_after_first Hnone Hsome].
    destruct (generate_embedding E _ _) as [v|e] eqn:Hv.
    2:{ rewrite add_calls_app; eexists; split; [reflexivity|].
        split; [discriminate|]; split; [|split; [exact Hnone|split]];
          [intros _; split; [discriminate|]
          |exact Hsome
          |intros d _ _; split; reflexivity].
        eexists _, []; destruct (Retriever.build_filter filter_by);
          (eexists; split; [reflexivity|]; split;
           [intros _; exists processed, n, kq; auto
           |simpl; intros; lia]). }
    destruct (Retriever.build_filter filter_by) as [qf|e] eqn:Hf.
    2:{ rewrite add_calls_app; eexists; split; [reflexivity|].
        split; [discriminate|]; split; [|split; [exact Hnone|split]];
          [intros _; split; [discriminate|]
          |exact Hsome
          |intros d _ _; split; reflexivity].
        eexists _, v, []; split; [reflexivity|]; split;
          [intros _; exists processed, n, kq; auto
          |intros _; exact Hv]. }
    destruct (query_points E _ _ _ _ _) as [hits|e];
      (rewrite !add_calls_app; eexists; split; [reflexivity|];
       split; [discriminate|]; split; [|split; [exact Hnone|split]];
       [intros _; split; [discriminate|]; eexists _, _, []; split;
        [reflexivity|]; split;
        [intros _; exists processed, n, kq; auto | intros _; exact Hv]
       |exact Hsome
       |intros d -> Hbad; rewrite (build_filter_refused d Hbad) in Hf;
        discriminate Hf]).
  - exists []; rewrite add_calls_nil.
    assert (Hrun : Retriever.retrieve E self query top_k_arg filter_by w
                   = (w, Ok []))
      by (unfold Retriever.retrieve; rewrite Hq; reflexivity).
    rewrite Hrun; split; [reflexivity|].
    split; [auto|]; split; [discriminate|].
    split; [exact Hnone|]; split; [exact Hsome|].
    intros d _ _; split; reflexivity.
Qed.

End DocumentFacts.

Section ContextOfRetrieve.

Import Context.

Variable float : Type.
Variable E : env float.
Variable self : Retriever.t.
Variable str_of : value -> str.

(** X8. A context that is not empty means that the whole pipeline of
    [retrieve] went through: the query was not falsy, no collaborator
    raised, the search returned at least one hit, every hit had a
    payload, and there is one document per hit. In every other case the
    prompt gets the empty context. *)
Theorem context_nonempty_only_on_success
        (query : value) (top_k_arg : option Z) (filter_by : option dict)
        (w : world float) (docs : list (Retriever.doc float)) :
  snd (Retriever.retrieve E self query top_k_arg filter_by w) = Ok docs ->
  format_retrieved_context str_of docs <> [] ->
  exists hits,
    search_returns E self query top_k_arg filter_by w hits
    /\ hits <> []
    /\ Forall (fun h => payload h <> None) hits
    /\ List.length docs = List.length hits.
Proof.
  intros Hrun Hctx.
  destruct (retrieve_result _ E self query top_k_arg filter_by w)
    as [H | (hits & Hs & H)]; rewrite H in Hrun; injection Hrun as <-.
  - exfalso; apply Hctx; reflexivity.
  - exists hits; split; [exact Hs|].
    rewrite formatted_option in *.
    destruct (docs_of_hits hits) as [ds|] eqn:Hds;
      [|exfalso; apply Hctx; reflexivity].
    destruct (docs_of_hits_all _ _ _ Hds) as [_ Hall].
    destruct (docs_of_hits_some _ _ Hall) as (ds' & Hds' & H2).
    rewrite Hds in Hds'; injection Hds' as <-.
    split; [|split; [exact Hall|]].
    + intros ->; simpl in Hds; injection Hds as <-.
      apply Hctx; reflexivity.
    + symmetry; apply (Forall2_length H2).
Qed.

(** X9. What [ingest_qa_pair] writes reads back: when it returns
    [True], its last call upserted one point, and a hit that carries
    that point's payload is turned by [retrieve]'s formatting into the
    document whose content is the Q&A content and whose metadata is the
    Q&A metadata; its context block names the company General
    Knowledge, the document type Generated Q&A and the source Gemini
    LLM. *)
Theorem ingest_reads_back (q a : str) (sc : float) (w : world float) :
  (forall s, str_of (VStr s) = s) ->
  q <> [] -> a <> [] ->
  snd (Retriever.ingest_qa_pair E self (Some q) (Some a) w) = Ok true ->
  exists point before,
    calls (fst (Retriever.ingest_qa_pair E self (Some q) (Some a) w))
    = before ++ [CallUpsert (Retriever.collection_name self) [point]]
    /\ formatted [ {| payload := Some (ps_payload point); score := sc |} ]
       = [ {| Retriever.content := VStr (Retriever.qa_content q a);
              Retriever.metadata := Retriever.qa_metadata q a;
              Retriever.similarity_score := sc |} ]
    /\ format_retrieved_context str_of
         (formatted [ {| payload := Some (ps_payload point); score := sc |} ])
       = py "[Company]: General Knowledge" ++ [c_newline]
           ++ py "[Document Type]: Generated Q&A" ++ [c_newline]
           ++ py "[Source]: Gemini LLM" ++ [c_newline; c_newline]
           ++ py "Content:" ++ [c_newline]
           ++ Retriever.qa_content q a ++ [c_newline].
Proof.
  intros Hstr Hq Ha Hrun.
  rewrite (ingest_run _ E self q a w Hq Ha) in *; cbv zeta in *.
  destruct (generate_embedding E (calls w) (VStr q)) as [v|e];
    [|discriminate Hrun].
  match type of Hrun with
  | context [upsert E ?h ?c ?p] =>
      destruct (upsert E h c p) as [[]|e]; [|discriminate Hrun]
  end.
  eexists; exists (calls w ++ [CallGenerateEmbedding (VStr q); CallUuid4]).
  split; [|split].
  - simpl; rewrite <- !app_assoc; reflexivity.
  - reflexivity.
  - cbn [ps_payload]; unfold formatted; cbn; unfold formatted_chunk.
    cbn; rewrite !Hstr; reflexivity.
Qed.

End ContextOfRetrieve.

Section ContextExamples.

Import Context Samples Fixtures.

(** [format_context_contains_content] at two sample documents. *)
Lemma format_context_contains_content_witness :
  occurs_in (py "Apply by May.")
            (format_retrieved_context sample_str_of [acme_doc; faq_doc]).
Proof.
  apply (proj2 (format_context_contains_content unit sample_str_of
                  [acme_doc; faq_doc])
               (fun s => eq_refl) faq_doc (py "Apply by May.")).
  - right; left; reflexivity.
  - reflexivity.
Defined.

(** [format_context_app] at two sample documents. *)
Lemma format_context_app_witness :
  format_retrieved_context sample_str_of ([acme_doc] ++ [faq_doc])
  = format_retrieved_context sample_str_of [acme_doc] ++ separator
      ++ format_retrieved_context sample_str_of [faq_doc].
Proof.
  apply (format_context_app unit sample_str_of [acme_doc] [faq_doc]);
    discriminate.
Defined.

Lemma sample_search_returns (hits : list (ScoredPoint unit)) :
  search_returns (sample_env true true true true true hits (Ok None))
                 sample_retriever (VStr (py "internship")) None None
                 process_start hits.
Proof.
  split; [reflexivity|].
  exists [ (py "normalized", VStr (py "internship"));
           (py "keyword_query", VStr (py "internship")) ],
         (VStr (py "internship")), (VStr (py "internship")), [tt; tt], None.
  repeat split.
Defined.

(** [retrieve_documents] where the search returns the sample hit. *)
Lemma retrieve_documents_witness :
  exists docs,
    snd (Retriever.retrieve
           (sample_env true true true true true [sample_hit] (Ok None))
           sample_retriever (VStr (py "internship")) None None
           process_start) = Ok docs
    /\ List.length docs = 1%nat.
Proof.
  assert (Hall : Forall (fun h : ScoredPoint unit => payload h <> None)
                        [sample_hit])
    by (repeat constructor; discriminate).
  destruct (retrieve_documents unit
              (sample_env true true true true true [sample_hit] (Ok None))
              sample_retriever (VStr (py "internship")) None None
              process_start [sample_hit] eq_refl
              (sample_search_returns [sample_hit]) Hall)
    as (docs & Hrun & H2).
  exists docs; split; [exact Hrun|].
  symmetry; apply (Forall2_length H2).
Defined.

(** [retrieve_bare_hit] where the second hit has no payload. *)
Lemma retrieve_bare_hit_witness :
  snd (Retriever.retrieve
         (sample_env true true true true true [sample_hit; bare_hit]
                     (Ok None))
         sample_retriever (VStr (py "internship")) None None
         process_start) = Ok [].
Proof.
  apply (retrieve_bare_hit unit
           (sample_env true true true true true [sample_hit; bare_hit]
                       (Ok None))
           sample_retriever (VStr (py "internship")) None None
           process_start [sample_hit; bare_hit] bare_hit
           (sample_search_returns [sample_hit; bare_hit])).
  - right; left; reflexivity.
  - reflexivity.
Defined.

(** [context_nonempty_only_on_success] where the search returns the
    sample hit. *)
Lemma context_nonempty_only_on_success_witness :
  exists hits : list (ScoredPoint unit), hits <> [].
Proof.
  assert (Hctx : format_retrieved_context sample_str_of
                   [doc_of_hit
                      [ (py "content", VStr (py "Acme hires interns."));
                        (py "company", VStr (py "Acme")) ] tt] <> [])
    by (vm_compute; discriminate).
  destruct (context_nonempty_only_on_success unit
              (sample_env true true true true true [sample_hit] (Ok None))
              sample_retriever sample_str_of
              (VStr (py "internship")) None None process_start
              [doc_of_hit [ (py "content", VStr (py "Acme hires interns."));
                            (py "company", VStr (py "Acme")) ] tt]
              eq_refl Hctx)
    as (hits & _ & Hne & _).
  exists hits; exact Hne.
Defined.

(** [ingest_reads_back] where every collaborator returns. *)
Lemma ingest_reads_back_witness :
  exists point : PointStruct unit,
    formatted [ {| payload := Some (ps_payload point); score := tt |} ]
    = [ {| Retriever.content :=
             VStr (Retriever.qa_content (py "What is Acme?")
                                        (py "A company."));
           Retriever.metadata :=
             Retriever.qa_metadata (py "What is Acme?") (py "A company.");
           Retriever.similarity_score := tt |} ].
Proof.
  assert (Hq : py "What is Acme?" <> []) by (vm_compute; discriminate).
  assert (Ha : py "A company." <> []) by (vm_compute; discriminate).
  destruct (ingest_reads_back unit
              (sample_env true true true true true [] (Ok None))
              sample_retriever sample_str_of
              (py "What is Acme?") (py "A company.") tt process_start
              (fun s => eq_refl) Hq Ha eq_refl)
    as (point & before & _ & H & _).
  exists point; exact H.
Defined.

End ContextExamples.

(* ================================================================== *)
(** * Further properties: [chunk_text] *)
(* ================================================================== *)

Section ChunkMore.

#[local] Arguments N.eqb : simpl never.

Lemma replace2_chars_le (o : char) (n : nat) :
  forall (s : str) (x : char),
    (List.length s <= n)%nat ->
    In x (replace2 o c_space [o; c_pipe] s) -> In x s \/ x = c_pipe.
Proof.
  induction n as [|n IH]; intros s x Hn Hx.
  - destruct s; [destruct Hx | simpl in Hn; lia].
  - destruct s as [|a [|b s]]; [destruct Hx | left; exact Hx|].
    simpl in Hn; rewrite replace2_cons2 in Hx.
    destruct ((a =? o) && (b =? c_space))%N eqn:Hab.
    + apply andb_true_iff in Hab; destruct Hab as [Ha _].
      apply N.eqb_eq in Ha; subst a.
      destruct Hx as [<- | [<- | Hx]]; [left; left; reflexivity | auto|].
      destruct (IH s x ltac:(lia) Hx); [left; right; right|]; auto.
    + destruct Hx as [<- | Hx]; [left; left; reflexivity|].
      destruct (IH (b :: s) x ltac:(simpl; lia) Hx); [left; right|]; auto.
Qed.

Lemma mark_boundaries_chars (t : str) (x : char) :
  In x (mark_boundaries t) -> In x t \/ x = c_pipe.
Proof.
  unfold mark_boundaries; intros H.
  apply (replace2_chars_le _ _ _ _ (Nat.le_refl _)) in H.
  destruct H as [H | H]; [|auto].
  apply (replace2_chars_le _ _ _ _ (Nat.le_refl _)) in H.
  destruct H as [H | H]; [|auto].
  apply (replace2_chars_le _ _ _ _ (Nat.le_refl _)) in H; exact H.
Qed.

Lemma split_by_chars (f : char -> bool) (s : str) :
  Forall (fun piece => forall x, In x piece -> In x s /\ f x = false)
         (split_by f s).
Proof.
  induction s as [|c s IH]; [constructor; [intros x [] | constructor]|].
  rewrite split_by_cons; destruct (f c) eqn:Hc.
  - constructor; [intros x []|].
    eapply Forall_impl; [|exact IH].
    intros piece H x Hx; destruct (H x Hx); split; [right|]; assumption.
  - destruct (split_by f s) as [|h r];
      [constructor; [|constructor]; intros x [<- | []]; split;
       [left; reflexivity | exact Hc]|].
    inversion IH as [|? ? Hh Hr]; subst; constructor.
    + intros x [<- | Hx]; [split; [left; reflexivity | exact Hc]|].
      destruct (Hh x Hx); split; [right|]; assumption.
    + eapply Forall_impl; [|exact Hr].
      intros piece H x Hx; destruct (H x Hx); split; [right|]; assumption.
Qed.

Lemma chunk_loop_chars (P : char -> Prop) (B : Z) (sentences : list str) :
  P c_space ->
  Forall (fun piece => forall x, In x piece -> P x) sentences ->
  forall cur,
    (forall x, In x cur -> P x) ->
    Forall (fun c => forall x, In x c -> P x) (chunk_loop B cur sentences).
Proof.
  intros Hsp; induction 1 as [|s rest Hs _ IH]; intros cur Hcur.
  - rewrite chunk_loop_nil; destruct (nonempty (strip cur)); constructor;
      [|constructor].
    intros x Hx; apply Hcur, strip_incl, Hx.
  - assert (Hs' : forall x, In x (strip s ++ [c_space]) -> P x).
    { intros x Hx; apply in_app_or in Hx; destruct Hx as [Hx | [<- | []]];
        [apply Hs, strip_incl, Hx | exact Hsp]. }
    rewrite chunk_loop_cons.
    destruct (negb (nonempty (strip s))); [apply IH, Hcur|].
    destruct (nonempty cur && _).
    + constructor; [exact Hcur | apply IH, Hs'].
    + apply IH; intros x Hx; apply in_app_or in Hx.
      destruct Hx as [Hx | Hx]; [apply Hcur, Hx | apply Hs', Hx].
Qed.

(** X10. [chunk_text] invents no character and emits no [|]: every
    character of every chunk is a character of the text other than
    [|], or the space that separates sentences. *)
Theorem chunk_text_characters (t : str) (B : Z) :
  Forall (fun c =>
            forall x, In x c -> x <> c_pipe /\ (In x t \/ x = c_space))
         (chunk_text (Some t) B).
Proof.
  unfold chunk_text; destruct (negb (nonempty t)); [constructor|].
  apply chunk_loop_chars.
  - split; [discriminate | right; reflexivity].
  - unfold split_sentences, split.
    eapply Forall_impl; [|apply split_by_chars].
    intros piece H x Hx; destruct (H x Hx) as [Hin Hne].
    assert (Hp : x <> c_pipe).
    { intros ->; rewrite N.eqb_refl in Hne; discriminate. }
    split; [exact Hp|].
    destruct (mark_boundaries_chars _ _ Hin); [left; assumption | congruence].
  - intros x [].
Qed.

Lemma render_length (groups : list (list str)) :
  List.length (render groups) = List.length groups.
Proof.
  induction groups as [|g [|g' gs] IH]; try reflexivity.
  change (S (List.length (render (g' :: gs))) = S (List.length (g' :: gs))).
  f_equal; exact IH.
Qed.

Lemma concat_length_ge (groups : list (list str)) :
  Forall (fun g => g <> []) groups ->
  (List.length groups <= List.length (List.concat groups))%nat.
Proof.
  induction 1 as [|g gs Hg _ IH]; [apply Nat.le_refl|].
  simpl; rewrite length_app.
  destruct g; [congruence | simpl; lia].
Qed.

(** X11. [chunk_text] never yields more chunks than the text has
    sentences, and yields no chunk exactly when the text has no
    sentence, that is, when it is empty or made of whitespace and
    boundary marks only. *)
Theorem chunk_text_count (t : str) (B : Z) :
  (List.length (chunk_text (Some t) B)
   <= List.length (sentences_of (split_sentences t)))%nat
  /\ (chunk_text (Some t) B = []
      <-> sentences_of (split_sentences t) = []).
Proof.
  destruct (chunk_text_groups t B) as (groups & Hcat & Hall & _ & Hr).
  assert (Hne : Forall (fun g : list str => g <> []) groups)
    by (eapply Forall_impl; [|exact Hall]; intros g [H _]; exact H).
  rewrite Hr, <- Hcat, render_length; split.
  - apply concat_length_ge, Hne.
  - split; intros H.
    + destruct groups as [|g gs]; [reflexivity|].
      apply (f_equal (@List.length str)) in H.
      rewrite render_length in H; discriminate H.
    + destruct groups as [|g gs]; [reflexivity|].
      inversion Hne; subst; destruct g; [congruence | discriminate H].
Qed.

Lemma len_spaced_cons (s : str) (l : list str) :
  len (spaced (s :: l)) = (len s + 1 + len (spaced l))%Z.
Proof.
  rewrite spaced_cons, !len_app; unfold len; simpl; lia.
Qed.

Lemma len_nonneg (s : str) : (0 <= len s)%Z.
Proof. unfold len; lia. Qed.

Lemma chunk_loop_fits (B : Z) (sentences : list str) :
  forall cur,
    packed cur ->
    (len cur + len (spaced (sentences_of sentences)) <= B + 1)%Z ->
    chunk_loop B cur sentences
    = if nonempty (cur ++ spaced (sentences_of sentences))
      then [removelast (cur ++ spaced (sentences_of sentences))]
      else [].
Proof.
  induction sentences as [|s rest IH]; intros cur Hcur Hlen.
  - rewrite chunk_loop_nil; unfold sentences_of, spaced; simpl.
    rewrite app_nil_r, (packed_strip _ Hcur).
    destruct Hcur as [-> | (x & Hx & ->)]; [reflexivity|].
    rewrite removelast_last.
    destruct Hx as (_ & _ & Hne); apply nonempty_true in Hne.
    rewrite Hne; destruct x; reflexivity.
  - rewrite chunk_loop_cons, sentences_of_cons in *.
    destruct (nonempty (strip s)) eqn:Hs; simpl negb; cbv iota;
      [|apply IH; assumption].
    assert (Ht : tight (strip s)) by (apply strip_tight, nonempty_true, Hs).
    rewrite len_spaced_cons in Hlen.
    pose proof (len_nonneg (spaced (sentences_of rest))) as Hpos.
    replace (len cur + len (strip s) >? B)%Z with false
      by (symmetry; rewrite Z.gtb_ltb; apply Z.ltb_ge; lia).
    rewrite andb_false_r, spaced_cons.
    rewrite (IH (cur ++ strip s ++ [c_space])).
    + rewrite <- !app_assoc; reflexivity.
    + apply packed_grow; assumption.
    + rewrite !len_app; unfold len at 3; simpl; lia.
Qed.

(** X12. An answer whose sentences, joined by single spaces, fit the
    budget is delivered as one chunk: those sentences joined by single
    spaces. *)
Theorem chunk_text_single_chunk (t : str) (B : Z) :
  sentences_of (split_sentences t) <> [] ->
  (len (join c_space (sentences_of (split_sentences t))) <= B)%Z ->
  chunk_text (Some t) B = [join c_space (sentences_of (split_sentences t))].
Proof.
  intros Hne Hlen; unfold chunk_text.
  destruct t as [|c t]; [exfalso; apply Hne; reflexivity|].
  simpl negb; cbv iota.
  destruct (spaced_join _ Hne (sentences_of_tight _)) as [Hsp _].
  rewrite chunk_loop_fits; [|apply packed_nil|].
  - rewrite app_nil_l, join_spaced.
    destruct (spaced (sentences_of (split_sentences (c :: t)))) eqn:Hs;
      [|reflexivity].
    rewrite Hsp in Hs; destruct (join c_space _); discriminate.
  - rewrite Hsp, len_app; unfold len at 1 3; simpl; lia.
Qed.

Lemma chunk_loop_tiny (B : Z) (sentences : list str) :
  (B <= 2)%Z ->
  forall s0,
    tight s0 ->
    chunk_loop B (s0 ++ [c_space]) sentences
    = render (List.map (fun s => [s]) (s0 :: sentences_of sentences)).
Proof.
  intros HB; induction sentences as [|s rest IH]; intros s0 Hs0.
  - rewrite chunk_loop_nil, strip_tight_space by assumption.
    destruct Hs0 as (_ & _ & Hne); apply nonempty_true in Hne.
    rewrite Hne; reflexivity.
  - rewrite chunk_loop_cons, sentences_of_cons.
    destruct (nonempty (strip s)) eqn:Hs; simpl negb; cbv iota;
      [|apply IH, Hs0].
    assert (Ht : tight (strip s)) by (apply strip_tight, nonempty_true, Hs).
    assert (Hcur : nonempty (s0 ++ [c_space]) = true)
      by (destruct s0; reflexivity).
    assert (Hover : (len (s0 ++ [c_space]) + len (strip s) >? B)%Z = true).
    { rewrite Z.gtb_ltb; apply Z.ltb_lt.
      destruct Hs0 as (_ & _ & H0); destruct Ht as (_ & _ & H1).
      rewrite len_app; unfold len; simpl.
      destruct s0; [congruence|]; destruct (strip s); [congruence|].
      simpl; lia. }
    rewrite Hcur, Hover; simpl andb; cbv iota.
    rewrite (IH _ Ht).
    change (render (List.map (fun s1 => [s1])
                             (s0 :: strip s :: sentences_of rest)))
      with (spaced [s0]
              :: render (List.map (fun s1 => [s1])
                                  (strip s :: sentences_of rest))).
    rewrite spaced_one; reflexivity.
Qed.

(** X13. With a budget of at most 2 no two sentences share a chunk:
    every sentence is a chunk of its own, each but the last followed by
    a space. *)
Theorem chunk_text_tiny_budget (t : str) (B : Z) :
  (B <= 2)%Z ->
  chunk_text (Some t) B
  = render (List.map (fun s => [s]) (sentences_of (split_sentences t))).
Proof.
  intros HB; unfold chunk_text.
  destruct t as [|c t]; [reflexivity|]; simpl negb; cbv iota.
  induction (split_sentences (c :: t)) as [|s rest IH]; [reflexivity|].
  rewrite chunk_loop_cons, sentences_of_cons.
  destruct (nonempty (strip s)) eqn:Hs; simpl negb; cbv iota; [|exact IH].
  simpl andb; cbv iota; rewrite app_nil_l.
  apply chunk_loop_tiny; [exact HB | apply strip_tight, nonempty_true, Hs].
Qed.

Lemma Forall_concat_tight (groups : list (list str)) :
  Forall tight (List.concat groups) -> Forall (Forall tight) groups.
Proof.
  induction groups as [|g gs IH]; intros H; [constructor|].
  simpl in H; apply Forall_app in H; destruct H as [Hg Hgs].
  constructor; [exact Hg | apply IH, Hgs].
Qed.

Lemma render_shape (groups : list (list str)) :
  Forall (fun g => g <> []) groups ->
  Forall (Forall tight) groups ->
  groups <> [] ->
  exists body final,
    render groups = body ++ [final]
    /\ Forall (fun c => exists x, tight x /\ c = x ++ [c_space]) body
    /\ tight final.
Proof.
  induction groups as [|g [|g' gs] IH]; intros Hne Ht Hg; [congruence| |].
  - inversion Hne; inversion Ht; subst.
    exists [], (join c_space g); split; [reflexivity|].
    split; [constructor | apply spaced_join; assumption].
  - inversion Hne as [|? ? Hg0 Hne']; inversion Ht as [|? ? Ht0 Ht']; subst.
    destruct (IH Hne' Ht' ltac:(discriminate)) as (body & final & Hr & Hb & Hf).
    exists (spaced g :: body), final.
    change (render (g :: g' :: gs)) with (spaced g :: render (g' :: gs)).
    rewrite Hr; split; [reflexivity | split; [|exact Hf]].
    constructor; [|exact Hb].
    destruct (spaced_join g Hg0 Ht0) as [-> Hj]; eauto.
Qed.

(** X14. The chunks can be concatenated as they come: every chunk but
    the last is text without leading or trailing whitespace followed by
    exactly one space, and the last chunk has no leading or trailing
    whitespace. *)
Theorem chunk_text_shape (t : str) (B : Z) :
  chunk_text (Some t) B = []
  \/ exists body final,
       chunk_text (Some t) B = body ++ [final]
       /\ Forall (fun c => exists x, tight x /\ c = x ++ [c_space]) body
       /\ tight final.
Proof.
  destruct (chunk_text_groups t B) as (groups & Hcat & Hall & _ & Hr).
  rewrite Hr; destruct groups as [|g gs]; [left; reflexivity|right].
  apply render_shape; [| |discriminate].
  - eapply Forall_impl; [|exact Hall]; intros g0 [H _]; exact H.
  - apply Forall_concat_tight; rewrite Hcat; apply sentences_of_tight.
Qed.

(** X23. The sentences of [chunk_text] are the parts of the text between
    its sentence boundaries, no more and no fewer. For a text without
    [|]: the pieces joined by single spaces are the text, so the text is
    cut at spaces only and nothing else is lost; every piece but the
    last ends with [.], [!] or [?], so every cut is a sentence boundary;
    and no piece, hence no sentence, has a [.], [!] or [?] followed by a
    space inside, so every sentence boundary is a cut. The chunks, for
    every budget, are groups of these sentences, whole and in order. *)
Theorem split_sentences_exact (t : str) :
  mem c_pipe t = false ->
  join c_space (split_sentences t) = t
  /\ Forall ends_sentence (removelast (split_sentences t))
  /\ Forall (fun piece => has_boundary piece = false) (split_sentences t)
  /\ Forall (fun s => has_boundary s = false)
            (sentences_of (split_sentences t))
  /\ forall B,
       exists groups,
         List.concat groups = sentences_of (split_sentences t)
         /\ Forall (fun g => g <> []) groups
         /\ chunk_text (Some t) B = render groups.
Proof.
  intros Ht; split; [|split; [|split; [|split]]].
  - apply join_split_sentences, Ht.
  - apply split_sentences_boundaries, Ht.
  - apply split_sentences_free.
  - apply sentences_of_free, split_sentences_free.
  - intros B.
    destruct (chunk_text_groups t B) as (groups & Hcat & Hall & _ & Hr).
    exists groups; split; [exact Hcat | split; [|exact Hr]].
    eapply Forall_impl; [|exact Hall]; intros g [H _]; exact H.
Qed.

(** [split_sentences_exact] at a text with the three kinds of boundary,
    one of them followed by two spaces. *)
Lemma split_sentences_exact_witness :
  let text := py "Is it ok?  Yes it is. Fine! Bye" in
  split_sentences text
  = [py "Is it ok?"; py " Yes it is."; py "Fine!"; py "Bye"]
  /\ Forall (fun s => has_boundary s = false)
            (sentences_of (split_sentences text)).
Proof.
  cbv zeta; split; [reflexivity|].
  apply (proj1 (proj2 (proj2 (proj2
           (split_sentences_exact (py "Is it ok?  Yes it is. Fine! Bye")
                                  eq_refl))))).
Defined.

(** [chunk_text_single_chunk] at an answer of two short sentences. *)
Lemma chunk_text_single_chunk_witness :
  chunk_text (Some (py "Hi there.  Bye now.")) 30
  = [py "Hi there. Bye now."].
Proof.
  apply (chunk_text_single_chunk (py "Hi there.  Bye now.") 30).
  - vm_compute; discriminate.
  - vm_compute; discriminate.
Defined.

(** [chunk_text_tiny_budget] at budget 0. *)
Lemma chunk_text_tiny_budget_witness :
  chunk_text (Some (py "Hi. Yo. Ok.")) 0 = [py "Hi. "; py "Yo. "; py "Ok."].
Proof.
  apply (chunk_text_tiny_budget (py "Hi. Yo. Ok.") 0); lia.
Defined.

End ChunkMore.

(* ================================================================== *)
(** * Further properties: initialisation and the other handlers *)
(* ================================================================== *)

Section InitialiseMore.

Import Service.

Variable float : Type.
Variable E : env float.
Variable R : Retriever.t.

(** [initialize_chatbot] while the chatbot is not set. *)
Lemma initialize_run (w : world float) :
  chatbot_set w = false ->
  initialize_chatbot E R w =
  match new_RAGChatbot E (calls w) with
  | Raise e => (add_calls w [CallRAGChatbot], Raise e)
  | Ok _ =>
      pre_warm_pipeline E R
        (fst (set_chatbot (add_calls w [CallRAGChatbot])))
  end.
Proof.
  intros Hw; unfold initialize_chatbot, bind at 1, read; rewrite Hw.
  cbv beta iota zeta delta [bind perform set_chatbot fst].
  destruct (new_RAGChatbot E (calls w)) as [[]|e]; reflexivity.
Qed.

(** An initialisation that raises has called the constructor, and
    nothing else. *)
Lemma initialize_raises (w w1 : world float) (e : exn) :
  initialize_chatbot E R w = (w1, Raise e) ->
  w1 = add_calls w [CallRAGChatbot].
Proof.
  destruct (chatbot_set w) eqn:Hw.
  - unfold initialize_chatbot, bind, read; rewrite Hw; discriminate.
  - rewrite (initialize_run w Hw).
    destruct (new_RAGChatbot E (calls w)) as [[]|e0].
    + rewrite pre_warm_no_op; discriminate.
    + intros [= <- _]; reflexivity.
Qed.

(** A world to which a call was added is not the world before. *)
Lemma add_calls_fresh (w w1 : world float) (new : list (call float))
      (c : call float) :
  calls w1 = calls w ++ new -> add_calls w1 [c] <> w.
Proof.
  intros H Heq; apply (f_equal (fun x => List.length (calls x))) in Heq.
  simpl in Heq; rewrite H, !length_app in Heq; simpl in Heq; lia.
Qed.

(** X15. [initialize_chatbot] does nothing once the chatbot is set: it
    constructs the chatbot at most once and never retries a warm-up
    that failed. Before that it raises exactly when the constructor
    raises, with the constructor's error, and then leaves the chatbot
    unset, so that the next call constructs again; when the constructor
    returns, it returns and the chatbot is set, whatever the warm-up
    does, and a second call changes nothing. *)
Theorem initialize_chatbot_outcome (w : world float) :
  let run := initialize_chatbot E R w in
  (chatbot_set w = true -> run = (w, Ok tt))
  /\ (chatbot_set w = false ->
      match new_RAGChatbot E (calls w) with
      | Raise e =>
          run = (add_calls w [CallRAGChatbot], Raise e)
          /\ chatbot_set (fst run) = false
      | Ok _ =>
          snd run = Ok tt
          /\ chatbot_set (fst run) = true
          /\ initialize_chatbot E R (fst run) = (fst run, Ok tt)
      end).
Proof.
  cbv zeta.
  assert (Hset : forall w0 : world float,
             chatbot_set w0 = true ->
             initialize_chatbot E R w0 = (w0, Ok tt)).
  { intros w0 H; unfold initialize_chatbot, bind, read; rewrite H.
    reflexivity. }
  split; [apply Hset|].
  intros Hw; rewrite (initialize_run w Hw).
  destruct (new_RAGChatbot E (calls w)) as [[]|e].
  - destruct (pre_warm_frame _ E R
                (fst (set_chatbot (add_calls w [CallRAGChatbot]))))
      as (new & _ & Hc & Hok & _).
    split; [exact Hok | split; [exact Hc | apply Hset, Hc]].
  - split; [reflexivity | exact Hw].
Qed.

End InitialiseMore.

Section InitialiseExamples.

Import Service.

(** [initialize_chatbot_outcome] at process start, where the warm-up
    fails. *)
Lemma initialize_chatbot_outcome_witness :
  let E := Samples.sample_env true false true true true [] (Ok None) in
  let w1 := fst (initialize_chatbot E Samples.sample_retriever
                                    process_start) in
  chatbot_set w1 = true
  /\ is_warmed_up w1 = false
  /\ initialize_chatbot E Samples.sample_retriever w1 = (w1, Ok tt).
Proof.
  cbv zeta.
  pose proof (proj2 (initialize_chatbot_outcome unit
                       (Samples.sample_env true false true true true []
                                           (Ok None))
                       Samples.sample_retriever process_start) eq_refl)
    as H.
  cbv zeta in H.
  change (new_RAGChatbot _ (calls process_start)) with (@Ok unit tt) in H.
  cbv iota in H; destruct H as (_ & H1 & H2).
  split; [exact H1 | split; [reflexivity | exact H2]].
Defined.

End InitialiseExamples.

Section StreamEndpoint.

Import Service Endpoints.

Variable float : Type.
Variable E : env float.
Variable R : Retriever.t.

(** The [/query-stream] handler on a body that decodes to an object. *)
Lemma query_stream_run (d : dict) (w : world float) :
  let u := lookup (py "user_id") VNone d in
  let s := lookup (py "session_id") VNone d in
  let q := lookup (py "query") VNone d in
  query_stream E R (Ok (VDict d)) w =
  (w, Ok (if negb (truthy u) || negb (truthy s)
          then JsonResponse ids_required
          else if negb (truthy q) then JsonResponse query_required
          else
            match q with
            | VStr t =>
                if negb (nonempty (strip t))
                then JsonResponse query_required
                else EventStream (py "text/event-stream") sse_headers
                                 (generate_sse_response E R q u s)
            | _ => JsonResponse
                     (internal_error (attribute_error q "strip"))
            end)).
Proof.
  cbv zeta; unfold query_stream.
  cbv beta iota zeta delta [try_except bind of_result dict_get ret].
  destruct (negb (truthy (lookup (py "user_id") VNone d))
            || negb (truthy (lookup (py "session_id") VNone d)));
    [reflexivity|].
  unfold query_is_blank.
  destruct (negb (truthy (lookup (py "query") VNone d))); [reflexivity|].
  cbv beta iota zeta delta [bind str_strip ret raise].
  destruct (lookup (py "query") VNone d) as [| | |t| |]; try reflexivity.
  destruct (negb (nonempty (strip t))); reflexivity.
Qed.

Lemma query_stream_not_object (data : value) (w : world float) :
  (forall d, data <> VDict d) ->
  query_stream E R (Ok data) w
  = (w, Ok (JsonResponse (internal_error (attribute_error data "get")))).
Proof.
  intros H; destruct data; try reflexivity.
  exfalso; eapply H; reflexivity.
Qed.

(** The [/query] handler has called something exactly when the request
    passed its validation. *)
Lemma query_untouched (d : dict) (w : world float) (r : http_response) :
  Service.query E R (Ok (VDict d)) w = (w, Ok r) ->
  serve_query_stream E R (Ok (VDict d)) w = (w, inl r).
Proof.
  unfold serve_query_stream; rewrite query_stream_run, query_run; cbv zeta.
  destruct (negb _ || negb _); [intros [= <-]; reflexivity|].
  destruct (negb (truthy _)); [intros [= <-]; reflexivity|].
  destruct (lookup (py "query") VNone d) as [| | |t| |];
    try (intros [= <-]; reflexivity).
  destruct (negb (nonempty _)); [intros [= <-]; reflexivity|].
  destruct (initialize_frame _ E R w) as (new & Hnew & _).
  destruct (initialize_chatbot E R w) as [w1 [[]|e]] eqn:Hi.
  - cbv zeta; simpl in Hnew.
    destruct (bot_query E (calls w1) (VStr t) _ _);
      intros [= Hw _]; destruct (add_calls_fresh _ w w1 new _ Hnew Hw).
  - intros [= Hw _]; apply initialize_raises in Hi; subst w1.
    destruct (add_calls_fresh _ w w [] CallRAGChatbot
                (eq_sym (app_nil_r _)) Hw).
Qed.

(** X16. [/query-stream] answers with JSON exactly the requests that
    [/query] answers without having called anything, that is, those it
    rejects before reaching the chatbot: with the same status, 400 or
    500, and the same body, and nothing is called for them. It streams
    exactly the requests whose body is an object with a [user_id] and a
    [session_id] that are truthy and a query string that is not
    blank. *)
Theorem query_stream_rejects_like_query (request_json : result value)
        (w : world float) :
  (forall r,
     serve_query_stream E R request_json w = (w, inl r)
     <-> Service.query E R request_json w = (w, Ok r))
  /\ (forall w' r,
        serve_query_stream E R request_json w = (w', inl r) ->
        w' = w /\ (status r = 400%Z \/ status r = 500%Z))
  /\ ((exists w' events,
         serve_query_stream E R request_json w = (w', inr events))
      <-> exists d t,
            request_json = Ok (VDict d)
            /\ truthy (lookup (py "user_id") VNone d) = true
            /\ truthy (lookup (py "session_id") VNone d) = true
            /\ lookup (py "query") VNone d = VStr t
            /\ strip t <> []).
Proof.
  assert (Hjson : forall w' r,
             serve_query_stream E R request_json w = (w', inl r) ->
             w' = w
             /\ Service.query E R request_json w = (w, Ok r)
             /\ (status r = 400%Z \/ status r = 500%Z)).
  { intros w' r; unfold serve_query_stream.
    destruct request_json as [data|e].
    2:{ intros [= <- <-]; repeat split; right; reflexivity. }
    destruct data as [| | | | |d];
      try (rewrite query_stream_not_object by discriminate;
           intros [= <- <-];
           rewrite query_not_object by discriminate;
           repeat split; right; reflexivity).
    rewrite query_stream_run, query_run; cbv zeta.
    destruct (negb _ || negb _);
      [intros [= <- <-]; repeat split; left; reflexivity|].
    destruct (negb (truthy _));
      [intros [= <- <-]; repeat split; left; reflexivity|].
    destruct (lookup (py "query") VNone d);
      try (intros [= <- <-]; repeat split; right; reflexivity).
    destruct (negb (nonempty _));
      [intros [= <- <-]; repeat split; left; reflexivity|].
    discriminate. }
  split; [|split].
  - intros r; split; [intros H; apply (Hjson _ _ H)|].
    destruct request_json as [data|e]; [|intros [= <-]; reflexivity].
    destruct data as [| | | | |d];
      try (rewrite query_not_object by discriminate; intros [= <-];
           unfold serve_query_stream;
           rewrite query_stream_not_object by discriminate; reflexivity).
    apply query_untouched.
  - intros w' r H; destruct (Hjson _ _ H) as (H1 & _ & H2); auto.
  - split.
    + intros (w' & events & H); unfold serve_query_stream in H.
      destruct request_json as [data|e]; [|discriminate H].
      destruct data as [| | | | |d];
        try (rewrite query_stream_not_object in H by discriminate;
             discriminate H).
      rewrite query_stream_run in H; cbv zeta in H.
      destruct (truthy (lookup (py "user_id") VNone d)) eqn:Hu;
        [|discriminate H].
      destruct (truthy (lookup (py "session_id") VNone d)) eqn:Hs;
        [|discriminate H].
      cbn [negb orb] in H.
      destruct (negb (truthy _)); [discriminate H|].
      destruct (lookup (py "query") VNone d) as [| | |t| |] eqn:Hq;
        try discriminate H.
      destruct (nonempty (strip t)) eqn:Ht; [|discriminate H].
      exists d, t; repeat split; auto.
      apply nonempty_true, Ht.
    + intros (d & t & -> & Hu & Hs & Hq & Ht).
      unfold serve_query_stream; rewrite query_stream_run; cbv zeta.
      rewrite Hu, Hs, Hq; cbn [negb orb].
      apply nonempty_true in Ht.
      assert (Htruthy : truthy (VStr t) = true).
      { simpl; destruct t; [discriminate Ht | reflexivity]. }
      rewrite Htruthy, Ht; cbn [negb]; eexists _, _; reflexivity.
Qed.

(** X17. A request that [/query-stream] accepts is answered by the
    stream as [/query] answers it: both leave the same world (the same
    calls were made); when [/query] answers 200 with an answer the
    stream is start, the chunks of that answer, done; when [/query]
    answers 500 with an error the stream ends with the error event of
    the same message, alone or after start. The stream never turns a
    failure of the chatbot into a status. *)
Theorem query_stream_agrees_with_query (request_json : result value)
        (w w' : world float) (events : list sse_event) :
  serve_query_stream E R request_json w = (w', inr events) ->
  exists resp,
    Service.query E R request_json w = (w', Ok resp)
    /\ match json resp with
       | QueryBody answer _ =>
           status resp = 200%Z
           /\ events = EvStart :: List.map EvChunk (chunk_text answer 30)
                         ++ [EvDone]
       | ErrorBody e =>
           status resp = 500%Z
           /\ (events = [EvError e] \/ events = [EvStart; EvError e])
       end.
Proof.
  unfold serve_query_stream.
  destruct request_json as [data|e]; [|discriminate].
  destruct data as [| | | | |d];
    try (rewrite query_stream_not_object by discriminate; discriminate).
  rewrite query_stream_run, query_run; cbv zeta.
  destruct (negb _ || negb _); [discriminate|].
  destruct (negb (truthy _)); [discriminate|].
  destruct (lookup (py "query") VNone d) as [| | |t| |]; try discriminate.
  destruct (negb (nonempty _)); [discriminate|].
  unfold world_after, events_of; rewrite generate_sse_response_run.
  destruct (initialize_chatbot E R w) as [w1 [[]|e]].
  - cbv zeta; destruct (bot_query E (calls w1) (VStr t) _ _) as [answer|e];
      cbv beta iota zeta delta [fst snd]; intros [= <- <-];
      eexists; (split; [reflexivity|]); simpl;
      (split; [reflexivity | first [reflexivity | right; reflexivity]]).
  - cbv beta iota zeta delta [fst snd]; intros [= <- <-].
    eexists; (split; [reflexivity|]); simpl.
    split; [reflexivity | left; reflexivity].
Qed.

End StreamEndpoint.

Section ClearEndpoint.

Import Service Endpoints.

Variable float : Type.
Variable E : env float.
Variable R : Retriever.t.
Variable bot_clear_session :
  list (call float) -> list (value * value) -> value -> value
  -> result unit.

(** The [/clear] handler on a body that decodes to an object. *)
Lemma clear_session_run (d : dict) (w : world float)
      (cleared : list (value * value)) :
  let u := lookup (py "user_id") VNone d in
  let s := lookup (py "session_id") VNone d in
  clear_session E R bot_clear_session (Ok (VDict d)) (w, cleared) =
  if negb (truthy u) || negb (truthy s)
  then ((w, cleared),
        Ok {| clear_status := 400;
              clear_json :=
                ClearError (py "user_id and session_id are required") |})
  else
    match initialize_chatbot E R w with
    | (w1, Raise e) =>
        ((w1, cleared),
         Ok {| clear_status := 500; clear_json := ClearError e |})
    | (w1, Ok _) =>
        match bot_clear_session (calls w1) cleared u s with
        | Raise e =>
            ((w1, cleared ++ [(u, s)]),
             Ok {| clear_status := 500; clear_json := ClearError e |})
        | Ok _ =>
            ((w1, cleared ++ [(u, s)]),
             Ok {| clear_status := 200;
                   clear_json :=
                     ClearDone true (py "Session cleared") |})
        end
    end.
Proof.
  cbv zeta; unfold clear_session.
  cbv beta iota zeta delta [try_except bind of_result dict_get ret].
  destruct (negb (truthy (lookup (py "user_id") VNone d))
            || negb (truthy (lookup (py "session_id") VNone d)));
    [reflexivity|].
  cbv beta iota zeta delta [on_world clear_on_bot fst snd].
  destruct (initialize_chatbot E R w) as [w1 [[]|e]]; [|reflexivity].
  destruct (bot_clear_session (calls w1) cleared _ _) as [[]|e];
    reflexivity.
Qed.

Lemma clear_session_not_object (data : value) (w : world float)
      (cleared : list (value * value)) :
  (forall d, data <> VDict d) ->
  clear_session E R bot_clear_session (Ok data) (w, cleared)
  = ((w, cleared),
     Ok {| clear_status := 500;
           clear_json := ClearError (attribute_error data "get") |}).
Proof.
  intros H; destruct data; try reflexivity.
  exfalso; eapply H; reflexivity.
Qed.

(** X18. The [/clear] handler always answers. It clears at most one
    session per request, the one named by the [user_id] and the
    [session_id] of the body, and only when both are present and not
    empty; it answers 200 "Session cleared" only after the chatbot has
    cleared that session, 400 or 500 when it cleared nothing, and it
    never queries the orchestrator. *)
Theorem clear_session_outcome (request_json : result value)
        (w : world float) (cleared : list (value * value)) :
  let run := clear_session E R bot_clear_session request_json (w, cleared) in
  exists resp added new,
    snd run = Ok resp
    /\ snd (fst run) = cleared ++ added
    /\ calls (fst (fst run)) = calls w ++ new
    /\ count (@is_bot_query float) new = 0%nat
    /\ (added = []
        \/ exists d,
             request_json = Ok (VDict d)
             /\ added = [(lookup (py "user_id") VNone d,
                          lookup (py "session_id") VNone d)]
             /\ truthy (lookup (py "user_id") VNone d) = true
             /\ truthy (lookup (py "session_id") VNone d) = true)
    /\ (clear_status resp = 200%Z ->
        added <> []
        /\ clear_json resp = ClearDone true (py "Session cleared"))
    /\ (added = [] -> clear_status resp = 400%Z \/ clear_status resp = 500%Z).
Proof.
  cbv zeta.
  destruct request_json as [data|e].
  2:{ eexists _, [], []; simpl; rewrite !app_nil_r.
      repeat split; auto; discriminate. }
  destruct data as [| | | | |d];
    try (rewrite clear_session_not_object by discriminate;
         eexists _, [], []; simpl; rewrite !app_nil_r;
         repeat split; auto; discriminate).
  rewrite clear_session_run; cbv zeta.
  destruct (truthy (lookup (py "user_id") VNone d)) eqn:Hu.
  2:{ eexists _, [], []; simpl; rewrite !app_nil_r.
      repeat split; auto; discriminate. }
  destruct (truthy (lookup (py "session_id") VNone d)) eqn:Hs.
  2:{ eexists _, [], []; simpl; rewrite !app_nil_r.
      repeat split; auto; discriminate. }
  simpl negb; simpl orb; cbv iota.
  destruct (initialize_frame _ E R w) as (new & Hnew & Hcount).
  destruct (initialize_chatbot E R w) as [w1 [[]|e]]; simpl in Hnew.
  - destruct (bot_clear_session (calls w1) cleared _ _) as [[]|e].
    + eexists _, [_], new; simpl.
      split; [reflexivity|]; split; [reflexivity|].
      split; [exact Hnew|]; split; [exact Hcount|].
      split; [right; exists d; auto|].
      split; [intros _; split; [discriminate | reflexivity] | discriminate].
    + eexists _, [_], new; simpl.
      split; [reflexivity|]; split; [reflexivity|].
      split; [exact Hnew|]; split; [exact Hcount|].
      split; [right; exists d; auto|].
      split; [intros H; discriminate H | discriminate].
  - eexists _, [], new; simpl; rewrite app_nil_r.
    repeat split; auto; discriminate.
Qed.

End ClearEndpoint.

Section EndpointExamples.

Import Service Endpoints Samples Fixtures.

(** [query_stream_rejects_like_query] at the request with the empty
    query: what [/query] answers without calling anything is what
    [/query-stream] answers with JSON. *)
Lemma query_stream_rejects_like_query_witness :
  serve_query_stream (sample_env true true true true true []
                                 (Ok (Some (py "Hello."))))
                     sample_retriever (Ok (request_body u1 s1 (VStr [])))
                     process_start
  = (process_start, inl query_required).
Proof.
  apply (proj2 (proj1
           (query_stream_rejects_like_query unit
              (sample_env true true true true true []
                          (Ok (Some (py "Hello."))))
              sample_retriever (Ok (request_body u1 s1 (VStr [])))
              process_start) query_required)).
  reflexivity.
Defined.

(** [query_stream_agrees_with_query] at a request that is accepted. *)
Lemma query_stream_agrees_with_query_witness :
  exists resp,
    snd (Service.query (sample_env true true true true true []
                                   (Ok (Some (py "Hello. Bye."))))
                       sample_retriever
                       (Ok (request_body u1 s1 (VStr (py "hi"))))
                       process_start)
    = Ok resp
    /\ status resp = 200%Z.
Proof.
  destruct (query_stream_agrees_with_query unit
              (sample_env true true true true true []
                          (Ok (Some (py "Hello. Bye."))))
              sample_retriever
              (Ok (request_body u1 s1 (VStr (py "hi"))))
              process_start _ _ eq_refl)
    as (resp & Hq & H).
  exists resp; rewrite Hq; split; [reflexivity|].
  assert (Hr : resp = {| status := 200;
                         json := QueryBody (Some (py "Hello. Bye.")) s1 |})
    by (injection Hq as <-; reflexivity).
  rewrite Hr; reflexivity.
Defined.

(** [clear_session_outcome] when the chatbot raises on clearing. *)
Lemma clear_session_outcome_witness :
  exists resp,
    snd (clear_session
           (sample_env true true true true true [] (Ok None))
           sample_retriever clear_fails
           (Ok (VDict [ (py "user_id", u1); (py "session_id", s1) ]))
           (process_start, []))
    = Ok resp.
Proof.
  destruct (clear_session_outcome unit
              (sample_env true true true true true [] (Ok None))
              sample_retriever clear_fails
              (Ok (VDict [ (py "user_id", u1); (py "session_id", s1) ]))
              process_start [])
    as (resp & added & new & H & _).
  exists resp; exact H.
Defined.

End EndpointExamples.

(* ================================================================== *)
(** * Further properties: the resume enhancer *)
(* ================================================================== *)

Section ReplaceFacts.

Import Enhancer.

Lemma starts_with_split (p s : str) :
  starts_with p s = true -> s = p ++ skipn (List.length p) s.
Proof.
  revert s; induction p as [|a p IH]; intros s H; [reflexivity|].
  destruct s as [|b s]; [discriminate|].
  simpl in H; apply andb_true_iff in H; destruct H as [Hab H].
  apply N.eqb_eq in Hab; subst b.
  simpl; f_equal; apply IH, H.
Qed.

Lemma starts_with_app (p r : str) : starts_with p (p ++ r) = true.
Proof.
  induction p as [|a p IH]; [reflexivity|].
  simpl; rewrite N.eqb_refl; exact IH.
Qed.

Lemma not_occurs_tail (old : str) (c : char) (s : str) :
  ~ occurs_in old (c :: s) -> ~ occurs_in old s.
Proof.
  intros H (pre & post & ->); apply H.
  exists (c :: pre), post; reflexivity.
Qed.

Lemma replace_fuel_absent (fuel : nat) (old new : str) :
  old <> [] ->
  forall s, ~ occurs_in old s -> replace_fuel fuel old new s = s.
Proof.
  intros Hold; induction fuel as [|fuel IH]; intros s Hs; [reflexivity|].
  destruct s as [|c s]; [reflexivity|].
  cbn [replace_fuel].
  destruct (starts_with old (c :: s)) eqn:Hsw.
  - exfalso; apply Hs.
    exists [], (skipn (List.length old) (c :: s)).
    apply starts_with_split, Hsw.
  - rewrite (IH s (not_occurs_tail _ _ _ Hs)); reflexivity.
Qed.

Lemma replace_fuel_same (fuel : nat) (old : str) :
  forall s, replace_fuel fuel old old s = s.
Proof.
  induction fuel as [|fuel IH]; intros s; [reflexivity|].
  destruct s as [|c s]; [reflexivity|].
  cbn [replace_fuel].
  destruct (starts_with old (c :: s)) eqn:Hsw.
  - rewrite IH; symmetry; apply starts_with_split, Hsw.
  - rewrite IH; reflexivity.
Qed.

Lemma replace_fuel_whole (fuel : nat) (old new : str) :
  old <> [] -> replace_fuel (S fuel) old new old = new.
Proof.
  intros Hold; destruct old as [|a old]; [congruence|].
  cbn [replace_fuel].
  replace (starts_with (a :: old) (a :: old)) with true
    by (symmetry; rewrite <- (app_nil_r (a :: old)) at 2;
        apply starts_with_app).
  rewrite skipn_all; destruct fuel; simpl; apply app_nil_r.
Qed.

Lemma replace_absent (old new s : str) :
  old <> [] -> ~ occurs_in old s -> replace old new s = s.
Proof.
  intros Hold Hs; destruct old as [|a old]; [congruence|].
  apply replace_fuel_absent; assumption.
Qed.

Lemma replace_same (old s : str) : old <> [] -> replace old old s = s.
Proof.
  intros Hold; destruct old as [|a old]; [congruence|].
  apply replace_fuel_same.
Qed.

(** Replacing a text that does not occur, and replacing a text by
    itself, change nothing; and where the text to replace is the whole
    string, the result is the replacement. *)
Theorem replace_identities (old new s : str) :
  old <> [] ->
  (~ occurs_in old s -> replace old new s = s)
  /\ replace old old s = s
  /\ replace old new old = new.
Proof.
  intros Hold; destruct old as [|a old]; [congruence|].
  split; [|split].
  - intros Hs; apply replace_fuel_absent; assumption.
  - apply replace_fuel_same.
  - unfold replace.
    change (List.length (a :: old)) with (S (List.length old)).
    apply replace_fuel_whole; discriminate.
Qed.

(** Applying two lists of enhancements put together is applying the
    first, then the second to its result. *)
Lemma apply_enhancements_app {S} (l1 l2 : list value) :
  forall (text : str) (s : S),
    apply_enhancements (l1 ++ l2) text s
    = bind (apply_enhancements l1 text)
           (fun text' => apply_enhancements l2 text') s.
Proof.
  induction l1 as [|enh l1 IH]; intros text s; [reflexivity|].
  destruct enh as [| | | | |d]; try reflexivity.
  cbn [app apply_enhancements].
  cbv beta iota zeta delta [bind get_or ret].
  destruct (truthy (lookup (py "original") (VStr []) d)
            && truthy (lookup (py "enhanced") (VStr []) d)); [|apply IH].
  unfold str_replace.
  destruct (lookup (py "original") (VStr []) d); try reflexivity.
  destruct (lookup (py "enhanced") (VStr []) d); try reflexivity.
  cbv beta iota zeta delta [ret]; apply IH.
Qed.

End ReplaceFacts.

Section EnhancerFacts.

Import Enhancer.

Variable E : env.

Lemma apply_enhancements_pure (l : list value) :
  forall text, exists r,
    forall (S : Type) (s : S), apply_enhancements l text s = (s, r).
Proof.
  induction l as [|enh l IH]; intros text.
  - exists (Ok text); reflexivity.
  - destruct enh as [| | | | |d];
      try (eexists; intros ? ?; reflexivity).
    cbn [apply_enhancements].
    destruct (truthy (lookup (py "original") (VStr []) d)
              && truthy (lookup (py "enhanced") (VStr []) d)) eqn:Hb.
    2:{ destruct (IH text) as (r & Hr); exists r; intros S s.
        cbv beta iota zeta delta [bind get_or ret]; rewrite Hb; apply Hr. }
    destruct (lookup (py "original") (VStr []) d) as [| | |o| |] eqn:Ho;
      try (eexists; intros ? ?;
           cbv beta iota zeta delta [bind get_or ret str_replace raise];
           rewrite Ho, Hb; reflexivity).
    destruct (lookup (py "enhanced") (VStr []) d) as [| | |e| |] eqn:He;
      try (eexists; intros ? ?;
           cbv beta iota zeta delta [bind get_or ret str_replace raise];
           rewrite Ho, He, Hb; reflexivity).
    destruct (IH (replace o e text)) as (r & Hr); exists r; intros S s.
    cbv beta iota zeta delta [bind get_or ret str_replace raise].
    rewrite Ho, He, Hb; apply Hr.
Qed.

Lemma comparison_entries_pure (l : list value) :
  forall i, exists r,
    forall (S : Type) (s : S), comparison_entries E i l s = (s, r).
Proof.
  induction l as [|enh l IH]; intros i.
  - exists (Ok []); reflexivity.
  - destruct enh as [| | | | |d];
      try (eexists; intros ? ?; reflexivity).
    destruct (IH (Datatypes.S i)) as ([lines|e] & Hr);
      eexists; intros ? ?; cbn [comparison_entries];
      cbv beta iota zeta delta [bind get_or ret]; rewrite Hr; reflexivity.
Qed.

Lemma create_pdf_run (p : str) (l : value) (o : str) (done : list action) :
  create_pdf E p l o done
  = (done ++ [ApplyPdf p l o], Ok (pdf_made E done p l o && printable o)).
Proof.
  unfold create_pdf, pdf_made; cbv beta iota zeta delta [try_except bind act].
  destruct (apply_enhancements_to_pdf E done p l o) as [r|e];
    [|reflexivity].
  destruct r as [| | | | |d]; try reflexivity.
  cbv beta iota zeta delta [get_or ret].
  destruct (truthy (lookup (py "success") VNone d)); [|reflexivity].
  unfold print_path; destruct (printable o); reflexivity.
Qed.

(** Where the loop of step 2 went through, every entry is a dict, and
    the lines of the comparison file can be written. *)
Lemma comparison_entries_run (entries : list value) :
  forall (text enhanced_text : str) (i : nat),
    snd (apply_enhancements entries text tt) = Ok enhanced_text ->
    exists lines,
      forall (S : Type) (s : S),
        comparison_entries E i entries s = (s, Ok lines).
Proof.
  induction entries as [|enh rest IH]; intros text enhanced_text i Hrun.
  - exists []; reflexivity.
  - destruct enh as [| | | | |d]; try discriminate Hrun.
    cbn [apply_enhancements] in Hrun.
    cbv beta iota zeta delta [bind get_or ret] in Hrun.
    assert (Hrest : exists text', snd (apply_enhancements rest text' tt)
                                  = Ok enhanced_text).
    { destruct (truthy (lookup (py "original") (VStr []) d)
                && truthy (lookup (py "enhanced") (VStr []) d));
        [|exists text; exact Hrun].
      unfold str_replace in Hrun.
      destruct (lookup (py "original") (VStr []) d); try discriminate Hrun.
      destruct (lookup (py "enhanced") (VStr []) d); try discriminate Hrun.
      eexists; exact Hrun. }
    destruct Hrest as (text' & Hrest).
    destruct (IH text' enhanced_text (Datatypes.S i) Hrest) as (lines & Hl).
    eexists; intros S s; cbn [comparison_entries].
    cbv beta iota zeta delta [bind get_or ret]; rewrite Hl; reflexivity.
Qed.

(** X20. Entries that cannot change the text leave it as it is: a list
    whose every entry is a dict with its original or its enhanced text
    missing or empty, or with an original that does not occur in the
    text, or with an enhanced text equal to its original, gives back
    the text. *)
Theorem apply_enhancements_idle {S} (entries : list value) (text : str)
        (s : S) :
  Forall (idle_entry text) entries ->
  apply_enhancements entries text s = (s, Ok text).
Proof.
  induction 1 as [|enh rest (d & -> & Hd) _ IH]; [reflexivity|].
  cbn [apply_enhancements]; cbv beta iota zeta delta [bind get_or ret].
  cbv zeta in Hd; destruct Hd as [Ho | [He | (o & e & Ho & He & Hk)]].
  - rewrite Ho; exact IH.
  - rewrite He, andb_false_r; exact IH.
  - rewrite Ho, He.
    destruct (truthy (VStr o) && truthy (VStr e)) eqn:Hb; [|exact IH].
    unfold str_replace, ret.
    assert (Ho' : o <> []).
    { apply andb_true_iff in Hb; destruct Hb as [Hb _].
      apply nonempty_true, Hb. }
    destruct Hk as [Hk | <-].
    + rewrite (replace_absent o e text Ho' Hk); exact IH.
    + rewrite (replace_same o text Ho'); exact IH.
Qed.

End EnhancerFacts.

Section EnhancerClaims.

Import Enhancer.

Variable E : env.

Lemma comparison_text_contains (lines resume_text enhanced_text : str) :
  occurs_in resume_text (comparison_text lines resume_text enhanced_text)
  /\ occurs_in enhanced_text
               (comparison_text lines resume_text enhanced_text).
Proof.
  unfold comparison_text; split.
  - do 17 apply occurs_in_app_r.
    apply occurs_in_app_l, occurs_in_refl.
  - do 27 apply occurs_in_app_r.
    apply occurs_in_refl.
Qed.

(** X21. When the analyzer raises, or returns a dict whose [success]
    is missing or falsy, [enhance_resume_text] writes no file and does
    not call the PDF applier: it returns the failure dictionary, with
    the message of the exception, or with the analyzer's own [error]. *)
Theorem enhance_analyzer_failure (pdf text : str) (evaluation : value)
        (out : option str) (done : list action) :
  let output_dir :=
    match out with
    | Some d => if nonempty d then d else dirname E pdf
    | None => dirname E pdf
    end in
  let json_path :=
    path_join E output_dir
              (splitext_root E (basename E pdf) ++ py "_Enhancements.json") in
  let ev := if truthy evaluation then evaluation else VDict [] in
  let run := enhance_resume_text E pdf text evaluation out done in
  (forall e,
     analyze_and_generate_enhancements E done text ev json_path = Raise e ->
     run = (done ++ [Analyze text ev json_path],
            Ok (failure_result (VStr e))))
  /\ (forall d,
        analyze_and_generate_enhancements E done text ev json_path
        = Ok (VDict d) ->
        truthy (lookup (py "success") VNone d) = false ->
        run = (done ++ [Analyze text ev json_path],
               Ok (failure_result (lookup (py "error") VNone d)))).
Proof.
  cbv zeta; split.
  - intros e He; unfold enhance_resume_text.
    cbv beta iota zeta delta [try_except bind act].
    rewrite He; reflexivity.
  - intros d Hd Hs; unfold enhance_resume_text.
    cbv beta iota zeta delta [try_except bind act].
    rewrite Hd; cbv beta iota zeta delta [get_or ret].
    rewrite Hs; reflexivity.
Qed.

Lemma iterate_pure (v : value) :
  exists r, forall (S : Type) (s : S), iterate v s = (s, r).
Proof. destruct v; eexists; intros ? ?; reflexivity. Qed.

(** Closes a branch in which the enhancer returns the failure
    dictionary. *)
Ltac enhancer_failed :=
  rewrite <- ?app_assoc; cbn [app];
  eexists _, _; split; [reflexivity|];
  split; [right; split; reflexivity
         | let H := fresh in intros H; discriminate H].

(** X22. [enhance_resume_text] never raises: it returns a dictionary
    whose [success] is [True], or [False] with no path of an
    enhancement file. It reports success only when it got through the
    first five steps: the analyzer returned an analysis it can use, the
    loop of step 2 turned the text into the enhanced text, and the
    three files were written. And when it gets through them, with paths
    that can be printed, the run is: the analyzer, the enhanced text
    that the loop computed, the original text as it was given, the
    comparison file, which contains both texts, and the PDF applier, in
    this order; success is reported whatever the PDF applier did, which
    only decides whether the dictionary names a PDF. *)
Theorem enhance_success_means_files (pdf text : str) (evaluation : value)
        (out : option str) (done : list action) :
  let output_dir :=
    match out with
    | Some d => if nonempty d then d else dirname E pdf
    | None => dirname E pdf
    end in
  let path suffix :=
    path_join E output_dir (splitext_root E (basename E pdf) ++ suffix) in
  let ev := if truthy evaluation then evaluation else VDict [] in
  let json_path := path (py "_Enhancements.json") in
  let enhanced_path := path (py "_Enhanced.txt") in
  let original_path := path (py "_Original.txt") in
  let comparison_path := path (py "_Comparison.txt") in
  let pdf_path := path (py "_Enhanced.pdf") in
  let files entries enhanced_text :=
    [ Analyze text ev json_path;
      WriteFile enhanced_path enhanced_text;
      WriteFile original_path text;
      WriteFile comparison_path
                (comparison_text (lines_of E entries) text enhanced_text) ] in
  let gets_through result enhancement_list entries enhanced_text :=
    analyze_and_generate_enhancements E done text ev json_path = Ok result
    /\ usable_analysis result enhancement_list entries
    /\ snd (apply_enhancements entries text tt) = Ok enhanced_text
    /\ write_file E (done ++ [Analyze text ev json_path])
                  enhanced_path enhanced_text = Ok tt
    /\ write_file E (done ++ [ Analyze text ev json_path;
                               WriteFile enhanced_path enhanced_text ])
                  original_path text = Ok tt
    /\ write_file E (done ++ [ Analyze text ev json_path;
                               WriteFile enhanced_path enhanced_text;
                               WriteFile original_path text ])
                  comparison_path
                  (comparison_text (lines_of E entries) text enhanced_text)
       = Ok tt in
  let run := enhance_resume_text E pdf text evaluation out done in
  (forall result enhancement_list entries enhanced_text,
     gets_through result enhancement_list entries enhanced_text ->
     printable enhanced_path = true ->
     printable original_path = true ->
     printable comparison_path = true ->
     printable pdf_path = true ->
     let written := files entries enhanced_text in
     run = (done ++ written ++ [ApplyPdf pdf enhancement_list pdf_path],
            Ok (success_result
                  json_path enhanced_path original_path comparison_path
                  (if pdf_made E (done ++ written) pdf enhancement_list
                               pdf_path
                   then VStr pdf_path else VNone)
                  (List.length entries)))
     /\ occurs_in text
                  (comparison_text (lines_of E entries) text enhanced_text)
     /\ occurs_in enhanced_text
                  (comparison_text (lines_of E entries) text enhanced_text))
  /\ (exists r new,
        run = (done ++ new, Ok r)
        /\ (field "success" r = VBool true
            \/ (field "success" r = VBool false
                /\ field "enhancement_json_path" r = VNone))
        /\ (field "success" r = VBool true ->
            exists result enhancement_list entries enhanced_text,
              gets_through result enhancement_list entries enhanced_text
              /\ new = files entries enhanced_text
                       ++ [ApplyPdf pdf enhancement_list pdf_path])).
Proof.
  cbv zeta; unfold enhance_resume_text.
  set (output_dir := match out with
                     | Some d => if nonempty d then d else dirname E pdf
                     | None => dirname E pdf
                     end).
  set (base := splitext_root E (basename E pdf)).
  set (ev := if truthy evaluation then evaluation else VDict []).
  split.
  - intros result enhancement_list entries enhanced_text
           (Hres & (d & d2 & -> & Hok & Hget & -> & Hit) & Happly
            & Hw1 & Hw2 & Hw3) Hp1 Hp2 Hp3 Hp4.
    destruct (comparison_text_contains (lines_of E entries) text
                                       enhanced_text) as [H1 H2].
    split; [|split; [exact H1 | exact H2]].
    cbv beta iota zeta delta [try_except bind act].
    rewrite Hres; cbv beta iota zeta delta [get_or ret].
    rewrite Hok; cbv beta iota zeta delta [negb]; rewrite Hget.
    cbv beta iota zeta delta [ret].
    destruct (iterate_pure (lookup (py "enhancements") (VList []) d2))
      as (ri & Hi); rewrite Hi in Hit |- *; simpl in Hit; subst ri.
    destruct (apply_enhancements_pure entries text) as (ra & Ha).
    rewrite Ha in Happly |- *; simpl in Happly; subst ra.
    rewrite Hw1; unfold print_path at 1; rewrite Hp1.
    cbv beta iota zeta delta [ret].
    rewrite <- app_assoc; cbn [app]; rewrite Hw2.
    unfold print_path at 1; rewrite Hp2; cbv beta iota zeta delta [ret].
    destruct (comparison_entries_run E entries text enhanced_text 1)
      as (lines & Hl).
    { rewrite Ha; reflexivity. }
    assert (Hlines : lines_of E entries = lines)
      by (unfold lines_of; rewrite Hl; reflexivity).
    rewrite Hlines in *; rewrite Hl.
    rewrite <- app_assoc; cbn [app]; rewrite Hw3.
    unfold print_path at 1; rewrite Hp3; cbv beta iota zeta delta [ret].
    rewrite create_pdf_run, Hp4, andb_true_r.
    cbv beta iota zeta delta [ret].
    rewrite <- !app_assoc; cbn [app]; reflexivity.
  - cbv beta iota zeta delta [try_except bind act].
    destruct (analyze_and_generate_enhancements E done text ev _)
      as [result|e] eqn:Hres; [|enhancer_failed].
    destruct result as [| | | | |d]; try enhancer_failed.
    cbv beta iota zeta delta [get_or ret].
    destruct (truthy (lookup (py "success") VNone d)) eqn:Hok;
      [|enhancer_failed].
    cbv beta iota zeta delta [negb].
    destruct (getitem (py "enhancements") d) as [enhancements|] eqn:Hget;
      [|enhancer_failed].
    cbv beta iota zeta delta [ret].
    destruct enhancements as [| | | | |d2]; try enhancer_failed.
    cbv beta iota zeta delta [ret].
    destruct (iterate_pure (lookup (py "enhancements") (VList []) d2))
      as (ri & Hi); rewrite Hi.
    destruct ri as [entries|e]; [|enhancer_failed].
    destruct (apply_enhancements_pure entries text) as (ra & Ha); rewrite Ha.
    destruct ra as [enhanced_text|e]; [|enhancer_failed].
    destruct (write_file E _ _ enhanced_text) as [[]|e] eqn:Hw1;
      [|enhancer_failed].
    unfold print_path at 1.
    destruct (printable (path_join E output_dir (base ++ py "_Enhanced.txt")));
      [|enhancer_failed].
    cbv beta iota zeta delta [ret].
    destruct (write_file E _ _ text) as [[]|e] eqn:Hw2; [|enhancer_failed].
    unfold print_path at 1.
    destruct (printable (path_join E output_dir (base ++ py "_Original.txt")));
      [|enhancer_failed].
    cbv beta iota zeta delta [ret].
    destruct (comparison_entries_run E entries text enhanced_text 1)
      as (lines & Hl).
    { rewrite Ha; reflexivity. }
    assert (Hlines : lines_of E entries = lines)
      by (unfold lines_of; rewrite Hl; reflexivity).
    rewrite Hl.
    destruct (write_file E _ _ (comparison_text lines text enhanced_text))
      as [[]|e] eqn:Hw3; [|enhancer_failed].
    unfold print_path at 1.
    destruct (printable
                (path_join E output_dir (base ++ py "_Comparison.txt")));
      [|enhancer_failed].
    cbv beta iota zeta delta [ret].
    rewrite create_pdf_run; cbv beta iota zeta delta [ret].
    rewrite <- !app_assoc in *; cbn [app] in *.
    eexists _, _; split; [reflexivity|].
    split; [left; reflexivity|]; intros _.
    exists (VDict d), (lookup (py "enhancements") (VList []) d2), entries,
           enhanced_text.
    rewrite ?Hlines.
    split; [|reflexivity].
    split; [first [exact Hres | reflexivity]|].
    split; [exists d, d2; repeat split; auto; rewrite Hi; reflexivity|].
    split; [rewrite Ha; reflexivity|].
    repeat split; first [assumption | reflexivity].
Qed.

End EnhancerClaims.

Section EnhancerExamples.

Import Enhancer Fixtures.

(** [replace_identities] at a text that does not occur. *)
Lemma replace_identities_witness :
  replace (py "xyz") (py "!") (py "ab") = py "ab".
Proof.
  assert (Hold : py "xyz" <> []) by (vm_compute; discriminate).
  apply (proj1 (replace_identities (py "xyz") (py "!") (py "ab") Hold)).
  intros (pre & post & H).
  destruct pre as [|a1 [|a2 [|a3 pre]]]; vm_compute in H; discriminate H.
Defined.

(** [apply_enhancements_idle] at an entry without enhanced text. *)
Lemma apply_enhancements_idle_witness :
  apply_enhancements
    [ VDict [ (py "original", VStr (py "did stuff")) ] ]
    (py "I did stuff.") tt
  = (tt, Ok (py "I did stuff.")).
Proof.
  apply (@apply_enhancements_idle unit).
  constructor; [|constructor].
  eexists; split; [reflexivity|].
  cbv zeta; right; left; reflexivity.
Defined.

(** [enhance_analyzer_failure] where the analyzer reports a failure. *)
Lemma enhance_analyzer_failure_witness :
  snd (enhance_resume_text
         (sample_enhancer_env (Ok failed_analysis) true (Ok VNone))
         (py "/cv/jane.pdf") (py "I did stuff.") VNone None [])
  = Ok (failure_result (VStr (py "quota exceeded"))).
Proof.
  rewrite (proj2 (enhance_analyzer_failure
                    (sample_enhancer_env (Ok failed_analysis) true
                                         (Ok VNone))
                    (py "/cv/jane.pdf") (py "I did stuff.") VNone None [])
                 _ eq_refl eq_refl).
  reflexivity.
Defined.

(** [enhance_success_means_files] where everything works but the PDF
    applier, which raises: success is reported, the enhanced text is
    written, and no PDF is named. *)
Lemma enhance_success_means_files_witness :
  let run :=
    enhance_resume_text
      (sample_enhancer_env (Ok sample_analysis) true
                           (Raise Samples.failure))
      (py "/cv/jane.pdf") (py "I did stuff.") VNone None [] in
  In (WriteFile (py "/cv/jane_Enhanced.txt") (py "I led a team."))
     (fst run)
  /\ List.length (fst run) = 5%nat
  /\ (exists r,
        snd run = Ok r
        /\ field "success" r = VBool true
        /\ field "enhanced_pdf_path" r = VNone).
Proof.
  cbv zeta.
  pose proof (proj1 (enhance_success_means_files
                       (sample_enhancer_env (Ok sample_analysis) true
                                            (Raise Samples.failure))
                       (py "/cv/jane.pdf") (py "I did stuff.") VNone None []))
    as H.
  cbv zeta in H.
  destruct (H sample_analysis
              (VList
                 [ VDict [ (py "original", VStr (py "did stuff"));
                           (py "enhanced", VStr (py "led a team"));
                           (py "reason", VStr (py "Stronger verb")) ] ])
              [ VDict [ (py "original", VStr (py "did stuff"));
                        (py "enhanced", VStr (py "led a team"));
                        (py "reason", VStr (py "Stronger verb")) ] ]
              (py "I led a team.")) as (Hrun & _);
    try reflexivity.
  { split; [reflexivity|].
    split; [eexists _, _; repeat split; reflexivity|].
    repeat split; reflexivity. }
  rewrite Hrun; split; [right; left; reflexivity|].
  split; [reflexivity|].
  eexists; split; [reflexivity|]; split; reflexivity.
Defined.

End EnhancerExamples.

Section MoreExamples.

Import Context Samples Fixtures.

(** [format_context_empty_iff] at one sample document. *)
Lemma format_context_empty_iff_witness :
  exists rest,
    format_retrieved_context sample_str_of [acme_doc]
    = py "[Company]: " ++ rest.
Proof.
  apply (proj2 (format_context_empty_iff unit sample_str_of [acme_doc])).
  discriminate.
Defined.

(** [retrieve_call_order] at a filter whose only value is [None]: the
    query is processed and embedded, the search is not called, and
    nothing is retrieved although the search would return a hit. *)
Lemma retrieve_call_order_witness :
  let run :=
    Retriever.retrieve
      (sample_env true true true true true [sample_hit] (Ok None))
      sample_retriever (VStr (py "internship")) (Some 0%Z)
      (Some [ (py "company", VNone) ]) process_start in
  count (@is_search unit) (calls (fst run)) = 0%nat /\ snd run = Ok [].
Proof.
  cbv zeta.
  destruct (retrieve_call_order unit
              (sample_env true true true true true [sample_hit] (Ok None))
              sample_retriever (VStr (py "internship")) (Some 0%Z)
              (Some [ (py "company", VNone) ]) process_start)
    as (new & Hrun & _ & _ & _ & _ & Hbad).
  assert (Hnone : Exists (fun kv : str * value =>
                            Retriever.accepted (snd kv) = false)
                         [ (py "company", VNone) ])
    by (constructor; reflexivity).
  destruct (Hbad _ eq_refl Hnone) as [Hcount Hres].
  rewrite Hrun; split; [exact Hcount | exact Hres].
Defined.

End MoreExamples.
